(** * Holiday datasets: fetch, merge, persist and the regression validator

    A shallow embedding of [update_holidays.py], [holidays_gcal_fetch.py]
    and [test_update_holidays.py], followed by the properties of the merge
    engine, the source-level de-duplication, the year filter, the dataset
    store and the snapshot comparison.

    Conventions of the embedding:
    - a Python [str] is a [string], one character per code point (codes
      below 256); [<=] on [str] is [String.leb], [s[:n]] is
      [substring 0 n s];
    - a holiday dictionary [{"date": d, "name": n}] is the record
      [HolidayEntry];
    - a Python [set] is a [gset]; a Python [dict] whose iteration order is
      observable is an insertion-ordered association list ([PyDict]);
    - a raised exception is the [Raise] case of [result];
    - a member that the code reads off a JSON object with [get] is
      absent, [null] or a value ([member]);
    - the directory of JSON files is a finite map from country code to
      file content, and every file operation is recorded in a trace; a
      write can fail, before or after the file is truncated. *)

From Stdlib Require Import ZArith Ascii String.
From stdpp Require Import base decidable option list sets gmap strings sorting.

Local Open Scope Z_scope.
Local Open Scope list_scope.

(** * Part I: the programs *)

(** ** Exceptions *)

Inductive exn : Type :=
| RuntimeError        (* raised by [http_get] on HTTP and network failures *)
| ValueError          (* [int()] on a non-numeric string, [min(())] *)
| FileExistsError     (* recreate requested over an existing file *)
| UnicodeDecodeError  (* reading a file that is not UTF-8 text *)
| LookupError         (* [h["date"]] on a value without that member *)
| AttributeError      (* [None.get(...)], a member [start] that is [null] *)
| TypeError           (* [None[:10]], a member [dateTime] that is [null] *)
| RecursionError      (* [json.load] on text nested too deeply *)
| UnicodeEncodeError  (* [json.dump] on a string that UTF-8 cannot encode *)
| OSError.            (* [open(file_path, "w")] refused by the system *)

Inductive result (A : Type) : Type :=
| Ok (a : A)
| Raise (e : exn).
Arguments Ok {A} a.
Arguments Raise {A} e.

#[global] Instance exn_eq_dec : EqDecision exn.
Proof. solve_decision. Defined.

#[global] Instance result_eq_dec {A : Type} `{EqDecision A} :
  EqDecision (result A).
Proof. solve_decision. Defined.

#[global] Instance result_ret : MRet result := λ A a, Ok a.
#[global] Instance result_bind : MBind result := λ A B f r,
  match r with
  | Ok a => f a
  | Raise e => Raise e
  end.

(** ** Insertion-ordered dictionaries *)

Module PyDict.
Section dict.
Context {K V : Type} `{EqDecision K}.

(** [d[k]] / [k in d] *)
Fixpoint getitem (k : K) (d : list (K * V)) : option V :=
  match d with
  | [] => None
  | (k', v) :: d' => if decide (k = k') then Some v else getitem k d'
  end.

(** [d[k] = v]: an existing key keeps its position, a new key goes
    last. *)
Fixpoint setitem (k : K) (v : V) (d : list (K * V)) : list (K * V) :=
  match d with
  | [] => [(k, v)]
  | (k', v') :: d' =>
      if decide (k = k') then (k, v) :: d' else (k', v') :: setitem k v d'
  end.

Definition keys (d : list (K * V)) : list K := d.*1.
Definition values (d : list (K * V)) : list V := d.*2.
End dict.
End PyDict.

(** ** Strings *)

(** Truth value of a [str]: non-empty. *)
Definition truthy (s : string) : bool := negb (String.eqb s "").

(** Truth value of [d.get(k)]: present and non-empty. *)
Definition truthy_opt (o : option string) : bool :=
  match o with
  | Some s => truthy s
  | None => false
  end.

(** Characters [int()] skips around a number: the ASCII white space and,
    above 127, the Unicode spaces U+0085 and U+00A0. *)
Definition is_space (c : ascii) : bool :=
  match nat_of_ascii c with
  | 9%nat | 10%nat | 11%nat | 12%nat | 13%nat | 32%nat | 133%nat | 160%nat => true
  | _ => false
  end.

Definition digit_of (c : ascii) : option Z :=
  let n := Z.of_nat (nat_of_ascii c) in
  if bool_decide (48 ≤ n ≤ 57) then Some (n - 48) else None.

Definition is_underscore (c : ascii) : bool := Ascii.eqb c "_".

(** Digits after the first one; a single underscore is allowed between
    two digits. *)
Fixpoint digits_from (acc : Z) (cs : list ascii) : option Z :=
  match cs with
  | [] => Some acc
  | c :: cs' =>
      match digit_of c with
      | Some d => digits_from (10 * acc + d) cs'
      | None =>
          if is_underscore c then
            match cs' with
            | c2 :: cs'' =>
                match digit_of c2 with
                | Some d => digits_from (10 * acc + d) cs''
                | None => None
                end
            | [] => None
            end
          else None
      end
  end.

Definition digits (cs : list ascii) : option Z :=
  match cs with
  | c :: cs' =>
      match digit_of c with
      | Some d => digits_from d cs'
      | None => None
      end
  | [] => None
  end.

Fixpoint lstrip (cs : list ascii) : list ascii :=
  match cs with
  | c :: cs' => if is_space c then lstrip cs' else cs
  | [] => []
  end.

Definition strip (cs : list ascii) : list ascii :=
  reverse (lstrip (reverse (lstrip cs))).

(** [int(s)] in base ten; [None] is [ValueError]. *)
Definition py_int (s : string) : option Z :=
  match strip (list_ascii_of_string s) with
  | c :: cs =>
      if Ascii.eqb c "+" then digits cs
      else if Ascii.eqb c "-" then Z.opp <$> digits cs
      else digits (c :: cs)
  | [] => None
  end.

(** [y in set(range(a, b))] *)
Definition in_range (a b : Z) (y : Z) : bool := bool_decide (a ≤ y < b).

(** [y in set(years)] for a tuple [years] *)
Definition in_years (years : list Z) (y : Z) : bool := bool_decide (y ∈ years).

(** [int(d[:4])], the year a date string starts with. *)
Definition year_of (d : string) : option Z := py_int (substring 0 4 d).

(** The condition [d and int(d[:4]) in year_set] of both year filters. *)
Definition year_kept (year_set : Z → bool) (d : string) : result bool :=
  if truthy d then
    match year_of d with
    | Some y => Ok (year_set y)
    | None => Raise ValueError
    end
  else Ok false.

(** A list comprehension [[x for x in l if p(x)]] whose condition may
    raise. *)
Fixpoint py_filter {A : Type} (p : A → result bool) (l : list A)
  : result (list A) :=
  match l with
  | [] => Ok []
  | x :: l' =>
      match p x with
      | Raise e => Raise e
      | Ok b =>
          match py_filter p l' with
          | Raise e => Raise e
          | Ok r => Ok (if b then x :: r else r)
          end
      end
  end.

(** ** Holiday entries *)

Record HolidayEntry : Type := mkHoliday { date : string; name : string }.

#[global] Instance HolidayEntry_eq_dec : EqDecision HolidayEntry.
Proof. solve_decision. Defined.

(** The tuple [(h["date"], h["name"])] used by [merge_holidays]. *)
Definition key_of (h : HolidayEntry) : string * string := (date h, name h).

(** ** The calendar source

    An item of the events listing. The members that decide the date of
    an item, [start], [start.date] and [start.dateTime], are each absent,
    present with the value [null], or present with a value of the type
    the listing documents (an object for [start], a string for the two
    others): [d.get(k)] gives [None] for the first two alike, while
    [d.get(k, default)] gives the default for an absent member only.
    The member [items] of a page is of the same kind. The members [id]
    and [summary] are [None] when the item has no such member and
    strings when present: a [null] there would pass into the entry as
    its name, and [HolidayEntry] holds strings. *)

Inductive member (A : Type) : Type :=
| Absent            (* the object has no such member *)
| Null              (* the member is there, with the value [null] *)
| Value (a : A).
Arguments Absent {A}.
Arguments Null {A}.
Arguments Value {A} a.

Record EventStart : Type := mkStart {
  start_date : member string;       (* start.date, all-day events *)
  start_dateTime : member string    (* start.dateTime *)
}.

Record RawEvent : Type := mkEvent {
  ev_id : option string;
  ev_summary : option string;
  ev_start : member EventStart
}.

Record Page : Type := mkPage {
  items : member (list RawEvent);
  nextPageToken : option string     (* [None]: absent, or [null] *)
}.

(** What one request comes to. [http_get] turns an HTTP error and a
    network error into [RuntimeError]; any other exception of the request
    passes through it as it is (a body that is not JSON), and an answer
    that is a JSON document but no object has no [get]
    ([AttributeError]); otherwise the decoded page is returned. *)
Inductive response : Type :=
| HttpFailure
| HttpOther (e : exn)
| HttpOk (data : Page).

(** [d.get(k)]: [None] for an absent member and for [null]. *)
Definition dict_get {A : Type} (m : member A) : option A :=
  match m with
  | Value a => Some a
  | Absent | Null => None
  end.

(** [start.get("date") or start.get("dateTime", "")[:10]], with
    [start = item.get("start", {})]. A [start] that is [null] has no
    [get]; a [dateTime] that is [null] cannot be sliced. *)
Definition resolve_date (item : RawEvent) : result string :=
  match ev_start item with
  | Null => Raise AttributeError
  | Absent => Ok ""
  | Value start =>
      if truthy_opt (dict_get (start_date start)) then
        Ok (default "" (dict_get (start_date start)))
      else
        match start_dateTime start with
        | Absent => Ok ""
        | Null => Raise TypeError
        | Value s => Ok (substring 0 10 s)
        end
  end.

(** A member that carries no value, or an empty one. *)
Definition no_value (m : member string) : bool :=
  match m with
  | Absent | Null => true
  | Value s => String.eqb s ""
  end.

(** An item whose start marker carries no date value and no date-time
    value, or only empty ones. *)
Definition dateless (item : RawEvent) : bool :=
  match ev_start item with
  | Absent | Null => true
  | Value start => no_value (start_date start) && no_value (start_dateTime start)
  end.

(** An item in which [start], or [start.dateTime], is [null]. *)
Definition null_start (item : RawEvent) : bool :=
  match ev_start item with
  | Absent => false
  | Null => true
  | Value start =>
      match start_dateTime start with
      | Null => true
      | Absent | Value _ => false
      end
  end.


(** A loop [for x in l: out.extend(f(x))] whose body may raise: the
    first exception ends it. *)
Fixpoint py_collect {A B : Type} (f : A → result (list B)) (l : list A)
  : result (list B) :=
  match l with
  | [] => Ok []
  | x :: l' =>
      match f x with
      | Raise e => Raise e
      | Ok ys =>
          match py_collect f l' with
          | Raise e => Raise e
          | Ok r => Ok (ys ++ r)
          end
      end
  end.

(** ** [update_holidays.py]: fetching *)

(** [data.get("items", [])], as a [for] loop walks it: a member that is
    [null] cannot be walked. *)
Definition page_items (data : Page) : result (list RawEvent) :=
  match items data with
  | Absent => Ok []
  | Null => Raise TypeError
  | Value l => Ok l
  end.

(** The body of [for item in data.get("items", [])]: what the item adds
    to [holidays]. *)
Definition holiday_of_item (item : RawEvent) : result (list HolidayEntry) :=
  date_str ← resolve_date item;
  mret (if truthy date_str then
          [ mkHoliday (date_str +:+ "T00:00:00.000Z") (default "" (ev_summary item)) ]
        else []).

(** The loop [for item in data.get("items", [])] on one page. *)
Definition holidays_of_page (data : Page) : result (list HolidayEntry) :=
  page_items data ≫= py_collect holiday_of_item.


(** The [while True] loop over pages. [server] lists the answers to the
    successive requests of this call, in order; a request that gets no
    answer ends in the time-out of [urlopen], a [RuntimeError]. *)
Fixpoint fetch_pages (server : list response) (holidays : list HolidayEntry)
  : result (list HolidayEntry) :=
  match server with
  | [] => Raise RuntimeError
  | HttpFailure :: _ => Raise RuntimeError
  | HttpOther e :: _ => Raise e
  | HttpOk data :: server' =>
      match holidays_of_page data with
      | Raise e => Raise e
      | Ok added =>
          let holidays' := holidays ++ added in
          if truthy_opt (nextPageToken data) then fetch_pages server' holidays'
          else Ok holidays'
      end
  end.

(** [filtered_holidays] *)
Definition filter_years (start_year end_year : Z) (holidays : list HolidayEntry)
  : result (list HolidayEntry) :=
  py_filter (λ h, year_kept (in_range start_year (end_year + 1)) (date h)) holidays.

(** The dictionary [unique_holidays], filled in input order, and its
    values. *)
Definition unique_holidays (filtered_holidays : list HolidayEntry)
  : list HolidayEntry :=
  PyDict.values
    (foldl (λ d holiday, PyDict.setitem (date holiday) holiday d) [] filtered_holidays).

Definition fetch_holidays_from_gcal (server : list response)
    (start_year end_year : Z) : result (list HolidayEntry) :=
  holidays ← fetch_pages server [];
  filtered_holidays ← filter_years start_year end_year holidays;
  mret (unique_holidays filtered_holidays).

(** ** [holidays_gcal_fetch.py] *)

Record CalendarRow : Type := mkRow {
  row_date : string;
  row_name : string;
  row_calendarId : string;
  row_gcal_event_id : string
}.

(** What the item appends to [results]. *)
Definition row_of_item (calendar_id : string) (item : RawEvent)
  : result (list CalendarRow) :=
  date ← resolve_date item;
  mret [ mkRow date (default "" (ev_summary item)) calendar_id
               (default "" (ev_id item)) ].

Definition rows_of_page (calendar_id : string) (data : Page)
  : result (list CalendarRow) :=
  page_items data ≫= py_collect (row_of_item calendar_id).

Fixpoint fetch_rows (calendar_id : string) (server : list response)
    (results : list CalendarRow) : result (list CalendarRow) :=
  match server with
  | [] => Raise RuntimeError
  | HttpFailure :: _ => Raise RuntimeError
  | HttpOther e :: _ => Raise e
  | HttpOk data :: server' =>
      match rows_of_page calendar_id data with
      | Raise e => Raise e
      | Ok added =>
          let results' := results ++ added in
          if truthy_opt (nextPageToken data) then
            fetch_rows calendar_id server' results'
          else Ok results'
      end
  end.

(** [[r for r in results if r["date"] and int(r["date"][:4]) in years_set]] *)
Definition filter_rows (years : list Z) (results : list CalendarRow)
  : result (list CalendarRow) :=
  py_filter (λ r, year_kept (in_years years) (row_date r)) results.

(** [years] is the tuple of requested years; [min(years)] raises
    [ValueError] on the empty tuple. *)
Definition fetch_calendar_holidays (calendar_id : string)
    (server : list response) (years : list Z) : result (list CalendarRow) :=
  match years with
  | [] => Raise ValueError
  | _ :: _ =>
      results ← fetch_rows calendar_id server [];
      filter_rows years results
  end.

Definition default_years : list Z := [2025; 2026; 2027].

(** ** [list.sort(key=lambda h: h["date"])]

    Python's sort is stable, and a stable sort has one possible output;
    it is computed here by straight insertion from the right. *)

Fixpoint insert_by_date (h : HolidayEntry) (l : list HolidayEntry)
  : list HolidayEntry :=
  match l with
  | [] => [h]
  | h' :: l' =>
      if String.leb (date h) (date h') then h :: h' :: l'
      else h' :: insert_by_date h l'
  end.

Fixpoint sort_by_date (l : list HolidayEntry) : list HolidayEntry :=
  match l with
  | [] => []
  | h :: l' => insert_by_date h (sort_by_date l')
  end.

(** Non-decreasing by date, as a relation on neighbours. *)
Definition date_le (h1 h2 : HolidayEntry) : Prop :=
  String.leb (date h1) (date h2) = true.

(** ** [merge_holidays] *)

(** One turn of [for holiday in new_holidays]; the state is the pair of
    [merged] and [existing_keys]. *)
Definition merge_step (st : list HolidayEntry * gset (string * string))
    (holiday : HolidayEntry) : list HolidayEntry * gset (string * string) :=
  let key := (date holiday, name holiday) in
  if decide (key ∈ st.2) then st
  else (st.1 ++ [holiday], st.2 ∪ {[ key ]}).

Definition merge_loop (existing new_holidays : list HolidayEntry)
  : list HolidayEntry * gset (string * string) :=
  foldl merge_step (existing, list_to_set (key_of <$> existing)) new_holidays.

Definition merge_holidays (existing new_holidays : list HolidayEntry)
  : list HolidayEntry :=
  sort_by_date (merge_loop existing new_holidays).1.

(** The invariant of the loop: [existing_keys] is the set of the keys of
    [merged]. *)
Definition keys_agree (st : list HolidayEntry * gset (string * string))
  : Prop :=
  st.2 = list_to_set (key_of <$> st.1).

(** ** The dataset store

    What a country file holds, by what [open(..., encoding="utf-8")] and
    [json.load] make of it: the read raises [UnicodeDecodeError], the
    parser raises [json.JSONDecodeError], the parser raises an exception
    of another class ([ValueError] on an integer literal of more than
    4300 digits, [RecursionError] on nesting deeper than the interpreter
    allows), or the parser returns a value, an array or not. An element
    of a stored array is either a holiday dictionary with string members
    [date] and [name], or a JSON value, given by its text, on which
    [h["date"]] or [h["name"]] raises (a number, a string, [null], an
    array, an object lacking one of the two members). Objects that carry
    both members together with others, or with values that are not
    strings, are outside this model. *)

Inductive stored_item : Type :=
| StoredEntry (h : HolidayEntry)
| StoredOther (text : string).

Inductive content : Type :=
| Undecodable                       (* bytes that are not UTF-8 text *)
| Unparsable                        (* text that is not a JSON document *)
| Unloadable (e : exn)              (* text on which [json.load] raises [e],
                                       not a [JSONDecodeError] *)
| NotAList                          (* a JSON document other than an array *)
| Listing (l : list stored_item).   (* a JSON array *)

Inductive warning : Type :=
| NotAListWarning    (* "... does not contain a list. Treating as empty." *)
| ParseWarning.      (* "Failed to parse ... Treating as empty." *)

(** [load_existing_holidays]; [file] is [None] when the path does not
    exist. The second component lists the warnings printed. *)
Definition load_existing_holidays (file : option content)
  : result (list stored_item) * list warning :=
  match file with
  | None => (Ok [], [])
  | Some Undecodable => (Raise UnicodeDecodeError, [])
  | Some Unparsable => (Ok [], [ParseWarning])
  | Some (Unloadable e) => (Raise e, [])
  | Some NotAList => (Ok [], [NotAListWarning])
  | Some (Listing data) => (Ok data, [])
  end.

(** The reading of a loaded list by [merge_holidays], which subscripts
    every element with ["date"] and ["name"]. *)
Fixpoint as_entries (data : list stored_item) : result (list HolidayEntry) :=
  match data with
  | [] => Ok []
  | StoredEntry h :: data' =>
      match as_entries data' with
      | Ok hs => Ok (h :: hs)
      | Raise e => Raise e
      end
  | StoredOther _ :: _ => Raise LookupError
  end.

Inductive effect : Type :=
| HttpFetch (calendar_id : string)   (* [fetch_holidays_from_gcal] called *)
| FsRemove (country_code : string)   (* [os.remove] *)
| FsWrite (country_code : string).   (* [open(file_path, "w")] *)

(** What [open(file_path, "w")] followed by [json.dump] comes to. The
    file is truncated when it is opened, and [json.dump] writes the text
    piece by piece: when a piece cannot be encoded (a name with a lone
    surrogate, which [json.load] accepts and UTF-8 refuses), the pieces
    before it stay in the file, a beginning of the text that is not a
    JSON document. *)
Inductive write : Type :=
| Written               (* the whole text is in the file *)
| Torn (e : exn)        (* [json.dump] raises [e] midway *)
| Refused (e : exn).    (* [open] raises [e]: the file is not touched *)

(** The world of a run: the files, the effects so far, and how the
    writing of given holidays to the file of a country goes. Strings are
    held here with codes below 256, which UTF-8 always encodes; whether a
    write goes through is therefore a given of the world and not read
    off the strings. *)
Record world : Type := World {
  disk : gmap string content;
  trace : list effect;
  dump : string → list HolidayEntry → write
}.

(** A world in which every write goes through. *)
Definition mkWorld (d : gmap string content) (t : list effect) : world :=
  World d t (λ _ _, Written).

Definition path_exists (country_code : string) (w : world) : bool :=
  bool_decide (is_Some (disk w !! country_code)).

Definition os_remove (country_code : string) (w : world) : world :=
  World (delete country_code (disk w)) (trace w ++ [FsRemove country_code])
        (dump w).

Definition save_holidays_to_json (country_code : string)
    (holidays : list HolidayEntry) (w : world) : result () * world :=
  match dump w country_code holidays with
  | Written =>
      (Ok (),
       World (<[country_code := Listing (StoredEntry <$> holidays)]> (disk w))
             (trace w ++ [FsWrite country_code]) (dump w))
  | Torn e =>
      (Raise e,
       World (<[country_code := Unparsable]> (disk w))
             (trace w ++ [FsWrite country_code]) (dump w))
  | Refused e => (Raise e, w)
  end.

(** ** [CALENDAR_MAPPING] *)

Record CalendarInfo : Type := mkInfo { calendar_id : string; lang : string }.

Definition CALENDAR_MAPPING : list (string * CalendarInfo) := [
    ("JP", mkInfo "ja.japanese.official#holiday@group.v.calendar.google.com" "ja");
    ("US", mkInfo "en.usa.official#holiday@group.v.calendar.google.com" "en");
    ("GB", mkInfo "en.uk.official#holiday@group.v.calendar.google.com" "en");
    ("UK", mkInfo "en.uk.official#holiday@group.v.calendar.google.com" "en");
    ("KR", mkInfo "en.south_korea.official#holiday@group.v.calendar.google.com" "en");
    ("CA", mkInfo "en.canadian.official#holiday@group.v.calendar.google.com" "en");
    ("AU", mkInfo "en.australian.official#holiday@group.v.calendar.google.com" "en");
    ("NZ", mkInfo "en.new_zealand.official#holiday@group.v.calendar.google.com" "en");
    ("DE", mkInfo "en.german.official#holiday@group.v.calendar.google.com" "en");
    ("FR", mkInfo "en.french.official#holiday@group.v.calendar.google.com" "en");
    ("IT", mkInfo "en.italian.official#holiday@group.v.calendar.google.com" "en");
    ("ES", mkInfo "en.spain.official#holiday@group.v.calendar.google.com" "en");
    ("BR", mkInfo "en.brazilian.official#holiday@group.v.calendar.google.com" "en");
    ("MX", mkInfo "en.mexican.official#holiday@group.v.calendar.google.com" "en");
    ("IN", mkInfo "en.indian.official#holiday@group.v.calendar.google.com" "en");
    ("CN", mkInfo "en.china.official#holiday@group.v.calendar.google.com" "en");
    ("HK", mkInfo "en.hong_kong.official#holiday@group.v.calendar.google.com" "en");
    ("SG", mkInfo "en.singapore.official#holiday@group.v.calendar.google.com" "en");
    ("MY", mkInfo "en.malaysia.official#holiday@group.v.calendar.google.com" "en");
    ("TH", mkInfo "en.thai.official#holiday@group.v.calendar.google.com" "en");
    ("VN", mkInfo "en.vietnamese.official#holiday@group.v.calendar.google.com" "en");
    ("PH", mkInfo "en.philippines.official#holiday@group.v.calendar.google.com" "en");
    ("ID", mkInfo "en.indonesian.official#holiday@group.v.calendar.google.com" "en");
    ("TR", mkInfo "en.turkish.official#holiday@group.v.calendar.google.com" "en");
    ("SA", mkInfo "en.sa.official#holiday@group.v.calendar.google.com" "en");
    ("AE", mkInfo "en.ae.official#holiday@group.v.calendar.google.com" "en");
    ("IL", mkInfo "en.jewish.official#holiday@group.v.calendar.google.com" "en");
    ("ZA", mkInfo "en.sa.official#holiday@group.v.calendar.google.com" "en");
    ("RU", mkInfo "en.russian.official#holiday@group.v.calendar.google.com" "en");
    ("PL", mkInfo "en.polish.official#holiday@group.v.calendar.google.com" "en");
    ("NL", mkInfo "en.dutch.official#holiday@group.v.calendar.google.com" "en");
    ("BE", mkInfo "en.be.official#holiday@group.v.calendar.google.com" "en");
    ("AT", mkInfo "en.austrian.official#holiday@group.v.calendar.google.com" "en");
    ("CH", mkInfo "en.ch.official#holiday@group.v.calendar.google.com" "en");
    ("SE", mkInfo "en.swedish.official#holiday@group.v.calendar.google.com" "en");
    ("NO", mkInfo "en.norwegian.official#holiday@group.v.calendar.google.com" "en");
    ("DK", mkInfo "en.danish.official#holiday@group.v.calendar.google.com" "en");
    ("FI", mkInfo "en.finnish.official#holiday@group.v.calendar.google.com" "en");
    ("PT", mkInfo "en.portuguese.official#holiday@group.v.calendar.google.com" "en");
    ("GR", mkInfo "en.greek.official#holiday@group.v.calendar.google.com" "en");
    ("IE", mkInfo "en.irish.official#holiday@group.v.calendar.google.com" "en");
    ("CZ", mkInfo "en.czech.official#holiday@group.v.calendar.google.com" "en");
    ("HU", mkInfo "en.hungarian.official#holiday@group.v.calendar.google.com" "en");
    ("RO", mkInfo "en.romanian.official#holiday@group.v.calendar.google.com" "en");
    ("BG", mkInfo "en.bulgarian.official#holiday@group.v.calendar.google.com" "en");
    ("HR", mkInfo "en.croatian.official#holiday@group.v.calendar.google.com" "en");
    ("RS", mkInfo "en.rs.official#holiday@group.v.calendar.google.com" "en");
    ("SI", mkInfo "en.slovenian.official#holiday@group.v.calendar.google.com" "en");
    ("SK", mkInfo "en.slovak.official#holiday@group.v.calendar.google.com" "en");
    ("LT", mkInfo "en.lithuanian.official#holiday@group.v.calendar.google.com" "en");
    ("LV", mkInfo "en.latvian.official#holiday@group.v.calendar.google.com" "en");
    ("EE", mkInfo "en.ee.official#holiday@group.v.calendar.google.com" "en");
    ("UA", mkInfo "en.ukrainian.official#holiday@group.v.calendar.google.com" "en");
    ("BY", mkInfo "en.by.official#holiday@group.v.calendar.google.com" "en");
    ("AR", mkInfo "en.ar.official#holiday@group.v.calendar.google.com" "en");
    ("CL", mkInfo "en.cl.official#holiday@group.v.calendar.google.com" "en");
    ("CO", mkInfo "en.co.official#holiday@group.v.calendar.google.com" "en");
    ("PE", mkInfo "en.pe.official#holiday@group.v.calendar.google.com" "en");
    ("VE", mkInfo "en.ve.official#holiday@group.v.calendar.google.com" "en");
    ("CR", mkInfo "en.cr.official#holiday@group.v.calendar.google.com" "en");
    ("AO", mkInfo "en.ao.official#holiday@group.v.calendar.google.com" "en");
    ("AW", mkInfo "en.aw.official#holiday@group.v.calendar.google.com" "en");
    ("BD", mkInfo "en.bd.official#holiday@group.v.calendar.google.com" "en");
    ("BI", mkInfo "en.bi.official#holiday@group.v.calendar.google.com" "en");
    ("BW", mkInfo "en.bw.official#holiday@group.v.calendar.google.com" "en");
    ("CW", mkInfo "en.cw.official#holiday@group.v.calendar.google.com" "en");
    ("DJ", mkInfo "en.dj.official#holiday@group.v.calendar.google.com" "en");
    ("DO", mkInfo "en.do.official#holiday@group.v.calendar.google.com" "en");
    ("EG", mkInfo "en.eg.official#holiday@group.v.calendar.google.com" "en");
    ("GE", mkInfo "en.ge.official#holiday@group.v.calendar.google.com" "en");
    ("HN", mkInfo "en.hn.official#holiday@group.v.calendar.google.com" "en");
    ("IS", mkInfo "en.is.official#holiday@group.v.calendar.google.com" "en");
    ("JM", mkInfo "en.jm.official#holiday@group.v.calendar.google.com" "en");
    ("KE", mkInfo "en.ke.official#holiday@group.v.calendar.google.com" "en");
    ("LU", mkInfo "en.lu.official#holiday@group.v.calendar.google.com" "en");
    ("MA", mkInfo "en.ma.official#holiday@group.v.calendar.google.com" "en");
    ("MW", mkInfo "en.mw.official#holiday@group.v.calendar.google.com" "en");
    ("MZ", mkInfo "en.mz.official#holiday@group.v.calendar.google.com" "en");
    ("NG", mkInfo "en.ng.official#holiday@group.v.calendar.google.com" "en");
    ("NI", mkInfo "en.ni.official#holiday@group.v.calendar.google.com" "en");
    ("PY", mkInfo "en.py.official#holiday@group.v.calendar.google.com" "en");
    ("YV", mkInfo "en.ve.official#holiday@group.v.calendar.google.com" "en")
  ].

(** ** [update_country_holidays]

    [api] gives, for a calendar id, the answers of the source to the
    requests of one fetch. The file of a country is addressed by its
    code. *)

(** The end of the [try] block: [save_holidays_to_json] and
    [return True], or the [except Exception] clause. *)
Definition save_and_return (country_code : string)
    (final_holidays : list HolidayEntry) (w : world) : result bool * world :=
  match save_holidays_to_json country_code final_holidays w with
  | (Ok _, w') => (Ok true, w')
  | (Raise _, w') => (Ok false, w')                       (* except Exception *)
  end.

Definition update_country_holidays (api : string → list response)
    (country_code : string) (start_year end_year : Z) (recreate : bool)
    (w : world) : result bool * world :=
  match PyDict.getitem country_code CALENDAR_MAPPING with
  | None => (Ok false, w)
  | Some calendar_info =>
      if recreate && path_exists country_code w then (Raise FileExistsError, w)
      else
        let w1 := World (disk w) (trace w ++ [HttpFetch (calendar_id calendar_info)])
                    (dump w) in
        match fetch_holidays_from_gcal (api (calendar_id calendar_info))
                start_year end_year with
        | Raise _ => (Ok false, w1)                       (* except Exception *)
        | Ok [] => (Ok true, w1)                          (* no holidays found *)
        | Ok new_holidays =>
            if recreate then save_and_return country_code new_holidays w1
            else
              match (load_existing_holidays (disk w1 !! country_code)).1
                      ≫= as_entries with
              | Raise _ => (Ok false, w1)                 (* except Exception *)
              | Ok existing_holidays =>
                  let final_holidays :=
                    merge_holidays existing_holidays new_holidays in
                  save_and_return country_code final_holidays w1
              end
        end
  end.

(** ** The loop of [main] *)

Record Args : Type := mkArgs {
  arg_start_year : Z;
  arg_end_year : Z;
  arg_recreate : bool;
  arg_force : bool
}.

Record counters : Type := mkCounters {
  success_count : nat;
  error_count : nat
}.

(** The body of [for country_code in country_codes]. *)
Definition process_country (api : string → list response) (args : Args)
    (st : world * counters) (country_code : string) : world * counters :=
  let w := st.1 in
  let w0 :=
    if arg_recreate args && arg_force args then
      if path_exists country_code w then os_remove country_code w else w
    else w in
  match update_country_holidays api country_code (arg_start_year args)
          (arg_end_year args) (arg_recreate args) w0 with
  | (Ok true, w1) =>
      (w1, mkCounters (S (success_count st.2)) (error_count st.2))
  | (Ok false, w1) =>
      (w1, mkCounters (success_count st.2) (S (error_count st.2)))
  | (Raise _, w1) =>
      (w1, mkCounters (success_count st.2) (S (error_count st.2)))
  end.

Definition run_countries (api : string → list response) (args : Args)
    (country_codes : list string) (w : world) : world * counters :=
  foldl (process_country api args) (w, mkCounters 0 0) country_codes.

(** [w'] continues the trace of [w] with effects that all satisfy [Q]. *)
Definition extends_by (Q : effect → Prop) (w w' : world) : Prop :=
  ∃ t, trace w' = trace w ++ t ∧ Forall Q t.

(** The effect neither writes nor removes the file of [country_code]. *)
Definition spares (country_code : string) (e : effect) : Prop :=
  e ≠ FsWrite country_code ∧ e ≠ FsRemove country_code.

(** ** [test_update_holidays.py]: the snapshot comparison *)

(** [f"{holiday['date']}:{holiday['name']}"] *)
Definition create_holiday_key (holiday : HolidayEntry) : string :=
  date holiday +:+ ":" +:+ name holiday.

(** The messages appended to [errors], by kind and content. *)
Inductive error : Type :=
| CountryMissing (country_code : string)
| EntryDeleted (country_code : string) (key : string)
| EntryModified (country_code : string) (before after : HolidayEntry).

Definition is_deleted (e : error) : bool :=
  match e with
  | EntryDeleted _ _ => true
  | _ => false
  end.

Record Stats : Type := mkStats {
  countries_checked : nat;
  total_entries_before : nat;
  total_entries_after : nat;
  unchanged_entries : nat;
  new_entries : nat;
  modified_entries : nat;
  deleted_entries : nat
}.

Record Report : Type := mkReport {
  passed : bool;
  errors : list error;
  stats : Stats
}.

Definition holiday_keys (holidays : list HolidayEntry) : gset string :=
  list_to_set (create_holiday_key <$> holidays).

(** The search [for after_holiday in after_holidays: ... break]. *)
Definition after_match (key : string) (after_holidays : list HolidayEntry)
  : option HolidayEntry :=
  snd <$> list_find (λ after_holiday, create_holiday_key after_holiday = key)
            after_holidays.

(** One turn of [for before_holiday in before_holidays]. *)
Definition check_entry (country_code : string)
    (after_holidays : list HolidayEntry) (acc : list error * Stats)
    (before_holiday : HolidayEntry) : list error * Stats :=
  let '(errs, st) := acc in
  match after_match (create_holiday_key before_holiday) after_holidays with
  | None => (errs, st)
  | Some a =>
      if decide (before_holiday = a) then
        (errs,
         mkStats (countries_checked st) (total_entries_before st)
           (total_entries_after st) (S (unchanged_entries st)) (new_entries st)
           (modified_entries st) (deleted_entries st))
      else
        (errs ++ [EntryModified country_code before_holiday a],
         mkStats (countries_checked st) (total_entries_before st)
           (total_entries_after st) (unchanged_entries st) (new_entries st)
           (S (modified_entries st)) (deleted_entries st))
  end.

(** One turn of [for country_code, before_holidays in before.items()].
    A Python set is walked in an order the language leaves open; the
    deleted keys are taken here in the order of [elements]. *)
Definition check_country (after : list (string * list HolidayEntry))
    (acc : list error * Stats) (item : string * list HolidayEntry)
  : list error * Stats :=
  let '(errs, st) := acc in
  let '(country_code, before_holidays) := item in
  let st1 :=
    mkStats (S (countries_checked st))
      (total_entries_before st + length before_holidays)
      (total_entries_after st) (unchanged_entries st) (new_entries st)
      (modified_entries st) (deleted_entries st) in
  match PyDict.getitem country_code after with
  | None => (errs ++ [CountryMissing country_code], st1)
  | Some after_holidays =>
      let before_keys := holiday_keys before_holidays in
      let after_keys := holiday_keys after_holidays in
      let deleted := before_keys ∖ after_keys in
      let st2 :=
        mkStats (countries_checked st1) (total_entries_before st1)
          (total_entries_after st1 + length after_holidays)
          (unchanged_entries st1) (new_entries st1) (modified_entries st1)
          (deleted_entries st1 + size deleted) in
      let errs2 := errs ++ (EntryDeleted country_code <$> elements deleted) in
      let '(errs3, st3) :=
        foldl (check_entry country_code after_holidays) (errs2, st2)
          before_holidays in
      (errs3,
       mkStats (countries_checked st3) (total_entries_before st3)
         (total_entries_after st3) (unchanged_entries st3)
         (new_entries st3 + size (after_keys ∖ before_keys))
         (modified_entries st3) (deleted_entries st3))
  end.

Definition compare_snapshots (before after : list (string * list HolidayEntry))
  : Report :=
  let '(errs, st) :=
    foldl (check_country after) ([], mkStats 0 0 0 0 0 0 0) before in
  mkReport (bool_decide (length errs = 0%nat)) errs st.

(** The kind of an error message, for counting. *)
Definition is_modified (e : error) : bool :=
  match e with
  | EntryModified _ _ _ => true
  | _ => false
  end.

(** The counters and the list of errors move together. *)
Definition in_step (acc acc' : list error * Stats) : Prop :=
  (deleted_entries acc'.2 + length (filter is_deleted acc.1)
   = deleted_entries acc.2 + length (filter is_deleted acc'.1))%nat
  ∧ (modified_entries acc'.2 + length (filter is_modified acc.1)
     = modified_entries acc.2 + length (filter is_modified acc'.1))%nat.

(** ** [get_country_codes_from_json_dir] and the whole of [main] *)

Definition in_span (a b : Z) (c : ascii) : bool :=
  bool_decide (a ≤ Z.of_nat (nat_of_ascii c) ≤ b).

(** The lower-case and the upper-case characters below 256. *)
Definition is_lower (c : ascii) : bool :=
  in_span 97 122 c || in_span 170 170 c || in_span 181 181 c
  || in_span 186 186 c || in_span 223 246 c || in_span 248 255 c.

Definition is_upper (c : ascii) : bool :=
  in_span 65 90 c || in_span 192 214 c || in_span 216 222 c.

(** [s.isupper()]: no lower-case character, and an upper-case one. *)
Definition str_isupper (s : string) : bool :=
  forallb (λ c, negb (is_lower c)) (list_ascii_of_string s)
  && existsb is_upper (list_ascii_of_string s).

Definition is_dot (c : ascii) : bool := Ascii.eqb c ".".

(** [p.rfind(".")] *)
Fixpoint rfind_dot (cs : list ascii) : option nat :=
  match cs with
  | [] => None
  | c :: cs' =>
      match rfind_dot cs' with
      | Some i => Some (S i)
      | None => if is_dot c then Some 0%nat else None
      end
  end.

Definition is_sep (c : ascii) : bool := Ascii.eqb c "/".

Definition has_sep (p : string) : bool :=
  existsb is_sep (list_ascii_of_string p).

(** [os.path.basename(p)]: what follows the last separator of [p]. *)
Fixpoint os_path_basename (p : string) : string :=
  match p with
  | EmptyString => EmptyString
  | String c p' =>
      if has_sep p' then os_path_basename p'
      else if is_sep c then p' else p
  end.

(** [os.path.splitext(filename)[0]] for a name without directory part:
    the name is cut at its last dot, unless only dots come before it. *)
Definition splitext_root (filename : string) : string :=
  let cs := list_ascii_of_string filename in
  match rfind_dot cs with
  | Some i =>
      if forallb is_dot (take i cs) then filename
      else string_of_list_ascii (take i cs)
  | None => filename
  end.

(** [s.endswith(suffix)]: [suffix] is [s] or ends what follows the first
    character of [s]. *)
Fixpoint ends_with (suffix s : string) : bool :=
  String.eqb s suffix
  || match s with
     | EmptyString => false
     | String _ s' => ends_with suffix s'
     end.

(** The names that the pattern [*.json] matches among the names of a
    directory: those that end in [.json] and do not begin with a dot. *)
Definition glob_json (names : list string) : list string :=
  filter (λ n, negb (String.prefix "." n) && ends_with ".json" n = true) names.

(** [glob.has_magic]: the string holds one of the characters [*], [?]
    and [[], which make a pattern of it. *)
Definition has_magic (s : string) : bool :=
  existsb (λ c, Ascii.eqb c "*" || Ascii.eqb c "?" || Ascii.eqb c "[")
    (list_ascii_of_string s).

(** [os.path.join(a, b)] for a [b] that does not begin with a
    separator. *)
Definition os_path_join (a b : string) : string :=
  if String.eqb a "" || ends_with "/" a then a +:+ b
  else a +:+ "/" +:+ b.

Fixpoint drop_seps (cs : list ascii) : list ascii :=
  match cs with
  | c :: cs' => if is_sep c then drop_seps cs' else cs
  | [] => []
  end.

(** The directory part [os.path.split] takes off
    [os.path.join(json_dir, "*.json")]: [json_dir] without the separators
    at its end, unless it is made of separators only. *)
Definition glob_dirname (json_dir : string) : string :=
  let cs := list_ascii_of_string json_dir in
  if forallb is_sep cs then json_dir
  else string_of_list_ascii (reverse (drop_seps (reverse cs))).

(** [glob.glob(os.path.join(json_dir, "*.json"))], where [names] are the
    names in the directory [json_dir] (none when there is no such
    directory). The whole of the argument is the pattern: a [json_dir]
    with a pattern character in it is matched against the directories
    around, [json[2025]] against [json2] and not against itself. What is
    then found depends on those directories and is not decided here: the
    result is [None]. *)
Definition glob_glob (json_dir : string) (names : list string)
  : option (list string) :=
  if has_magic json_dir then None
  else Some (os_path_join (glob_dirname json_dir) <$> glob_json names).

(** [sorted] on strings. *)
Fixpoint insert_str (s : string) (l : list string) : list string :=
  match l with
  | [] => [s]
  | s' :: l' =>
      if String.leb s s' then s :: s' :: l' else s' :: insert_str s l'
  end.

Fixpoint py_sorted (l : list string) : list string :=
  match l with
  | [] => []
  | s :: l' => insert_str s (py_sorted l')
  end.

(** [get_country_codes_from_json_dir], from line 133 on; [json_files] is
    what the call of [glob.glob] on line 131 returned. *)
Definition get_country_codes_from_json_dir (json_files : list string)
  : list string :=
  py_sorted
    (filter (λ country_code,
               String.length country_code = 2%nat
               ∧ str_isupper country_code = true)
       ((λ file_path, splitext_root (os_path_basename file_path))
          <$> json_files)).

(** The names in the directory of a world: the file of key [k] is
    [k.json], and a key with a separator in it names a file further
    down, not in the directory itself. [glob] lists the names in no
    particular order. *)
Definition directory_names (w : world) : list string :=
  (λ k, k +:+ ".json")
    <$> filter (λ k, has_sep k = false) (elements (dom (disk w))).

Inductive exit_status : Type :=
| ExitSuccess
| ExitFailure.    (* [sys.exit(1)] *)

(** [main], run on an existing directory whose path has no pattern
    character: the checks of the arguments, the list of countries, the
    loop, the exit status. The paths that [glob.glob] finds are given
    relative to that directory, which leaves their base names as they
    are. *)
Definition main (api_key : option string) (api : string → list response)
    (args : Args) (w : world) : exit_status * world :=
  if negb (truthy_opt api_key) then (ExitFailure, w)
  else if bool_decide (arg_end_year args < arg_start_year args) then
    (ExitFailure, w)
  else
    match get_country_codes_from_json_dir (glob_json (directory_names w)) with
    | [] => (ExitFailure, w)
    | country_codes =>
        let out := run_countries api args country_codes w in
        (if bool_decide (0 < error_count out.2)%nat then ExitFailure
         else ExitSuccess,
         out.1)
    end.

(** ** [parse_countries_arg] of [holidays_gcal_fetch.py] *)

(** Characters that [str.strip()] removes. *)
Definition is_strip_space (c : ascii) : bool :=
  in_span 9 13 c || in_span 28 32 c || in_span 133 133 c || in_span 160 160 c.

Fixpoint lstrip_str (cs : list ascii) : list ascii :=
  match cs with
  | c :: cs' => if is_strip_space c then lstrip_str cs' else cs
  | [] => []
  end.

(** [x.strip()] *)
Definition str_strip (cs : list ascii) : list ascii :=
  reverse (lstrip_str (reverse (lstrip_str cs))).

(** [arg.split(",")] on the characters of [arg]. *)
Fixpoint split_commas (cs : list ascii) : list (list ascii) :=
  match cs with
  | [] => [[]]
  | c :: cs' =>
      if Ascii.eqb c "," then [] :: split_commas cs'
      else
        match split_commas cs' with
        | field :: fields => (c :: field) :: fields
        | [] => [[c]]
        end
  end.

(** [[x.strip() for x in arg.split(",") if x.strip()]] *)
Definition parse_countries_arg (arg : string) : list string :=
  string_of_list_ascii
    <$> filter (λ x, x ≠ []) (str_strip <$> split_commas (list_ascii_of_string arg)).

(** The errors that one entry and one country add to [errors], read off
    [check_entry] and [check_country]. *)
Definition entry_errors (country_code : string)
    (after_holidays : list HolidayEntry) (before_holiday : HolidayEntry)
  : list error :=
  match after_match (create_holiday_key before_holiday) after_holidays with
  | None => []
  | Some a =>
      if decide (before_holiday = a) then []
      else [EntryModified country_code before_holiday a]
  end.

Definition country_errors (after : list (string * list HolidayEntry))
    (item : string * list HolidayEntry) : list error :=
  match PyDict.getitem item.1 after with
  | None => [CountryMissing item.1]
  | Some after_holidays =>
      (EntryDeleted item.1
         <$> elements (holiday_keys item.2 ∖ holiday_keys after_holidays))
      ++ (item.2 ≫= entry_errors item.1 after_holidays)
  end.

(** * Part II: properties *)

Local Open Scope string_scope.
Local Open Scope list_scope.
Local Open Scope Z_scope.

(** ** The sort *)

Section sort_facts.

Lemma string_leb_refl s : String.leb s s = true.
Proof. destruct (String.leb_total s s); assumption. Qed.

Lemma insert_by_date_perm h l : insert_by_date h l ≡ₚ h :: l.
Proof.
  induction l as [|h' l IH]; simpl; [done|].
  destruct (String.leb (date h) (date h')); [done|].
  rewrite IH. apply Permutation_swap.
Qed.

Lemma sort_by_date_perm l : sort_by_date l ≡ₚ l.
Proof.
  induction l as [|h l IH]; simpl; [done|].
  by rewrite insert_by_date_perm, IH.
Qed.

Lemma insert_by_date_sorted h l :
  Sorted date_le l → Sorted date_le (insert_by_date h l).
Proof.
  induction 1 as [|h' l Hs IH Hhd]; simpl.
  - repeat constructor.
  - destruct (String.leb (date h) (date h')) eqn:Hle.
    + constructor; [by constructor|]. by constructor.
    + constructor; [done|].
      assert (date_le h' h) as Hh'.
      { destruct (String.leb_total (date h) (date h')); [congruence|done]. }
      destruct Hhd as [|h'' l' Hh'']; simpl.
      * by constructor.
      * destruct (String.leb (date h) (date h'')); by constructor.
Qed.

(** Sort invariant: the output is non-decreasing by date. *)
Lemma sort_by_date_sorted l : Sorted date_le (sort_by_date l).
Proof.
  induction l as [|h l IH]; simpl; [constructor|].
  by apply insert_by_date_sorted.
Qed.

(** Sorting a list that is already in order changes nothing. *)
Lemma sort_by_date_id l : Sorted date_le l → sort_by_date l = l.
Proof.
  induction 1 as [|h l Hs IH Hhd]; simpl; [done|].
  rewrite IH. destruct Hhd as [|h' l' Hle]; simpl; [done|].
  unfold date_le in Hle. by rewrite Hle.
Qed.

(** Stability: entries of one date keep their relative order. Together
    with the two facts above this fixes the output of the sort. *)
Lemma insert_by_date_filter d h l :
  filter (λ x, date x = d) (insert_by_date h l)
  = filter (λ x, date x = d) (h :: l).
Proof.
  induction l as [|h' l IH]; simpl; [done|].
  destruct (String.leb (date h) (date h')) eqn:Hle; [done|].
  rewrite filter_cons, IH, !filter_cons.
  destruct (decide (date h = d)) as [Hd|]; [|done].
  destruct (decide (date h' = d)) as [Hd'|]; [|done].
  rewrite Hd, Hd', string_leb_refl in Hle. discriminate.
Qed.

Lemma sort_by_date_stable d l :
  filter (λ x, date x = d) (sort_by_date l) = filter (λ x, date x = d) l.
Proof.
  induction l as [|h l IH]; simpl; [done|].
  by rewrite insert_by_date_filter, !filter_cons, IH.
Qed.

End sort_facts.

(** ** The merge engine *)

Lemma key_of_inj h1 h2 : key_of h1 = key_of h2 → h1 = h2.
Proof. destruct h1, h2; unfold key_of; simpl; congruence. Qed.

Section merge_facts.
Implicit Types (merged existing new_holidays : list HolidayEntry).
Implicit Types (keys : gset (string * string)).

Lemma merge_step_agree st h : keys_agree st → keys_agree (merge_step st h).
Proof.
  unfold keys_agree, merge_step. intros Hst.
  destruct (decide _); simpl; [done|].
  rewrite fmap_app, list_to_set_app_L, <- Hst.
  change (key_of <$> [h]) with [key_of h].
  by rewrite list_to_set_singleton_L.
Qed.

Lemma merge_fold_agree new_holidays st :
  keys_agree st → keys_agree (foldl merge_step st new_holidays).
Proof.
  revert st. induction new_holidays as [|h l IH]; intros st Hst; simpl; [done|].
  by apply IH, merge_step_agree.
Qed.

(** Nothing is ever taken out of [merged]: the loop only appends. *)
Lemma merge_step_prefix st h : st.1 `prefix_of` (merge_step st h).1.
Proof.
  unfold merge_step. destruct (decide _); simpl; [done|].
  by apply prefix_app_r.
Qed.

Lemma merge_fold_prefix new_holidays st :
  st.1 `prefix_of` (foldl merge_step st new_holidays).1.
Proof.
  revert st. induction new_holidays as [|h l IH]; intros st; simpl; [done|].
  etrans; [apply merge_step_prefix | apply IH].
Qed.

Lemma merge_step_keys_mono st h : st.2 ⊆ (merge_step st h).2.
Proof. unfold merge_step. destruct (decide _); simpl; set_solver. Qed.

Lemma merge_fold_keys_mono new_holidays st :
  st.2 ⊆ (foldl merge_step st new_holidays).2.
Proof.
  revert st. induction new_holidays as [|h l IH]; intros st; simpl; [done|].
  etrans; [apply merge_step_keys_mono | apply IH].
Qed.

(** After the loop every incoming key is in [existing_keys]. *)
Lemma merge_fold_covers new_holidays st h :
  h ∈ new_holidays → key_of h ∈ (foldl merge_step st new_holidays).2.
Proof.
  revert st. induction new_holidays as [|h' l IH]; intros st Hin; simpl.
  - by apply elem_of_nil in Hin.
  - apply elem_of_cons in Hin as [->|Hin]; [|by apply IH].
    apply merge_fold_keys_mono. unfold merge_step, key_of.
    destruct (decide _); simpl; set_solver.
Qed.

(** When every incoming key is known already, the loop is idle. *)
Lemma merge_fold_idle new_holidays st :
  (∀ h, h ∈ new_holidays → key_of h ∈ st.2) →
  foldl merge_step st new_holidays = st.
Proof.
  induction new_holidays as [|h l IH]; intros Hall; simpl; [done|].
  assert (merge_step st h = st) as ->.
  { unfold merge_step. destruct (decide _) as [|Hn]; [done|].
    destruct Hn. apply (Hall h). by left. }
  apply IH. intros h' Hh'. apply Hall. by right.
Qed.

Lemma merge_step_NoDup st h :
  keys_agree st → NoDup (key_of <$> st.1) →
  NoDup (key_of <$> (merge_step st h).1).
Proof.
  unfold keys_agree, merge_step. intros Hst Hnd.
  destruct (decide _) as [|Hn]; simpl; [done|].
  rewrite fmap_app. apply NoDup_app. split_and!; [done| |apply NoDup_singleton].
  intros k Hk Hk'. apply list_elem_of_singleton in Hk' as ->.
  apply Hn. rewrite Hst. by apply elem_of_list_to_set.
Qed.

Lemma merge_fold_NoDup new_holidays st :
  keys_agree st → NoDup (key_of <$> st.1) →
  NoDup (key_of <$> (foldl merge_step st new_holidays).1).
Proof.
  revert st. induction new_holidays as [|h l IH]; intros st Hst Hnd; simpl; [done|].
  apply IH; [by apply merge_step_agree | by apply merge_step_NoDup].
Qed.

Lemma merge_loop_agree existing new_holidays :
  keys_agree (merge_loop existing new_holidays).
Proof. apply merge_fold_agree. reflexivity. Qed.

(** The output is the input list followed by the appended entries, put
    in order. *)
Lemma merge_holidays_perm existing new_holidays :
  ∃ added, merge_holidays existing new_holidays ≡ₚ existing ++ added.
Proof.
  destruct (merge_fold_prefix new_holidays
              (existing, list_to_set (key_of <$> existing))) as [added Heq].
  exists added. unfold merge_holidays, merge_loop.
  rewrite sort_by_date_perm. by rewrite Heq.
Qed.

(** Sort invariant: the output of the merge is non-decreasing by date. *)
Lemma merge_holidays_sorted existing new_holidays :
  Sorted date_le (merge_holidays existing new_holidays).
Proof. apply sort_by_date_sorted. Qed.

End merge_facts.

(** C1. Non-destructive merge: every entry of [existing] is an entry of
    [merge_holidays existing new_holidays], with the same [date] and
    [name], and as many times as in [existing] at least. *)
Theorem merge_holidays_keeps_existing
    (existing new_holidays : list HolidayEntry) (e : HolidayEntry) :
  e ∈ existing →
  e ∈ merge_holidays existing new_holidays
  ∧ (length (filter (λ x, x = e) existing)
     ≤ length (filter (λ x, x = e) (merge_holidays existing new_holidays)))%nat.
Proof.
  intros He. destruct (merge_holidays_perm existing new_holidays) as [added Hp].
  split.
  - rewrite Hp. apply elem_of_app. by left.
  - rewrite Hp, filter_app, length_app. lia.
Qed.

Lemma merge_holidays_keeps_existing_witness :
  let existing := [mkHoliday "2025-01-01" "New Year"] in
  let incoming := [mkHoliday "2025-01-01" "New Year";
                   mkHoliday "2025-02-11" "Foundation Day"] in
  merge_holidays existing incoming
  = [mkHoliday "2025-01-01" "New Year"; mkHoliday "2025-02-11" "Foundation Day"]
  ∧ mkHoliday "2025-01-01" "New Year" ∈ merge_holidays existing incoming.
Proof.
  split; [vm_compute; reflexivity|].
  apply (merge_holidays_keeps_existing
           [mkHoliday "2025-01-01" "New Year"] _ (mkHoliday "2025-01-01" "New Year")).
  apply list_elem_of_here.
Defined.

(** C3. Idempotence: merging the same incoming list into the result of a
    merge gives that result again. *)
Theorem merge_holidays_idempotent (existing new_holidays : list HolidayEntry) :
  merge_holidays (merge_holidays existing new_holidays) new_holidays
  = merge_holidays existing new_holidays.
Proof.
  unfold merge_holidays at 1. unfold merge_loop.
  rewrite merge_fold_idle; simpl.
  - apply sort_by_date_id, sort_by_date_sorted.
  - intros h Hh. unfold merge_holidays.
    rewrite (sort_by_date_perm (merge_loop existing new_holidays).1).
    rewrite <- (merge_loop_agree existing new_holidays).
    by apply merge_fold_covers.
Qed.

(** C9. Uniqueness is preserved: when the [(date, name)] pairs of
    [existing] are pairwise distinct, so are those of the merge. *)
Theorem merge_holidays_unique_keys (existing new_holidays : list HolidayEntry) :
  NoDup (key_of <$> existing) →
  NoDup (key_of <$> merge_holidays existing new_holidays).
Proof.
  intros Hnd. unfold merge_holidays.
  rewrite sort_by_date_perm. by apply merge_fold_NoDup.
Qed.

Lemma merge_holidays_unique_keys_witness :
  NoDup (key_of <$> merge_holidays
           [mkHoliday "2025-01-01" "New Year"; mkHoliday "2025-01-01" "Ganjitsu"]
           [mkHoliday "2025-01-01" "New Year"; mkHoliday "2025-02-11" "Foundation Day";
            mkHoliday "2025-02-11" "Foundation Day"]).
Proof.
  apply merge_holidays_unique_keys.
  apply (bool_decide_unpack _). vm_compute. exact I.
Defined.

(** ** Insertion-ordered dictionaries *)

Section dict_facts.
Context {K V : Type} `{EqDecision K}.
Implicit Types (d : list (K * V)).

Lemma getitem_setitem k k' v d :
  PyDict.getitem k (PyDict.setitem k' v d)
  = if decide (k = k') then Some v else PyDict.getitem k d.
Proof.
  induction d as [|[k0 v0] d IH]; simpl.
  - by destruct (decide (k = k')).
  - destruct (decide (k' = k0)) as [->|Hne]; simpl.
    + by destruct (decide (k = k0)).
    + rewrite IH. destruct (decide (k = k0)) as [->|]; [|done].
      by rewrite decide_False.
Qed.

Lemma setitem_keys k k' v d :
  k ∈ (PyDict.setitem k' v d).*1 ↔ k = k' ∨ k ∈ d.*1.
Proof.
  induction d as [|[k0 v0] d IH]; simpl.
  - rewrite list_elem_of_singleton, elem_of_nil. tauto.
  - destruct (decide (k' = k0)) as [->|Hne]; simpl.
    + rewrite !elem_of_cons. tauto.
    + rewrite !elem_of_cons, IH. tauto.
Qed.

Lemma setitem_NoDup k v d : NoDup d.*1 → NoDup (PyDict.setitem k v d).*1.
Proof.
  induction d as [|[k0 v0] d IH]; simpl; intros Hnd.
  - apply NoDup_singleton.
  - apply NoDup_cons in Hnd as [Hk0 Hnd].
    destruct (decide (k = k0)) as [->|Hne]; simpl.
    + by apply NoDup_cons.
    + apply NoDup_cons. split; [|by apply IH].
      rewrite setitem_keys. intros [?|?]; [congruence|done].
Qed.

Lemma getitem_Some_elem_of k v d : PyDict.getitem k d = Some v → (k, v) ∈ d.
Proof.
  induction d as [|[k0 v0] d IH]; simpl; [done|].
  destruct (decide (k = k0)) as [->|Hne].
  - intros [= ->]. by left.
  - intros Hg. right. by apply IH.
Qed.

Lemma elem_of_getitem k v d : NoDup d.*1 → (k, v) ∈ d → PyDict.getitem k d = Some v.
Proof.
  induction d as [|[k0 v0] d IH]; simpl; intros Hnd Hin.
  - by apply elem_of_nil in Hin.
  - apply NoDup_cons in Hnd as [Hk0 Hnd].
    apply elem_of_cons in Hin as [[= -> ->]|Hin].
    + by rewrite decide_True.
    + rewrite decide_False; [by apply IH|].
      intros ->. apply Hk0. apply list_elem_of_fmap. by exists (k0, v).
Qed.

Lemma getitem_None k d : PyDict.getitem k d = None ↔ k ∉ d.*1.
Proof.
  induction d as [|[k0 v0] d IH]; simpl.
  - split; [intros _; apply not_elem_of_nil | done].
  - rewrite not_elem_of_cons. destruct (decide (k = k0)) as [->|Hne].
    + split; [done | by intros [? _]].
    + rewrite IH. tauto.
Qed.

End dict_facts.

(** ** Source-level de-duplication *)

Section dedupe_facts.
Implicit Types (l : list HolidayEntry) (d : list (string * HolidayEntry)).

Let fill d l := foldl (λ d holiday, PyDict.setitem (date holiday) holiday d) d l.

Lemma fill_snoc d l x :
  fill d (l ++ [x]) = PyDict.setitem (date x) x (fill d l).
Proof. unfold fill. by rewrite foldl_app. Qed.

Lemma fill_NoDup l : NoDup (fill [] l).*1.
Proof.
  induction l as [|x l IH] using rev_ind; [apply NoDup_nil_2|].
  rewrite fill_snoc. by apply setitem_NoDup.
Qed.

(** Every value is filed under its own date. *)
Lemma fill_keyed l k h : PyDict.getitem k (fill [] l) = Some h → date h = k.
Proof.
  revert k h. induction l as [|x l IH] using rev_ind; intros k h; [done|].
  rewrite fill_snoc, getitem_setitem.
  destruct (decide (k = date x)) as [->|Hne]; [by intros [= ->] | apply IH].
Qed.

(** What the dictionary holds under a date: the last entry of the input
    with that date. *)
Lemma fill_lookup l k h :
  PyDict.getitem k (fill [] l) = Some h ↔
  date h = k ∧ ∃ l1 l2, l = l1 ++ h :: l2 ∧ Forall (λ x, date x ≠ date h) l2.
Proof.
  revert k h. induction l as [|x l IH] using rev_ind; intros k h.
  - split; [done|]. intros (_ & l1 & l2 & Hl & _). by destruct l1.
  - rewrite fill_snoc, getitem_setitem.
    destruct (decide (k = date x)) as [->|Hne].
    + split.
      * intros [= ->]. split; [done|]. exists l, []. by split.
      * intros (Hd & l1 & l2 & Hl & Hall).
        destruct l2 as [|y l2 _] using rev_ind.
        { apply app_inj_tail in Hl as [_ ->]. done. }
        rewrite app_comm_cons, app_assoc in Hl.
        apply app_inj_tail in Hl as [_ ->].
        rewrite Forall_app, Forall_singleton in Hall.
        destruct Hall as [_ Hy]. congruence.
    + rewrite IH. split.
      * intros (Hd & l1 & l2 & -> & Hall). split; [done|].
        exists l1, (l2 ++ [x]). split; [by rewrite <- app_assoc|].
        rewrite Forall_app, Forall_singleton. split; [done|congruence].
      * intros (Hd & l1 & l2 & Hl & Hall). split; [done|].
        destruct l2 as [|y l2 _] using rev_ind.
        { apply app_inj_tail in Hl as [_ ->]. congruence. }
        rewrite app_comm_cons, app_assoc in Hl.
        apply app_inj_tail in Hl as [-> ->].
        apply Forall_app in Hall as [Hall _]. by exists l1, l2.
Qed.

Lemma unique_holidays_elem_of l h :
  h ∈ unique_holidays l ↔ ∃ k, PyDict.getitem k (fill [] l) = Some h.
Proof.
  unfold unique_holidays, PyDict.values. fold (fill [] l).
  rewrite list_elem_of_fmap. split.
  - intros ([k v] & -> & Hin). exists k.
    apply elem_of_getitem; [apply fill_NoDup | done].
  - intros [k Hk]. exists (k, h). split; [done|].
    by apply getitem_Some_elem_of.
Qed.

Lemma unique_holidays_dates l :
  date <$> unique_holidays l = (fill [] l).*1.
Proof.
  unfold unique_holidays, PyDict.values. fold (fill [] l).
  rewrite <- list_fmap_compose. apply list_fmap_ext.
  intros i [k v] Hi. simpl.
  apply (fill_keyed l). apply elem_of_getitem; [apply fill_NoDup|].
  by eapply list_elem_of_lookup_2.
Qed.

Lemma unique_holidays_last l h :
  h ∈ unique_holidays l ↔
  ∃ l1 l2, l = l1 ++ h :: l2 ∧ Forall (λ x, date x ≠ date h) l2.
Proof.
  rewrite unique_holidays_elem_of. split.
  - intros [k Hk]. by apply fill_lookup in Hk as [_ Hk].
  - intros Hl. exists (date h). by apply fill_lookup.
Qed.

Lemma unique_holidays_incl l h : h ∈ unique_holidays l → h ∈ l.
Proof.
  intros (l1 & l2 & -> & _)%unique_holidays_last.
  apply elem_of_app. right. by left.
Qed.

End dedupe_facts.

(** C5. De-duplication by date, last occurrence wins: the output has one
    entry per date, its entries are exactly the entries of the input that
    no later entry of the same date follows, and of two events of one
    date only the later survives. *)
Theorem unique_holidays_last_wins (filtered_holidays : list HolidayEntry) :
  NoDup (date <$> unique_holidays filtered_holidays)
  ∧ (∀ h, h ∈ unique_holidays filtered_holidays ↔
          ∃ l1 l2, filtered_holidays = l1 ++ h :: l2
                   ∧ Forall (λ x, date x ≠ date h) l2)
  ∧ (∀ d, d ∈ date <$> filtered_holidays →
          d ∈ date <$> unique_holidays filtered_holidays)
  ∧ (∀ a b, date a = date b → unique_holidays [a; b] = [b]).
Proof.
  split_and!.
  - rewrite unique_holidays_dates. apply fill_NoDup.
  - apply unique_holidays_last.
  - intros d Hd. rewrite unique_holidays_dates.
    destruct (PyDict.getitem d
                (foldl (λ d holiday, PyDict.setitem (date holiday) holiday d) []
                   filtered_holidays)) as [h|] eqn:Hg.
    + apply getitem_Some_elem_of in Hg.
      apply list_elem_of_fmap. by exists (d, h).
    + exfalso. revert Hd Hg. clear.
      induction filtered_holidays as [|x l IH] using rev_ind; intros Hd Hg.
      * by apply elem_of_nil in Hd.
      * rewrite foldl_app in Hg. simpl in Hg. rewrite getitem_setitem in Hg.
        destruct (decide (d = date x)) as [->|Hne]; [done|].
        rewrite fmap_app in Hd. apply elem_of_app in Hd as [Hd|Hd]; [by apply IH|].
        apply list_elem_of_singleton in Hd. done.
  - intros a b Hab. unfold unique_holidays. simpl.
    by rewrite Hab, decide_True.
Qed.

Lemma unique_holidays_last_wins_witness :
  let a := mkHoliday "2025-05-05T00:00:00.000Z" "Children's Day" in
  let b := mkHoliday "2025-05-05T00:00:00.000Z" "Kodomo no Hi" in
  unique_holidays [a; b] = [b]
  ∧ b ∈ unique_holidays [a; b]
  ∧ "2025-05-05T00:00:00.000Z" ∈ date <$> unique_holidays [a; b].
Proof.
  intros a b.
  destruct (unique_holidays_last_wins [a; b]) as (_ & Hlast & Hdates & Htwo).
  split_and!.
  - apply Htwo. reflexivity.
  - apply Hlast. exists [a], []. split; [reflexivity | apply Forall_nil_2].
  - apply Hdates. apply list_elem_of_here.
Defined.

(** ** Filters that may raise *)

Section filter_facts.
Context {A : Type}.
Implicit Types (p : A → result bool) (l r : list A).

(** When the condition raises on no element, the comprehension returns,
    and returns the elements on which the condition is true. *)
Lemma py_filter_total p l :
  Forall (λ x, ∃ b, p x = Ok b) l →
  py_filter p l = Ok (filter (λ x, p x = Ok true) l).
Proof.
  induction 1 as [|x l [b Hb] _ IH]; simpl; [done|].
  rewrite Hb, IH, filter_cons.
  destruct (decide (p x = Ok true)) as [Ht|Hf]; destruct b; congruence.
Qed.

Lemma py_filter_Ok p l r :
  py_filter p l = Ok r → r = filter (λ x, p x = Ok true) l.
Proof.
  revert r. induction l as [|x l IH]; simpl; intros r.
  - by intros [= <-].
  - destruct (p x) as [b|] eqn:Hb; [|done].
    destruct (py_filter p l) as [r'|]; [|done].
    intros [= <-]. rewrite filter_cons, (IH r' eq_refl).
    destruct (decide (p x = Ok true)) as [Ht|Hf]; destruct b; congruence.
Qed.

(** An element on which the condition is false leaves no mark. *)
Lemma py_filter_drop p l1 x l2 :
  p x = Ok false → py_filter p (l1 ++ x :: l2) = py_filter p (l1 ++ l2).
Proof.
  intros Hx. induction l1 as [|y l1 IH]; simpl.
  - rewrite Hx. by destruct (py_filter p l2).
  - by rewrite IH.
Qed.

End filter_facts.

(** ** The year filter *)

Lemma truthy_true s : truthy s = true ↔ s ≠ "".
Proof.
  unfold truthy. rewrite negb_true_iff. apply String.eqb_neq.
Qed.

Lemma truthy_false s : truthy s = false ↔ s = "".
Proof.
  unfold truthy. rewrite negb_false_iff. apply String.eqb_eq.
Qed.

Lemma year_of_nonempty d Y : year_of d = Some Y → d ≠ "".
Proof. by intros Hy ->. Qed.

Lemma year_kept_year year_set d Y :
  year_of d = Some Y → year_kept year_set d = Ok (year_set Y).
Proof.
  intros Hy. unfold year_kept.
  rewrite (proj2 (truthy_true d)) by by eapply year_of_nonempty.
  by rewrite Hy.
Qed.

Lemma year_kept_empty year_set : year_kept year_set "" = Ok false.
Proof. reflexivity. Qed.

Lemma year_kept_returns year_set d :
  d = "" ∨ is_Some (year_of d) → ∃ b, year_kept year_set d = Ok b.
Proof.
  intros [->|[Y HY]]; [by exists false|].
  exists (year_set Y). by apply year_kept_year.
Qed.

Lemma year_kept_true year_set d : year_kept year_set d = Ok true → d ≠ "".
Proof. by intros Hk ->. Qed.

Lemma in_range_spec a b y : in_range a (b + 1) y = true ↔ a ≤ y ≤ b.
Proof. unfold in_range. rewrite bool_decide_eq_true. lia. Qed.

Lemma default_years_range y : y ∈ default_years ↔ 2025 ≤ y ≤ 2027.
Proof.
  unfold default_years. rewrite !elem_of_cons, elem_of_nil. lia.
Qed.

(** C6. Window filtering. When no date makes [int()] raise, the year
    filter returns, and an event whose date starts with year [Y] is
    retained if and only if [start_year <= Y <= end_year]; so the two
    bounds are inside and [end_year + 1] is outside. The same holds for
    [fetch_calendar_holidays] when its tuple of years lists the years from
    [start_year] to [end_year]. *)
Theorem year_filter_window (start_year end_year : Z) :
  (∀ holidays,
     Forall (λ h, date h = "" ∨ is_Some (year_of (date h))) holidays →
     ∃ filtered,
       filter_years start_year end_year holidays = Ok filtered
       ∧ ∀ h Y, h ∈ holidays → year_of (date h) = Some Y →
                (h ∈ filtered ↔ start_year ≤ Y ≤ end_year))
  ∧ (∀ years results,
       (∀ y, y ∈ years ↔ start_year ≤ y ≤ end_year) →
       Forall (λ r, row_date r = "" ∨ is_Some (year_of (row_date r))) results →
       ∃ kept,
         filter_rows years results = Ok kept
         ∧ ∀ r Y, r ∈ results → year_of (row_date r) = Some Y →
                  (r ∈ kept ↔ start_year ≤ Y ≤ end_year)).
Proof.
  split.
  - intros holidays Hall. eexists. split.
    + apply py_filter_total. eapply Forall_impl; [exact Hall|].
      intros h Hh. by apply year_kept_returns.
    + intros h Y Hin HY. rewrite list_elem_of_filter.
      rewrite (year_kept_year _ _ _ HY). split.
      * intros [[= Hr] _]. by apply in_range_spec.
      * intros HY'. split; [|done]. f_equal. by apply in_range_spec.
  - intros years results Hyears Hall. eexists. split.
    + apply py_filter_total. eapply Forall_impl; [exact Hall|].
      intros r Hr. by apply year_kept_returns.
    + intros r Y Hin HY. rewrite list_elem_of_filter.
      rewrite (year_kept_year _ _ _ HY). unfold in_years. split.
      * intros [[= Hr] _]. apply bool_decide_eq_true in Hr. by apply Hyears.
      * intros HY'. split; [|done]. f_equal.
        apply bool_decide_eq_true. by apply Hyears.
Qed.

Lemma year_filter_window_witness :
  let holidays := [mkHoliday "2024-12-31T00:00:00.000Z" "Omisoka";
                   mkHoliday "2025-01-01T00:00:00.000Z" "New Year";
                   mkHoliday "2027-12-31T00:00:00.000Z" "Omisoka";
                   mkHoliday "2028-01-01T00:00:00.000Z" "New Year"] in
  filter_years 2025 2027 holidays
  = Ok [mkHoliday "2025-01-01T00:00:00.000Z" "New Year";
        mkHoliday "2027-12-31T00:00:00.000Z" "Omisoka"]
  ∧ ∃ filtered,
      filter_years 2025 2027 holidays = Ok filtered
      ∧ ∀ h Y, h ∈ holidays → year_of (date h) = Some Y →
               (h ∈ filtered ↔ 2025 ≤ Y ≤ 2027).
Proof.
  intros holidays. split; [vm_compute; reflexivity|].
  apply (proj1 (year_filter_window 2025 2027) holidays).
  repeat (apply Forall_cons; split; [right; vm_compute; eauto|]).
  apply Forall_nil_2.
Defined.

(** ** Items without a date *)

Section collect_facts.
Context {A B : Type} (f : A → result (list B)).

Lemma py_collect_app l1 l2 :
  py_collect f (l1 ++ l2)
  = (a ← py_collect f l1; b ← py_collect f l2; mret (a ++ b)).
Proof.
  induction l1 as [|x l1 IH]; simpl.
  - by destruct (py_collect f l2).
  - destruct (f x) as [ys|]; simpl; [|done]. rewrite IH.
    destruct (py_collect f l1) as [a|]; simpl; [|done].
    destruct (py_collect f l2) as [b|]; simpl; [|done].
    unfold mret, result_ret. by rewrite app_assoc.
Qed.

(** An element that adds nothing and does not raise can be left out. *)
Lemma py_collect_skip l1 x l2 :
  f x = Ok [] → py_collect f (l1 ++ x :: l2) = py_collect f (l1 ++ l2).
Proof.
  intros Hx. rewrite !py_collect_app. simpl. rewrite Hx.
  destruct (py_collect f l1) as [a|]; simpl; [|done].
  by destruct (py_collect f l2).
Qed.

Lemma py_collect_Ok_elem l r y :
  py_collect f l = Ok r → y ∈ r → ∃ x ys, x ∈ l ∧ f x = Ok ys ∧ y ∈ ys.
Proof.
  revert r. induction l as [|x l IH]; intros r; simpl.
  - intros [= <-] ?%elem_of_nil. done.
  - destruct (f x) as [ys|] eqn:Hx; [|done].
    destruct (py_collect f l) as [r'|]; [|done].
    intros [= <-] [Hy|Hy]%elem_of_app.
    + exists x, ys. split_and!; [by left|done..].
    + destruct (IH r' eq_refl Hy) as (x' & ys' & ? & ? & ?).
      exists x', ys'. split_and!; [by right|done..].
Qed.

(** A loop whose body never raises is the plain concatenation. *)
Lemma py_collect_Ok l (g : A → list B) :
  Forall (λ x, f x = Ok (g x)) l → py_collect f l = Ok (l ≫= g).
Proof.
  induction 1 as [|x l Hx _ IH]; simpl; [done|]. by rewrite Hx, IH.
Qed.

Lemma py_collect_Raise l1 x l2 e r :
  py_collect f l1 = Ok r → f x = Raise e →
  py_collect f (l1 ++ x :: l2) = Raise e.
Proof.
  intros H1 Hx. rewrite py_collect_app, H1. simpl. by rewrite Hx.
Qed.

End collect_facts.

Lemma no_value_default m : no_value m = true → default "" (dict_get m) = "".
Proof. destruct m as [| |s]; simpl; [done..|]. by intros ?%String.eqb_eq. Qed.

Lemma no_value_truthy m : no_value m = true → truthy_opt (dict_get m) = false.
Proof. destruct m as [| |s]; simpl; [done..|]. unfold truthy. by intros ->. Qed.

Lemma dateless_resolve_date item :
  dateless item = true → null_start item = false → resolve_date item = Ok "".
Proof.
  unfold dateless, null_start, resolve_date.
  destruct (ev_start item) as [| |start]; simpl; [done..|].
  intros [Hd Ht]%andb_true_iff. rewrite (no_value_truthy _ Hd).
  destruct (start_dateTime start) as [| |s]; simpl in *; [done..|].
  intros _. apply String.eqb_eq in Ht as ->. done.
Qed.

(** An item without a date in which [start] or [start.dateTime] is
    [null] makes the expression raise. *)
Lemma dateless_null_raises item :
  dateless item = true → null_start item = true →
  resolve_date item
  = Raise (match ev_start item with Null => AttributeError | _ => TypeError end).
Proof.
  unfold dateless, null_start, resolve_date.
  destruct (ev_start item) as [| |start]; simpl; [done..|].
  intros [Hd _]%andb_true_iff. rewrite (no_value_truthy _ Hd).
  by destruct (start_dateTime start).
Qed.

Lemma dateless_no_holiday item :
  dateless item = true → null_start item = false →
  holiday_of_item item = Ok [].
Proof.
  intros Hitem Hnull. unfold holiday_of_item.
  by rewrite dateless_resolve_date.
Qed.

Section paging_facts.
Implicit Types (server pre post : list response).

(** Two pages whose items come to the same, entries or exception, and
    that carry the same token are interchangeable. *)
Lemma fetch_pages_same_entries pre post data1 data2 holidays :
  holidays_of_page data1 = holidays_of_page data2 →
  nextPageToken data1 = nextPageToken data2 →
  fetch_pages (pre ++ HttpOk data1 :: post) holidays
  = fetch_pages (pre ++ HttpOk data2 :: post) holidays.
Proof.
  intros Hitems Htok. revert holidays.
  induction pre as [|[|e|data] pre IH]; intros holidays; simpl.
  - by rewrite Hitems, Htok.
  - done.
  - done.
  - destruct (holidays_of_page data); [|done]. by rewrite IH.
Qed.

(** The accumulator of [fetch_rows] is a prefix of its result. *)
Lemma fetch_rows_acc cid server results :
  fetch_rows cid server results
  = rows ← fetch_rows cid server []; mret (results ++ rows).
Proof.
  revert results. induction server as [|[|e|data] server IH]; intros results;
    simpl; [done..|].
  destruct (rows_of_page cid data) as [added|]; [|done].
  destruct (truthy_opt (nextPageToken data)); [|done].
  rewrite (IH (results ++ _)), (IH added).
  destruct (fetch_rows cid server []) as [rows|]; simpl; [|done].
  unfold mret, result_ret. by rewrite <- app_assoc.
Qed.

(** One more item on a page, one that does not raise, shows as one more
    row at most. *)
Lemma fetch_rows_extra_item cid pre post items1 item items2 token results row :
  row_of_item cid item = Ok [row] →
  let with_item :=
    fetch_rows cid
      (pre ++ HttpOk (mkPage (Value (items1 ++ item :: items2)) token) :: post)
      results in
  let without :=
    fetch_rows cid
      (pre ++ HttpOk (mkPage (Value (items1 ++ items2)) token) :: post)
      results in
  with_item = without
  ∨ ∃ rows1 rows2, with_item = Ok (rows1 ++ row :: rows2)
                   ∧ without = Ok (rows1 ++ rows2).
Proof.
  intros Hrow. revert results.
  induction pre as [|[|e|data] pre IH]; intros results; simpl.
  - unfold rows_of_page. simpl. rewrite !py_collect_app. simpl. rewrite Hrow.
    destruct (py_collect (row_of_item cid) items1) as [r1|]; simpl; [|by left].
    destruct (py_collect (row_of_item cid) items2) as [r2|]; simpl; [|by left].
    destruct (truthy_opt token).
    + rewrite (fetch_rows_acc _ _ (results ++ _)).
      rewrite (fetch_rows_acc _ _ (results ++ r1 ++ r2)).
      destruct (fetch_rows cid post []) as [rows|]; simpl; [|by left].
      right. exists (results ++ r1), (r2 ++ rows).
      unfold mret, result_ret. split; f_equal.
      * by rewrite <- !app_assoc.
      * by rewrite <- !app_assoc.
    + right. exists (results ++ r1), r2.
      unfold mret, result_ret. split; f_equal; by rewrite <- !app_assoc.
  - by left.
  - by left.
  - destruct (rows_of_page cid data); [|by left].
    destruct (truthy_opt (nextPageToken data)); [apply IH | by left].
Qed.

End paging_facts.

(** C10, as the code has it. An item whose [start] is absent, or is an
    object whose [date] is absent, [null] or empty and whose [dateTime]
    is absent or empty, adds nothing to [holidays] and raises nothing;
    the outcome of either fetch, result or exception, is what it would
    be without the item; and every entry of a fetch result has a
    non-empty date. *)
Theorem dateless_item_discarded :
  (∀ item, dateless item = true → null_start item = false →
           holiday_of_item item = Ok [])
  ∧ (∀ item pre items1 items2 token post start_year end_year,
       dateless item = true → null_start item = false →
       fetch_holidays_from_gcal
         (pre ++ HttpOk (mkPage (Value (items1 ++ item :: items2)) token) :: post)
         start_year end_year
       = fetch_holidays_from_gcal
           (pre ++ HttpOk (mkPage (Value (items1 ++ items2)) token) :: post)
           start_year end_year)
  ∧ (∀ server start_year end_year holidays,
       fetch_holidays_from_gcal server start_year end_year = Ok holidays →
       Forall (λ h, date h ≠ "") holidays)
  ∧ (∀ item cid pre items1 items2 token post years,
       dateless item = true → null_start item = false →
       fetch_calendar_holidays cid
         (pre ++ HttpOk (mkPage (Value (items1 ++ item :: items2)) token) :: post) years
       = fetch_calendar_holidays cid
           (pre ++ HttpOk (mkPage (Value (items1 ++ items2)) token) :: post) years)
  ∧ (∀ cid server years rows,
       fetch_calendar_holidays cid server years = Ok rows →
       Forall (λ r, row_date r ≠ "") rows).
Proof.
  split_and!.
  - apply dateless_no_holiday.
  - intros item pre items1 items2 token post sy ey Hitem Hnull.
    unfold fetch_holidays_from_gcal.
    rewrite (fetch_pages_same_entries pre post
               (mkPage (Value (items1 ++ item :: items2)) token)
               (mkPage (Value (items1 ++ items2)) token)); [done| |done].
    unfold holidays_of_page. simpl.
    apply py_collect_skip. by apply dateless_no_holiday.
  - intros server sy ey holidays. unfold fetch_holidays_from_gcal.
    destruct (fetch_pages server []) as [hs|]; simpl; [|done].
    destruct (filter_years sy ey hs) as [fs|] eqn:Hfs; simpl; [|done].
    intros [= <-]. apply Forall_forall. intros h Hh.
    apply unique_holidays_incl in Hh.
    apply py_filter_Ok in Hfs. rewrite Hfs in Hh.
    apply list_elem_of_filter in Hh as [Hk _].
    by eapply year_kept_true.
  - intros item cid pre items1 items2 token post years Hitem Hnull.
    unfold fetch_calendar_holidays. destruct years as [|y years]; [done|].
    assert (row_of_item cid item
            = Ok [mkRow "" (default "" (ev_summary item)) cid
                    (default "" (ev_id item))]) as Hrow.
    { unfold row_of_item. by rewrite dateless_resolve_date. }
    destruct (fetch_rows_extra_item cid pre post items1 item items2 token [] _
                Hrow) as [->|(rows1 & rows2 & -> & ->)]; [done|].
    simpl. unfold filter_rows. by apply py_filter_drop.
  - intros cid server years rows. unfold fetch_calendar_holidays.
    destruct years as [|y years]; [done|].
    destruct (fetch_rows cid server []) as [rs|]; simpl; [|done].
    intros Hrows%py_filter_Ok. apply Forall_forall. intros r Hr.
    rewrite Hrows in Hr. apply list_elem_of_filter in Hr as [Hk _].
    by eapply year_kept_true.
Qed.

Lemma dateless_item_discarded_witness :
  let item := mkEvent (Some "ev1") (Some "Unknown")
                (Value (mkStart Null (Value ""))) in
  let dated := mkEvent (Some "ev2") (Some "New Year")
                 (Value (mkStart (Value "2025-01-01") Absent)) in
  dateless item = true
  ∧ null_start item = false
  ∧ holiday_of_item item = Ok []
  ∧ fetch_holidays_from_gcal [HttpOk (mkPage (Value [item; dated]) None)] 2025 2027
    = fetch_holidays_from_gcal [HttpOk (mkPage (Value [dated]) None)] 2025 2027
  ∧ fetch_holidays_from_gcal [HttpOk (mkPage (Value [item; dated]) None)] 2025 2027
    = Ok [mkHoliday "2025-01-01T00:00:00.000Z" "New Year"].
Proof.
  intros item dated. split_and!.
  - reflexivity.
  - reflexivity.
  - apply (proj1 dateless_item_discarded item); reflexivity.
  - apply (proj1 (proj2 dateless_item_discarded) item [] [] [dated] None []);
      reflexivity.
  - vm_compute. reflexivity.
Defined.

(** C10, as stated, fails on an item whose [start] is [null], and on one
    whose [start] is an object with [dateTime] [null]: the start of
    either carries neither a date nor a date-time value, and the item is
    not discarded; the expression that reads the date raises, and the
    fetch ends with that exception, whatever the other items are. *)
Lemma dateless_null_item_aborts_fetch :
  let item := mkEvent (Some "ev1") (Some "Unknown") Null in
  let item' := mkEvent (Some "ev1") (Some "Unknown")
                 (Value (mkStart Absent Null)) in
  let dated := mkEvent (Some "ev2") (Some "New Year")
                 (Value (mkStart (Value "2025-01-01") Absent)) in
  dateless item = true
  ∧ dateless item' = true
  ∧ fetch_holidays_from_gcal [HttpOk (mkPage (Value [dated]) None)] 2025 2027
    = Ok [mkHoliday "2025-01-01T00:00:00.000Z" "New Year"]
  ∧ fetch_holidays_from_gcal [HttpOk (mkPage (Value [item; dated]) None)] 2025 2027
    = Raise AttributeError
  ∧ fetch_holidays_from_gcal [HttpOk (mkPage (Value [dated; item']) None)] 2025 2027
    = Raise TypeError
  ∧ fetch_calendar_holidays "cal" [HttpOk (mkPage (Value [item; dated]) None)]
      default_years
    = Raise AttributeError
  ∧ fetch_calendar_holidays "cal" [HttpOk (mkPage (Value [dated; item']) None)]
      default_years
    = Raise TypeError.
Proof. by split_and!. Qed.

(** ** The dataset store *)

Lemma as_entries_stored holidays :
  as_entries (StoredEntry <$> holidays) = Ok holidays.
Proof. induction holidays as [|h l IH]; csimpl; [done|]. by rewrite IH. Qed.

(** What [save_holidays_to_json] wrote in full is what
    [load_existing_holidays] reads back, entry for entry. *)
Lemma save_load_roundtrip country_code holidays w :
  dump w country_code holidays = Written →
  load_existing_holidays
    (disk (save_holidays_to_json country_code holidays w).2 !! country_code)
  = (Ok (StoredEntry <$> holidays), [])
  ∧ as_entries (StoredEntry <$> holidays) = Ok holidays.
Proof.
  intros Hw. split; [|apply as_entries_stored].
  unfold save_holidays_to_json. rewrite Hw. simpl. by rewrite lookup_insert_eq.
Qed.

(** A file that is not UTF-8 text makes the load raise. *)
Lemma load_existing_holidays_undecodable :
  load_existing_holidays (Some Undecodable) = (Raise UnicodeDecodeError, []).
Proof. reflexivity. Qed.




(** ** The pipeline: what a run does to the file of one country *)

Section pipeline_facts.
Variable api : string → list response.
Implicit Types (w : world) (st : world * counters) (k c : string).

Lemma extends_by_refl Q w : extends_by Q w w.
Proof. exists []. by rewrite app_nil_r. Qed.

Lemma extends_by_trans Q w1 w2 w3 :
  extends_by Q w1 w2 → extends_by Q w2 w3 → extends_by Q w1 w3.
Proof.
  intros (t1 & Ht1 & HQ1) (t2 & Ht2 & HQ2). exists (t1 ++ t2).
  split; [by rewrite Ht2, Ht1, app_assoc | by apply Forall_app].
Qed.

Lemma extends_by_one (Q : effect → Prop) w d o e :
  Q e → extends_by Q w (World d (trace w ++ [e]) o).
Proof. intros He. exists [e]. split; [done | by apply Forall_singleton]. Qed.

Lemma extends_by_impl (Q Q' : effect → Prop) w w' :
  (∀ e, Q e → Q' e) → extends_by Q w w' → extends_by Q' w w'.
Proof.
  intros HQ (t & Ht & Hall). exists t. split; [done|].
  eapply Forall_impl; eauto.
Qed.

(** The save at the end of the [try] block, by how the write goes: the
    file holds the holidays and the call succeeds; or the file holds a
    torn text and the call fails; or nothing has happened and the call
    fails. The write is the only effect. *)
Lemma save_and_return_cases c hs w :
  match dump w c hs with
  | Written =>
      (save_and_return c hs w).1 = Ok true
      ∧ disk (save_and_return c hs w).2 !! c = Some (Listing (StoredEntry <$> hs))
  | Torn _ =>
      (save_and_return c hs w).1 = Ok false
      ∧ disk (save_and_return c hs w).2 !! c = Some Unparsable
  | Refused _ => save_and_return c hs w = (Ok false, w)
  end.
Proof.
  unfold save_and_return, save_holidays_to_json.
  destruct (dump w c hs); simpl; [|..|done]; by rewrite lookup_insert_eq.
Qed.

Lemma save_and_return_effects c hs w :
  extends_by (λ e, e = FsWrite c) w (save_and_return c hs w).2
  ∧ dump (save_and_return c hs w).2 = dump w
  ∧ (∀ k, k ≠ c → disk (save_and_return c hs w).2 !! k = disk w !! k)
  ∧ (∀ k, is_Some (disk w !! k) → is_Some (disk (save_and_return c hs w).2 !! k)).
Proof.
  assert (∀ x k, is_Some (disk w !! k) → is_Some (<[c:=x]> (disk w) !! k))
    as Hkeep.
  { intros x k Hk. destruct (decide (k = c)) as [->|Hne].
    - rewrite lookup_insert_eq. eauto.
    - by rewrite lookup_insert_ne. }
  unfold save_and_return, save_holidays_to_json.
  destruct (dump w c hs); simpl.
  - split; [by apply extends_by_one|]. split; [done|].
    split; [|by apply Hkeep]. intros k Hne. by rewrite lookup_insert_ne.
  - split; [by apply extends_by_one|]. split; [done|].
    split; [|by apply Hkeep]. intros k Hne. by rewrite lookup_insert_ne.
  - split; [apply extends_by_refl|]. done.
Qed.

(** The effects of one call of [update_country_holidays]: at most one
    fetch, followed by at most one write of the file of the country. *)
Lemma update_country_holidays_effects c sy ey recreate w :
  extends_by (λ e, (∃ id, e = HttpFetch id) ∨ e = FsWrite c) w
    (update_country_holidays api c sy ey recreate w).2.
Proof.
  unfold update_country_holidays.
  destruct (PyDict.getitem c CALENDAR_MAPPING) as [info|];
    [|apply extends_by_refl].
  destruct (recreate && path_exists c w); [apply extends_by_refl|].
  assert (extends_by (λ e, (∃ id, e = HttpFetch id) ∨ e = FsWrite c) w
            (World (disk w) (trace w ++ [HttpFetch (calendar_id info)]) (dump w)))
    as Hfetch by (apply extends_by_one; eauto).
  assert (∀ hs w1, extends_by (λ e, (∃ id, e = HttpFetch id) ∨ e = FsWrite c)
                     w1 (save_and_return c hs w1).2) as Hsave.
  { intros hs w1. eapply extends_by_impl; [|apply save_and_return_effects].
    intros e ->. by right. }
  destruct (fetch_holidays_from_gcal _ _ _) as [[|h hs]|]; simpl; try done.
  destruct recreate; simpl.
  - eapply extends_by_trans; [exact Hfetch | apply Hsave].
  - destruct (_ ≫= as_entries); simpl; [|done].
    eapply extends_by_trans; [exact Hfetch | apply Hsave].
Qed.

(** It leaves the files of the other countries alone, and the way
    writes go. *)
Lemma update_country_holidays_frame c k sy ey recreate w :
  k ≠ c →
  disk (update_country_holidays api c sy ey recreate w).2 !! k = disk w !! k.
Proof.
  intros Hne. unfold update_country_holidays.
  destruct (PyDict.getitem c CALENDAR_MAPPING) as [info|]; [|done].
  destruct (recreate && path_exists c w); [done|].
  destruct (fetch_holidays_from_gcal _ _ _) as [[|h hs]|]; simpl; try done.
  destruct recreate; simpl.
  - by rewrite (proj1 (proj2 (proj2 (save_and_return_effects c _ _)))).
  - destruct (_ ≫= as_entries); simpl; [|done].
    by rewrite (proj1 (proj2 (proj2 (save_and_return_effects c _ _)))).
Qed.

Lemma update_country_holidays_dump c sy ey recreate w :
  dump (update_country_holidays api c sy ey recreate w).2 = dump w.
Proof.
  unfold update_country_holidays.
  destruct (PyDict.getitem c CALENDAR_MAPPING) as [info|]; [|done].
  destruct (recreate && path_exists c w); [done|].
  destruct (fetch_holidays_from_gcal _ _ _) as [[|h hs]|]; simpl; try done.
  destruct recreate; simpl.
  - by rewrite (proj1 (proj2 (save_and_return_effects c _ _))).
  - destruct (_ ≫= as_entries); simpl; [|done].
    by rewrite (proj1 (proj2 (save_and_return_effects c _ _))).
Qed.

(** A failed fetch ends the call before anything is loaded or saved. *)
Lemma update_country_holidays_fetch_fails k info sy ey recreate w e :
  PyDict.getitem k CALENDAR_MAPPING = Some info →
  fetch_holidays_from_gcal (api (calendar_id info)) sy ey = Raise e →
  disk (update_country_holidays api k sy ey recreate w).2 = disk w
  ∧ extends_by (λ e, ∃ id, e = HttpFetch id) w
      (update_country_holidays api k sy ey recreate w).2
  ∧ (update_country_holidays api k sy ey recreate w).1 ≠ Ok true.
Proof.
  intros Hk Hfetch. unfold update_country_holidays. rewrite Hk.
  destruct (recreate && path_exists k w).
  - split_and!; [done | apply extends_by_refl | done].
  - rewrite Hfetch. simpl. split_and!; [done| |done].
    apply extends_by_one. eauto.
Qed.

(** Recreate over an existing file: the call stops before the fetch. *)
Lemma update_country_holidays_conflict k sy ey w :
  is_Some (disk w !! k) →
  (update_country_holidays api k sy ey true w).2 = w
  ∧ (update_country_holidays api k sy ey true w).1
    = match PyDict.getitem k CALENDAR_MAPPING with
      | Some _ => Raise FileExistsError
      | None => Ok false
      end.
Proof.
  intros Hfile. unfold update_country_holidays.
  destruct (PyDict.getitem k CALENDAR_MAPPING) as [info|]; [|done].
  unfold path_exists. by rewrite bool_decide_eq_true_2.
Qed.

Variable args : Args.

Lemma process_country_frame st c k :
  k ≠ c →
  disk (process_country api args st c).1 !! k = disk st.1 !! k
  ∧ extends_by (spares k) st.1 (process_country api args st c).1.
Proof.
  intros Hne. unfold process_country.
  set (w0 := if arg_recreate args && arg_force args
             then if path_exists c st.1 then os_remove c st.1 else st.1
             else st.1).
  assert (disk w0 !! k = disk st.1 !! k ∧ extends_by (spares k) st.1 w0)
    as [Hd0 Ht0].
  { unfold w0. destruct (_ && _); [|split; [done | apply extends_by_refl]].
    destruct (path_exists c st.1); [|split; [done | apply extends_by_refl]].
    split; [simpl; by rewrite lookup_delete_ne|].
    apply extends_by_one. split; congruence. }
  pose proof (update_country_holidays_frame c k (arg_start_year args)
                (arg_end_year args) (arg_recreate args) w0 Hne) as Hd1.
  pose proof (update_country_holidays_effects c (arg_start_year args)
                (arg_end_year args) (arg_recreate args) w0) as Ht1.
  apply (extends_by_impl _ (spares k)) in Ht1.
  2:{ intros e [[id ->]| ->]; split; congruence. }
  destruct (update_country_holidays _ _ _ _ _ _) as [[[|]|] w1]; simpl in *;
    (split; [rewrite Hd1; exact Hd0 | exact (extends_by_trans _ _ _ _ Ht0 Ht1)]).
Qed.

Lemma process_country_counts st c :
  (error_count st.2 ≤ error_count (process_country api args st c).2)%nat.
Proof.
  unfold process_country.
  destruct (update_country_holidays _ _ _ _ _ _) as [[[|]|] w1]; simpl; lia.
Qed.

(** The loop body on a recreate conflict: the world stays as it is and
    the country is counted as an error. *)
Lemma process_country_conflict st k :
  arg_recreate args = true → arg_force args = false →
  is_Some (disk st.1 !! k) →
  process_country api args st k
  = (st.1, mkCounters (success_count st.2) (S (error_count st.2))).
Proof.
  intros Hr Hf Hfile. unfold process_country. rewrite Hr, Hf. cbn [andb].
  destruct (update_country_holidays_conflict k (arg_start_year args)
              (arg_end_year args) st.1 Hfile) as [Hw Hres].
  destruct (update_country_holidays _ _ _ _ _ _) as [r w1].
  cbn [fst snd] in *. subst w1 r.
  by destruct (PyDict.getitem k CALENDAR_MAPPING).
Qed.

(** The loop body when the fetch of the country fails. *)
Lemma process_country_fetch_fails st k info e :
  PyDict.getitem k CALENDAR_MAPPING = Some info →
  fetch_holidays_from_gcal (api (calendar_id info)) (arg_start_year args)
    (arg_end_year args) = Raise e →
  let st' := process_country api args st k in
  disk st'.1 !! k
  = (if arg_recreate args && arg_force args then None else disk st.1 !! k)
  ∧ extends_by (λ e, e ≠ FsWrite k
                     ∧ (arg_recreate args && arg_force args = false →
                        e ≠ FsRemove k)) st.1 st'.1
  ∧ error_count st'.2 = S (error_count st.2).
Proof.
  intros Hk Hfetch. simpl. unfold process_country.
  set (w0 := if arg_recreate args && arg_force args
             then if path_exists k st.1 then os_remove k st.1 else st.1
             else st.1).
  destruct (update_country_holidays_fetch_fails k info (arg_start_year args)
              (arg_end_year args) (arg_recreate args) w0 e Hk Hfetch)
    as (Hd & Ht & Hr).
  apply (extends_by_impl _ (λ e, e ≠ FsWrite k
           ∧ (arg_recreate args && arg_force args = false → e ≠ FsRemove k)))
    in Ht.
  2:{ intros e' [id ->]. split; congruence. }
  assert (disk w0 !! k
          = (if arg_recreate args && arg_force args then None
             else disk st.1 !! k)
          ∧ extends_by (λ e, e ≠ FsWrite k
              ∧ (arg_recreate args && arg_force args = false → e ≠ FsRemove k))
              st.1 w0) as [Hd0 Ht0].
  { unfold w0. destruct (arg_recreate args && arg_force args);
      [|split; [done | apply extends_by_refl]].
    unfold path_exists. destruct (bool_decide_reflect (is_Some (disk st.1 !! k)))
      as [Hs|Hn].
    - split; [simpl; by rewrite lookup_delete_eq|].
      apply extends_by_one. split; [congruence | done].
    - split; [|apply extends_by_refl].
      by apply eq_None_not_Some. }
  destruct (update_country_holidays _ _ _ _ _ _) as [[[|]|] w1]; simpl in *;
    try done;
    (split_and!;
       [rewrite Hd; exact Hd0 | exact (extends_by_trans _ _ _ _ Ht0 Ht) | done]).
Qed.

End pipeline_facts.

Section run_facts.
Variable api : string → list response.
Variable args : Args.
Implicit Types (st : world * counters) (k c : string) (codes : list string).

Let run st codes := foldl (process_country api args) st codes.

Lemma run_snoc st codes c :
  run st (codes ++ [c]) = process_country api args (run st codes) c.
Proof. unfold run. by rewrite foldl_app. Qed.

Lemma run_counts st codes :
  (error_count st.2 ≤ error_count (run st codes).2)%nat.
Proof.
  induction codes as [|c codes IH] using rev_ind; [done|].
  rewrite run_snoc. etrans; [exact IH | apply process_country_counts].
Qed.

(** Recreate without the overwrite directive, file present. *)
Lemma run_conflict st codes k :
  arg_recreate args = true → arg_force args = false →
  is_Some (disk st.1 !! k) →
  disk (run st codes).1 !! k = disk st.1 !! k
  ∧ extends_by (spares k) st.1 (run st codes).1
  ∧ (k ∈ codes → (S (error_count st.2) ≤ error_count (run st codes).2)%nat).
Proof.
  intros Hr Hf Hfile.
  induction codes as [|c codes (Hd & Ht & Hc)] using rev_ind.
  - split_and!; [done | apply extends_by_refl | by intros ?%elem_of_nil].
  - rewrite run_snoc. destruct (decide (c = k)) as [->|Hne].
    + rewrite process_country_conflict; [|done|done|by rewrite Hd].
      split_and!; [done..|]. intros _. simpl.
      pose proof (run_counts st codes). lia.
    + destruct (process_country_frame api args (run st codes) c k) as [Hd' Ht'];
        [done|].
      split_and!.
      * by rewrite Hd'.
      * by eapply extends_by_trans.
      * intros [Hin|Hin%list_elem_of_singleton]%elem_of_app; [|done].
        etrans; [by apply Hc | apply process_country_counts].
Qed.

(** The fetch of country [k] fails. *)
Lemma run_fetch_fails st codes k info e :
  PyDict.getitem k CALENDAR_MAPPING = Some info →
  fetch_holidays_from_gcal (api (calendar_id info)) (arg_start_year args)
    (arg_end_year args) = Raise e →
  extends_by (λ e, e ≠ FsWrite k
                   ∧ (arg_recreate args && arg_force args = false →
                      e ≠ FsRemove k)) st.1 (run st codes).1
  ∧ (arg_recreate args && arg_force args = false →
     disk (run st codes).1 !! k = disk st.1 !! k)
  ∧ (arg_recreate args && arg_force args = true → k ∈ codes →
     disk (run st codes).1 !! k = None)
  ∧ (k ∈ codes → (S (error_count st.2) ≤ error_count (run st codes).2)%nat).
Proof.
  intros Hk Hfetch.
  induction codes as [|c codes (Ht & Hkeep & Hgone & Hc)] using rev_ind.
  - split_and!; [apply extends_by_refl | done | |].
    + by intros _ ?%elem_of_nil.
    + by intros ?%elem_of_nil.
  - rewrite run_snoc. destruct (decide (c = k)) as [->|Hne].
    + destruct (process_country_fetch_fails api args (run st codes) k info e
                  Hk Hfetch) as (Hd' & Ht' & Hc').
      split_and!.
      * by eapply extends_by_trans.
      * intros Hmode. rewrite Hd', Hmode. by apply Hkeep.
      * intros Hmode _. by rewrite Hd', Hmode.
      * intros _. rewrite Hc'. pose proof (run_counts st codes). lia.
    + destruct (process_country_frame api args (run st codes) c k) as [Hd' Ht'];
        [done|].
      split_and!.
      * eapply extends_by_trans; [exact Ht|].
        eapply extends_by_impl; [|exact Ht']. by intros e' [? ?].
      * intros Hmode. rewrite Hd'. by apply Hkeep.
      * intros Hmode [Hin|Hin%list_elem_of_singleton]%elem_of_app; [|done].
        rewrite Hd'. by apply Hgone.
      * intros [Hin|Hin%list_elem_of_singleton]%elem_of_app; [|done].
        etrans; [by apply Hc | apply process_country_counts].
Qed.

End run_facts.

(** C7. Recreate requested without the overwrite directive while the file
    of the country exists: the call of [update_country_holidays] changes
    nothing and does not succeed (it raises [FileExistsError] for a
    country of [CALENDAR_MAPPING]); the loop of [main] counts the country
    as an error; and after the whole run the file is what it was, with no
    write and no removal of it among the effects of the run. *)
Theorem recreate_conflict_keeps_file (api : string → list response)
    (args : Args) (k : string) :
  arg_recreate args = true → arg_force args = false →
  (∀ w, is_Some (disk w !! k) →
     let call := update_country_holidays api k (arg_start_year args)
                   (arg_end_year args) (arg_recreate args) w in
     call.2 = w
     ∧ call.1 ≠ Ok true
     ∧ (is_Some (PyDict.getitem k CALENDAR_MAPPING) →
        call.1 = Raise FileExistsError))
  ∧ (∀ w n, is_Some (disk w !! k) →
       process_country api args (w, n) k
       = (w, mkCounters (success_count n) (S (error_count n))))
  ∧ (∀ country_codes w, is_Some (disk w !! k) →
       let out := run_countries api args country_codes w in
       disk out.1 !! k = disk w !! k
       ∧ extends_by (spares k) w out.1
       ∧ (k ∈ country_codes → (1 ≤ error_count out.2)%nat)).
Proof.
  intros Hr Hf. split_and!.
  - intros w Hfile. rewrite Hr. cbn zeta.
    destruct (update_country_holidays_conflict api k (arg_start_year args)
                (arg_end_year args) w Hfile) as [-> ->].
    split_and!; [done| |].
    + by destruct (PyDict.getitem k CALENDAR_MAPPING).
    + by intros [info ->].
  - intros w n Hfile. by apply (process_country_conflict api args (w, n)).
  - intros codes w Hfile. cbn zeta. unfold run_countries.
    destruct (run_conflict api args (w, mkCounters 0 0) codes k Hr Hf Hfile)
      as (Hd & Ht & Hc).
    split_and!; [done..|]. intros Hin. by apply Hc.
Qed.

Lemma recreate_conflict_keeps_file_witness :
  let stored := Listing [StoredEntry (mkHoliday "2024-01-01T00:00:00.000Z" "New Year")] in
  let w := mkWorld {[ "JP" := stored ]} [] in
  let api := λ _ : string, [HttpOk (mkPage
               (Value [mkEvent (Some "e1") (Some "Coming of Age Day")
                  (Value (mkStart (Value "2025-01-13") Absent))]) None)] in
  let args := mkArgs 2025 2027 true false in
  update_country_holidays api "JP" 2025 2027 true w = (Raise FileExistsError, w)
  ∧ run_countries api args ["JP"] w = (w, mkCounters 0 1)
  ∧ disk (run_countries api args ["JP"] w).1 !! "JP" = Some stored.
Proof.
  intros stored w api args. split_and!.
  - vm_compute. reflexivity.
  - vm_compute. reflexivity.
  - assert (is_Some (disk w !! "JP")) as Hfile by (vm_compute; eauto).
    destruct (recreate_conflict_keeps_file api args "JP" eq_refl eq_refl)
      as (_ & _ & Hrun).
    destruct (Hrun ["JP"] w Hfile) as (Hd & _ & _).
    rewrite Hd. vm_compute. reflexivity.
Defined.

(** C4, as the code has it. When the fetch of a country fails, the run
    writes nothing to the file of that country. In append mode, and in
    recreate mode without the overwrite directive, the file is after the
    run what it was before, and it is not removed either. In recreate
    mode with the overwrite directive the file has been removed before
    the fetch is attempted, and it stays removed. In every mode the
    country is counted as an error. *)
Theorem fetch_failure_writes_nothing (api : string → list response)
    (args : Args) (country_codes : list string) (w : world)
    (k : string) (info : CalendarInfo) (e : exn) :
  PyDict.getitem k CALENDAR_MAPPING = Some info →
  fetch_holidays_from_gcal (api (calendar_id info)) (arg_start_year args)
    (arg_end_year args) = Raise e →
  let out := run_countries api args country_codes w in
  extends_by (λ e, e ≠ FsWrite k) w out.1
  ∧ (arg_recreate args && arg_force args = false →
     disk out.1 !! k = disk w !! k ∧ extends_by (spares k) w out.1)
  ∧ (arg_recreate args && arg_force args = true → k ∈ country_codes →
     disk out.1 !! k = None)
  ∧ (k ∈ country_codes → (1 ≤ error_count out.2)%nat).
Proof.
  intros Hk Hfetch. cbn zeta. unfold run_countries.
  destruct (run_fetch_fails api args (w, mkCounters 0 0) country_codes k info e
              Hk Hfetch) as (Ht & Hkeep & Hgone & Hc).
  split_and!.
  - eapply extends_by_impl; [|exact Ht]. by intros e' [? _].
  - intros Hmode. split; [by apply Hkeep|].
    eapply extends_by_impl; [|exact Ht]. intros e' [? He']. split; auto.
  - done.
  - intros Hin. by apply Hc.
Qed.

Lemma fetch_failure_writes_nothing_witness :
  let stored := Listing [StoredEntry (mkHoliday "2024-01-01T00:00:00.000Z" "New Year")] in
  let w := mkWorld {[ "JP" := stored ]} [] in
  let api := λ _ : string, [HttpFailure] in
  let args := mkArgs 2025 2027 false false in
  let out := run_countries api args ["JP"] w in
  out = (mkWorld {[ "JP" := stored ]}
           [HttpFetch "ja.japanese.official#holiday@group.v.calendar.google.com"],
         mkCounters 0 1)
  ∧ disk out.1 !! "JP" = disk w !! "JP".
Proof.
  intros stored w api args out. split; [vm_compute; reflexivity|].
  destruct (fetch_failure_writes_nothing api args ["JP"] w "JP"
              (mkInfo "ja.japanese.official#holiday@group.v.calendar.google.com" "ja")
              RuntimeError eq_refl eq_refl) as (_ & Hkeep & _ & _).
  by apply Hkeep.
Defined.

(** C4, as stated, fails in recreate mode with the overwrite directive:
    the loop of [main] removes the file before it calls
    [update_country_holidays], so a fetch that fails leaves the country
    without its file. *)
Lemma fetch_failure_after_forced_removal :
  let stored := Listing [StoredEntry (mkHoliday "2024-01-01T00:00:00.000Z" "New Year")] in
  let w := mkWorld {[ "JP" := stored ]} [] in
  let api := λ _ : string, [HttpFailure] in
  let args := mkArgs 2025 2027 true true in
  let out := run_countries api args ["JP"] w in
  fetch_holidays_from_gcal
    (api "ja.japanese.official#holiday@group.v.calendar.google.com") 2025 2027
  = Raise RuntimeError
  ∧ disk w !! "JP" = Some stored
  ∧ disk out.1 !! "JP" = None
  ∧ trace out.1
    = [FsRemove "JP";
       HttpFetch "ja.japanese.official#holiday@group.v.calendar.google.com"]
  ∧ disk out.1 !! "JP" ≠ disk w !! "JP".
Proof.
  intros stored w api args out.
  assert (disk w !! "JP" = Some stored) as Hw by (vm_compute; reflexivity).
  assert (disk out.1 !! "JP" = None) as Hout by (vm_compute; reflexivity).
  split_and!; [reflexivity | exact Hw | exact Hout | vm_compute; reflexivity |].
  rewrite Hw, Hout. discriminate.
Qed.

(** ** The snapshot comparison *)

Section compare_facts.
Implicit Types (acc : list error * Stats) (errs : list error).
Implicit Types (before after : list (string * list HolidayEntry)).
Implicit Types (hb ha : list HolidayEntry).

Lemma compare_snapshots_errors before after :
  errors (compare_snapshots before after)
  = (foldl (check_country after) ([], mkStats 0 0 0 0 0 0 0) before).1.
Proof. unfold compare_snapshots. by destruct (foldl _ _ _). Qed.

Lemma compare_snapshots_stats before after :
  stats (compare_snapshots before after)
  = (foldl (check_country after) ([], mkStats 0 0 0 0 0 0 0) before).2.
Proof. unfold compare_snapshots. by destruct (foldl _ _ _). Qed.

Lemma compare_snapshots_passed before after :
  passed (compare_snapshots before after)
  = bool_decide (length (errors (compare_snapshots before after)) = 0%nat).
Proof. unfold compare_snapshots. by destruct (foldl _ _ _). Qed.

(** The loop over the entries adds no deleted-entry error and leaves
    the count of deleted entries alone. *)
Lemma check_entry_deleted c ha acc b :
  filter is_deleted (check_entry c ha acc b).1 = filter is_deleted acc.1
  ∧ deleted_entries (check_entry c ha acc b).2 = deleted_entries acc.2.
Proof.
  destruct acc as [errs st]. unfold check_entry.
  destruct (after_match _ _) as [a|]; [|done].
  destruct (decide (b = a)); simpl; [done|].
  split; [|done]. rewrite filter_app. simpl.
  rewrite filter_cons_False by (simpl; auto). by rewrite app_nil_r.
Qed.

Lemma check_entries_deleted c ha hb acc :
  filter is_deleted (foldl (check_entry c ha) acc hb).1 = filter is_deleted acc.1
  ∧ deleted_entries (foldl (check_entry c ha) acc hb).2 = deleted_entries acc.2.
Proof.
  revert acc. induction hb as [|b hb IH]; intros acc; simpl; [done|].
  destruct (IH (check_entry c ha acc b)) as [-> ->].
  apply check_entry_deleted.
Qed.

Lemma filter_deleted_fmap c (keys : list string) :
  filter is_deleted (EntryDeleted c <$> keys) = EntryDeleted c <$> keys.
Proof.
  induction keys as [|k keys IH]; [done|].
  rewrite fmap_cons, filter_cons_True by done. by rewrite IH.
Qed.

(** The deleted-entry errors of one country are its deleted keys. *)
Lemma check_country_deleted after acc c hb :
  let gone :=
    match PyDict.getitem c after with
    | Some ha => elements (holiday_keys hb ∖ holiday_keys ha)
    | None => []
    end in
  filter is_deleted (check_country after acc (c, hb)).1
  = filter is_deleted acc.1 ++ (EntryDeleted c <$> gone)
  ∧ deleted_entries (check_country after acc (c, hb)).2
    = (deleted_entries acc.2 + length gone)%nat.
Proof.
  destruct acc as [errs st]. unfold check_country.
  destruct (PyDict.getitem c after) as [ha|]; simpl.
  - match goal with
    | |- context [foldl (check_entry c ha) ?a hb] =>
        destruct (check_entries_deleted c ha hb a) as [He Hs];
        destruct (foldl (check_entry c ha) a hb) as [errs3 st3]
    end.
    simpl in *. rewrite He, Hs, filter_app, filter_deleted_fmap. done.
  - rewrite filter_app. simpl.
    rewrite filter_cons_False by (simpl; auto).
    split; [done | lia].
Qed.

(** Countries whose keys are all found again add no deleted-entry
    error. *)
Lemma check_countries_none_deleted after acc before :
  Forall (λ item, ∃ ha, PyDict.getitem item.1 after = Some ha
                        ∧ Forall (λ b, b ∈ ha) item.2) before →
  filter is_deleted (foldl (check_country after) acc before).1
  = filter is_deleted acc.1
  ∧ deleted_entries (foldl (check_country after) acc before).2
    = deleted_entries acc.2.
Proof.
  intros Hall. revert acc.
  induction Hall as [|[c hb] l (ha & Hget & Hkept) _ IH]; intros acc;
    simpl; [done|].
  destruct (IH (check_country after acc (c, hb))) as [-> ->].
  destruct (check_country_deleted after acc c hb) as [-> ->].
  simpl in Hget. rewrite Hget.
  assert (holiday_keys hb ∖ holiday_keys ha = ∅) as ->.
  { apply set_eq. intros x. unfold holiday_keys.
    rewrite elem_of_difference, !elem_of_list_to_set, !list_elem_of_fmap.
    split; [|by intros ?%not_elem_of_empty].
    intros [(b & -> & Hb) Hn]. destruct Hn. exists b. split; [done|].
    by apply (proj1 (Forall_forall _ _) Hkept). }
  rewrite elements_empty. simpl. rewrite app_nil_r. split; [done|lia].
Qed.

(** The keys of a country that lost the entry [d] and nothing else. *)
Lemma one_key_gone hb ha d :
  d ∈ hb →
  Forall (λ a, create_holiday_key a ≠ create_holiday_key d) ha →
  Forall (λ b, create_holiday_key b = create_holiday_key d ∨ b ∈ ha) hb →
  holiday_keys hb ∖ holiday_keys ha = {[ create_holiday_key d ]}.
Proof.
  intros Hd Hha Hhb. apply set_eq. intros x. unfold holiday_keys.
  rewrite elem_of_difference, !elem_of_list_to_set, !list_elem_of_fmap,
    elem_of_singleton.
  split.
  - intros [(b & -> & Hb) Hn].
    destruct (proj1 (Forall_forall _ _) Hhb b Hb) as [Hk|Hin]; [done|].
    destruct Hn. by exists b.
  - intros ->. split; [by exists d|].
    intros (a & Hk & Ha). by apply (proj1 (Forall_forall _ _) Hha a Ha).
Qed.

Lemma filter_all {A : Type} (P : A → Prop) `{∀ x, Decision (P x)} (l : list A) :
  Forall P l → filter P l = l.
Proof.
  induction 1 as [|x l Hx _ IH]; [done|].
  by rewrite filter_cons_True, IH.
Qed.

(** When the key strings tell the entries of a country apart, the loop
    over the entries records no error. *)
Lemma after_match_Some key ha a :
  after_match key ha = Some a → a ∈ ha ∧ create_holiday_key a = key.
Proof.
  unfold after_match. destruct (list_find _ ha) as [[i x]|] eqn:Hfind; [|done].
  intros [= <-]. apply list_find_Some in Hfind as (Hi & Hx & _).
  split; [by eapply list_elem_of_lookup_2 | done].
Qed.

Lemma check_entries_quiet c ha hb acc :
  (∀ b a, b ∈ hb → a ∈ ha →
          create_holiday_key a = create_holiday_key b → a = b) →
  (foldl (check_entry c ha) acc hb).1 = acc.1.
Proof.
  revert acc. induction hb as [|b hb IH]; intros acc Hkeys; simpl; [done|].
  rewrite IH by (intros b' a Hb'; apply Hkeys; by right).
  destruct acc as [errs st]. unfold check_entry.
  destruct (after_match _ ha) as [a|] eqn:Hm; [|done].
  apply after_match_Some in Hm as [Ha Hk].
  rewrite decide_True; [done|]. symmetry. apply Hkeys; [by left|done..].
Qed.

Lemma check_countries_only_deleted after acc before :
  Forall (λ item, ∃ ha, PyDict.getitem item.1 after = Some ha
            ∧ ∀ b a, b ∈ item.2 → a ∈ ha →
                     create_holiday_key a = create_holiday_key b → a = b)
    before →
  Forall is_deleted acc.1 →
  Forall is_deleted (foldl (check_country after) acc before).1.
Proof.
  intros Hall. revert acc.
  induction Hall as [|[c hb] l (ha & Hget & Hkeys) _ IH]; intros acc Hacc;
    simpl; [done|].
  apply IH. destruct acc as [errs st]. unfold check_country.
  simpl in Hget. rewrite Hget.
  match goal with
  | |- context [foldl (check_entry c ha) ?a hb] =>
      pose proof (check_entries_quiet c ha hb a Hkeys) as Hq;
      destruct (foldl (check_entry c ha) a hb) as [errs3 st3]
  end.
  simpl in *. subst errs3. apply Forall_app. split; [done|].
  apply Forall_fmap, Forall_true. done.
Qed.

(** One country lost one key; nothing else was lost anywhere. *)
Lemma one_dropped_entry before after c hb ha d :
  NoDup before.*1 →
  (c, hb) ∈ before →
  PyDict.getitem c after = Some ha →
  d ∈ hb →
  Forall (λ a, create_holiday_key a ≠ create_holiday_key d) ha →
  Forall (λ b, create_holiday_key b = create_holiday_key d ∨ b ∈ ha) hb →
  Forall (λ item, item.1 = c
                  ∨ ∃ ha', PyDict.getitem item.1 after = Some ha'
                           ∧ Forall (λ b, b ∈ ha') item.2) before →
  filter is_deleted (errors (compare_snapshots before after))
  = [EntryDeleted c (create_holiday_key d)]
  ∧ deleted_entries (stats (compare_snapshots before after)) = 1%nat.
Proof.
  intros Hnd Hin Hget Hd Hha Hhb Hothers.
  rewrite compare_snapshots_errors, compare_snapshots_stats.
  apply list_elem_of_split in Hin as (l1 & l2 & ->).
  rewrite fmap_app, fmap_cons in Hnd. simpl in Hnd.
  apply NoDup_app in Hnd as (_ & Hl1 & Hl2%NoDup_cons).
  destruct Hl2 as [Hl2 _].
  apply Forall_app in Hothers as [Ho1 Ho2%Forall_cons].
  destruct Ho2 as [_ Ho2].
  assert (∀ l, Forall (λ item, item.1 = c
                 ∨ ∃ ha', PyDict.getitem item.1 after = Some ha'
                          ∧ Forall (λ b, b ∈ ha') item.2) l →
               c ∉ l.*1 →
               Forall (λ item, ∃ ha', PyDict.getitem item.1 after = Some ha'
                          ∧ Forall (λ b, b ∈ ha') item.2) l) as Hstrip.
  { intros l Hl Hc. apply Forall_forall. intros item Hitem.
    destruct (proj1 (Forall_forall _ _) Hl item Hitem) as [Heq|?]; [|done].
    destruct Hc. apply list_elem_of_fmap. by exists item. }
  rewrite foldl_app. simpl.
  destruct (check_countries_none_deleted after
              (check_country after
                 (foldl (check_country after) ([], mkStats 0 0 0 0 0 0 0) l1)
                 (c, hb)) l2) as [-> ->].
  { by apply Hstrip. }
  destruct (check_country_deleted after
              (foldl (check_country after) ([], mkStats 0 0 0 0 0 0 0) l1)
              c hb) as [-> ->].
  destruct (check_countries_none_deleted after ([], mkStats 0 0 0 0 0 0 0) l1)
    as [-> ->].
  { apply Hstrip; [done|]. intros Hc. apply (Hl1 c Hc), list_elem_of_here. }
  by rewrite Hget, (one_key_gone hb ha d Hd Hha Hhb), elements_singleton.
Qed.

End compare_facts.




(** ** Keys as strings and keys as pairs

    [create_holiday_key] joins date and name with a colon. Among entries
    whose dates have one width, as the stored dates
    [YYYY-MM-DDTHH:MM:SS.000Z] have, equal keys mean equal entries; dates
    that contain a colon at different places can collide. *)

Lemma append_inj_width s1 s2 t1 t2 :
  String.length s1 = String.length s2 →
  s1 +:+ t1 = s2 +:+ t2 → s1 = s2 ∧ t1 = t2.
Proof.
  revert s2. induction s1 as [|a s1 IH]; intros [|b s2]; simpl; try done.
  intros [= Hlen] [= -> Happ]. destruct (IH s2 Hlen Happ) as [-> ->]. done.
Qed.

Lemma create_holiday_key_inj_width x y :
  String.length (date x) = String.length (date y) →
  create_holiday_key x = create_holiday_key y → x = y.
Proof.
  destruct x as [dx nx], y as [dy ny]. unfold create_holiday_key. simpl.
  intros Hlen Hkey. apply append_inj_width in Hkey as [-> Hn]; [|done].
  cbv [String.append] in Hn. by injection Hn as ->.
Qed.

Lemma create_holiday_key_collision :
  create_holiday_key (mkHoliday "2025-05-05" "00:Kodomo no Hi")
  = create_holiday_key (mkHoliday "2025-05-05:00" "Kodomo no Hi").
Proof. reflexivity. Qed.

(** With keys that tell entries apart, the dropped entry is the only
    error of the comparison. *)
Lemma compare_snapshots_single_error
    (before after : list (string * list HolidayEntry)) c hb ha d :
  NoDup before.*1 →
  (c, hb) ∈ before →
  PyDict.getitem c after = Some ha →
  d ∈ hb →
  Forall (λ a, create_holiday_key a ≠ create_holiday_key d) ha →
  Forall (λ b, create_holiday_key b = create_holiday_key d ∨ b ∈ ha) hb →
  Forall (λ item, item.1 = c
                  ∨ ∃ ha', PyDict.getitem item.1 after = Some ha'
                           ∧ Forall (λ b, b ∈ ha') item.2) before →
  Forall (λ item, ∃ ha', PyDict.getitem item.1 after = Some ha'
            ∧ ∀ b a, b ∈ item.2 → a ∈ ha' →
                     create_holiday_key a = create_holiday_key b → a = b)
    before →
  errors (compare_snapshots before after)
  = [EntryDeleted c (create_holiday_key d)].
Proof.
  intros Hnd Hin Hget Hd Hha Hhb Hothers Hkeys.
  destruct (one_dropped_entry before after c hb ha d) as [Herrs _]; [done..|].
  rewrite <- Herrs. symmetry. apply filter_all.
  rewrite compare_snapshots_errors.
  apply check_countries_only_deleted; [done | apply Forall_nil_2].
Qed.

(** * Part III: further properties of the code *)

(** ** More on [merge_holidays] *)

Section merge_more.
Implicit Types (existing new_holidays : list HolidayEntry).
Implicit Types (st : list HolidayEntry * gset (string * string)).

(** Whatever is in [merged] after the loop was there before or came in. *)
Lemma merge_fold_from new_holidays st x :
  x ∈ (foldl merge_step st new_holidays).1 → x ∈ st.1 ∨ x ∈ new_holidays.
Proof.
  revert st. induction new_holidays as [|h l IH]; intros st; simpl; [by left|].
  intros [Hx|Hx]%IH; [|right; by right].
  unfold merge_step in Hx. destruct (decide _); simpl in Hx; [by left|].
  apply elem_of_app in Hx as [Hx|Hx%list_elem_of_singleton]; [by left|].
  right. subst. by left.
Qed.

Lemma size_difference_known (k : string * string) (K X : gset (string * string)) :
  k ∈ X → size (({[k]} ∪ K) ∖ X) = size (K ∖ X).
Proof.
  intros Hk. f_equal. apply set_eq. intros y.
  rewrite !elem_of_difference, elem_of_union, elem_of_singleton.
  split; [|tauto]. intros [[->|?] ?]; [done|tauto].
Qed.

Lemma size_difference_new (k : string * string) (K X : gset (string * string)) :
  k ∉ X → size (({[k]} ∪ K) ∖ X) = S (size (K ∖ (X ∪ {[k]}))).
Proof.
  intros Hk.
  assert (({[k]} ∪ K) ∖ X = {[k]} ∪ K ∖ (X ∪ {[k]})) as ->.
  { apply set_eq. intros y.
    rewrite !elem_of_difference, !elem_of_union, elem_of_difference,
      !elem_of_singleton, elem_of_union, elem_of_singleton.
    destruct (decide (y = k)) as [->|]; tauto. }
  rewrite size_union, size_singleton; [done|].
  intros y. rewrite elem_of_singleton, elem_of_difference, elem_of_union,
    elem_of_singleton. tauto.
Qed.

(** The loop appends one entry for each incoming key that is new. *)
Lemma merge_fold_length new_holidays st :
  length (foldl merge_step st new_holidays).1
  = (length st.1 + size (list_to_set (key_of <$> new_holidays) ∖ st.2))%nat.
Proof.
  revert st. induction new_holidays as [|h l IH]; intros st.
  - cbn [foldl]. replace (list_to_set (key_of <$> []) ∖ st.2) with (∅ : gset (string * string)).
    + rewrite size_empty. lia.
    + apply set_eq. intros x. rewrite elem_of_difference, elem_of_list_to_set.
      split; [by intros ?%not_elem_of_empty | by intros [?%elem_of_nil _]].
  - cbn [foldl]. rewrite IH, fmap_cons, list_to_set_cons.
    unfold merge_step, key_of at 2.
    destruct (decide ((date h, name h) ∈ st.2)) as [Hin|Hnew]; cbn [fst snd].
    + by rewrite size_difference_known.
    + rewrite size_difference_new by done. rewrite length_app. simpl. lia.
Qed.

(** Incoming entries with distinct keys, none of them known, are all
    appended, in their order. *)
Lemma merge_fold_fresh new_holidays st :
  NoDup (key_of <$> new_holidays) →
  (∀ h, h ∈ new_holidays → key_of h ∉ st.2) →
  (foldl merge_step st new_holidays).1 = st.1 ++ new_holidays.
Proof.
  revert st. induction new_holidays as [|h l IH]; intros st Hnd Hnew; simpl.
  - by rewrite app_nil_r.
  - rewrite fmap_cons in Hnd. apply NoDup_cons in Hnd as [Hh Hnd].
    unfold merge_step at 2. rewrite decide_False by (apply Hnew; by left).
    rewrite IH; simpl; [by rewrite <- app_assoc | done |].
    intros h' Hh'. rewrite elem_of_union, elem_of_singleton.
    intros [Hin|Heq].
    + by apply (Hnew h'); [right|].
    + apply Hh. apply list_elem_of_fmap. exists h'. split; [|done].
      symmetry. exact Heq.
Qed.

Lemma merge_holidays_stable existing new_holidays d :
  filter (λ x, date x = d) existing
  `prefix_of` filter (λ x, date x = d) (merge_holidays existing new_holidays).
Proof.
  unfold merge_holidays. rewrite sort_by_date_stable.
  destruct (merge_fold_prefix new_holidays
              (existing, list_to_set (key_of <$> existing))) as [added Heq].
  unfold merge_loop. rewrite Heq. simpl. rewrite filter_app.
  by apply prefix_app_r.
Qed.

Lemma merge_holidays_known existing new_holidays :
  (∀ h, h ∈ new_holidays → h ∈ existing) →
  merge_holidays existing new_holidays = sort_by_date existing.
Proof.
  intros Hknown. unfold merge_holidays, merge_loop.
  rewrite merge_fold_idle; [done|]. simpl. intros h Hh.
  apply elem_of_list_to_set, list_elem_of_fmap_2, Hknown, Hh.
Qed.

Lemma NoDup_dates_keys (l : list HolidayEntry) :
  NoDup (date <$> l) → NoDup (key_of <$> l).
Proof.
  intros Hnd. apply (NoDup_fmap_1 fst).
  rewrite <- list_fmap_compose. exact Hnd.
Qed.

End merge_more.

(** X1. The output of [merge_holidays] is in non-decreasing order of
    date, and among the entries of one date the existing ones come first,
    in the order they had. *)
Theorem merge_holidays_order (existing new_holidays : list HolidayEntry) :
  Sorted date_le (merge_holidays existing new_holidays)
  ∧ ∀ d, filter (λ x, date x = d) existing
         `prefix_of`
         filter (λ x, date x = d) (merge_holidays existing new_holidays).
Proof.
  split; [apply sort_by_date_sorted | intros d; apply merge_holidays_stable].
Qed.

(** X2. The entries of the merge are the existing entries and the
    incoming entries, nothing else and nothing less. *)
Theorem merge_holidays_elem_of (existing new_holidays : list HolidayEntry)
    (h : HolidayEntry) :
  h ∈ merge_holidays existing new_holidays ↔ h ∈ existing ∨ h ∈ new_holidays.
Proof.
  unfold merge_holidays. rewrite sort_by_date_perm. split.
  - apply merge_fold_from.
  - intros [Hh|Hh].
    + destruct (merge_fold_prefix new_holidays
                  (existing, list_to_set (key_of <$> existing))) as [added Heq].
      unfold merge_loop. rewrite Heq. apply elem_of_app. by left.
    + pose proof (merge_fold_covers new_holidays
                    (existing, list_to_set (key_of <$> existing)) h Hh) as Hk.
      fold (merge_loop existing new_holidays) in Hk.
      rewrite (merge_loop_agree existing new_holidays) in Hk.
      apply elem_of_list_to_set, list_elem_of_fmap in Hk as (h' & Hk & Hh').
      apply key_of_inj in Hk. by subst.
Qed.

(** X3. The merge adds one entry for each distinct incoming key that the
    existing list does not have: this is the count printed as "Added". *)
Theorem merge_holidays_length (existing new_holidays : list HolidayEntry) :
  length (merge_holidays existing new_holidays)
  = (length existing
     + size (list_to_set (key_of <$> new_holidays)
             ∖ list_to_set (C:=gset (string * string)) (key_of <$> existing)))%nat.
Proof.
  unfold merge_holidays, merge_loop.
  rewrite (Permutation_length (sort_by_date_perm _)).
  by rewrite merge_fold_length.
Qed.

(** X4. Merging entries that are all present already changes at most the
    order; a list that is in order stays as it is. *)
Theorem merge_holidays_nothing_new (existing new_holidays : list HolidayEntry) :
  (∀ h, h ∈ new_holidays → h ∈ existing) →
  merge_holidays existing new_holidays = sort_by_date existing
  ∧ (Sorted date_le existing → merge_holidays existing new_holidays = existing).
Proof.
  intros Hknown. rewrite merge_holidays_known by done.
  split; [done | apply sort_by_date_id].
Qed.

Lemma merge_holidays_nothing_new_witness :
  let existing := [mkHoliday "2025-01-01" "New Year";
                   mkHoliday "2025-02-11" "Foundation Day"] in
  merge_holidays existing [mkHoliday "2025-02-11" "Foundation Day"]
  = sort_by_date existing.
Proof.
  intros existing.
  destruct (merge_holidays_nothing_new existing
              [mkHoliday "2025-02-11" "Foundation Day"]) as [Hsort _];
    [|exact Hsort].
  intros h ->%list_elem_of_singleton. apply (bool_decide_unpack _).
  vm_compute. exact I.
Defined.

(** X5. Incoming entries with pairwise distinct keys, none of which the
    existing list has, are all taken: the merge is the two lists put
    together and sorted. *)
Theorem merge_holidays_all_new (existing new_holidays : list HolidayEntry) :
  NoDup (key_of <$> new_holidays) →
  (∀ h, h ∈ new_holidays → h ∉ existing) →
  merge_holidays existing new_holidays = sort_by_date (existing ++ new_holidays).
Proof.
  intros Hnd Hnew. unfold merge_holidays, merge_loop.
  rewrite merge_fold_fresh; [done..|]. simpl. intros h Hh.
  rewrite elem_of_list_to_set. intros Hk.
  apply (Hnew h Hh). apply list_elem_of_fmap in Hk as (h' & Hk & Hh').
  apply key_of_inj in Hk. by subst.
Qed.

Lemma merge_holidays_all_new_witness :
  merge_holidays [mkHoliday "2025-02-11" "Foundation Day"]
    [mkHoliday "2025-04-29" "Showa Day"; mkHoliday "2025-01-01" "New Year"]
  = [mkHoliday "2025-01-01" "New Year"; mkHoliday "2025-02-11" "Foundation Day";
     mkHoliday "2025-04-29" "Showa Day"].
Proof.
  rewrite merge_holidays_all_new.
  - vm_compute. reflexivity.
  - apply (bool_decide_unpack _). vm_compute. exact I.
  - intros h Hh. revert h Hh. apply Forall_forall.
    apply (bool_decide_unpack _). vm_compute. exact I.
Defined.

(** ** More on the de-duplication *)

Section dedupe_more.
Implicit Types (l : list HolidayEntry) (d : list (string * HolidayEntry)).

Lemma setitem_fresh {K V : Type} `{EqDecision K} (k : K) (v : V)
    (dict : list (K * V)) :
  k ∉ dict.*1 → PyDict.setitem k v dict = dict ++ [(k, v)].
Proof.
  induction dict as [|[k0 v0] dict IH]; simpl; [done|].
  intros [Hne Hk]%not_elem_of_cons.
  rewrite decide_False by done. by rewrite IH.
Qed.

Lemma fill_distinct l :
  NoDup (date <$> l) →
  foldl (λ d holiday, PyDict.setitem (date holiday) holiday d) [] l
  = (λ h, (date h, h)) <$> l.
Proof.
  induction l as [|x l IH] using rev_ind; [done|].
  rewrite fmap_app. intros (Hnd & Hx & _)%NoDup_app.
  rewrite foldl_app, IH by done. simpl.
  rewrite setitem_fresh; [by rewrite fmap_app|].
  rewrite <- list_fmap_compose. intros Hin.
  apply (Hx (date x)); [exact Hin | apply list_elem_of_here].
Qed.

Lemma unique_holidays_distinct l : NoDup (date <$> l) → unique_holidays l = l.
Proof.
  intros Hnd. unfold unique_holidays, PyDict.values.
  rewrite fill_distinct by done. rewrite <- list_fmap_compose.
  by rewrite list_fmap_id.
Qed.

Lemma unique_holidays_NoDup l : NoDup (date <$> unique_holidays l).
Proof. rewrite unique_holidays_dates. apply fill_NoDup. Qed.

End dedupe_more.

(** X6. On a list in which no date repeats the de-duplication changes
    nothing, the order included; hence de-duplicating twice is the same
    as once. *)
Theorem unique_holidays_distinct_dates (filtered_holidays : list HolidayEntry) :
  (NoDup (date <$> filtered_holidays) →
   unique_holidays filtered_holidays = filtered_holidays)
  ∧ unique_holidays (unique_holidays filtered_holidays)
    = unique_holidays filtered_holidays.
Proof.
  split; [apply unique_holidays_distinct|].
  apply unique_holidays_distinct, unique_holidays_NoDup.
Qed.

Lemma unique_holidays_distinct_dates_witness :
  let l := [mkHoliday "2025-02-11T00:00:00.000Z" "Foundation Day";
            mkHoliday "2025-01-01T00:00:00.000Z" "New Year"] in
  unique_holidays l = l.
Proof.
  intros l. apply (proj1 (unique_holidays_distinct_dates l)).
  apply (bool_decide_unpack _). vm_compute. exact I.
Defined.

(** ** More on the two fetches *)

Section fetch_more.
Implicit Types (pages : list Page) (rest : list response).

(** Pages that carry a token are read one after the other. *)
Lemma fetch_pages_through pages rest holidays :
  Forall (λ p, truthy_opt (nextPageToken p) = true) pages →
  fetch_pages ((HttpOk <$> pages) ++ rest) holidays
  = (added ← py_collect holidays_of_page pages;
     fetch_pages rest (holidays ++ added)).
Proof.
  intros Hall. revert holidays.
  induction Hall as [|p pages Hp _ IH]; intros holidays; csimpl.
  - by rewrite app_nil_r.
  - destruct (holidays_of_page p) as [a|]; simpl; [|done].
    rewrite Hp, IH.
    destruct (py_collect holidays_of_page pages) as [b|]; simpl; [|done].
    by rewrite <- app_assoc.
Qed.

Lemma fetch_rows_through cid pages rest results :
  Forall (λ p, truthy_opt (nextPageToken p) = true) pages →
  fetch_rows cid ((HttpOk <$> pages) ++ rest) results
  = (added ← py_collect (rows_of_page cid) pages;
     fetch_rows cid rest (results ++ added)).
Proof.
  intros Hall. revert results.
  induction Hall as [|p pages Hp _ IH]; intros results; csimpl.
  - by rewrite app_nil_r.
  - destruct (rows_of_page cid p) as [a|]; simpl; [|done].
    rewrite Hp, IH.
    destruct (py_collect (rows_of_page cid) pages) as [b|]; simpl; [|done].
    by rewrite <- app_assoc.
Qed.






(** Every entry read from the pages comes from an item with a date. *)
Lemma holiday_of_item_elem item ys h :
  holiday_of_item item = Ok ys → h ∈ ys →
  ∃ d, resolve_date item = Ok d ∧ d ≠ ""
       ∧ h = mkHoliday (d +:+ "T00:00:00.000Z") (default "" (ev_summary item)).
Proof.
  unfold holiday_of_item. destruct (resolve_date item) as [d|]; [|done].
  simpl. intros [= <-] Hh. exists d. split; [done|].
  destruct (truthy d) eqn:Ht.
  - apply truthy_true in Ht. by apply list_elem_of_singleton in Hh.
  - by apply elem_of_nil in Hh.
Qed.

Lemma holidays_of_page_elem data added h :
  holidays_of_page data = Ok added → h ∈ added →
  ∃ item d, resolve_date item = Ok d ∧ d ≠ ""
            ∧ h = mkHoliday (d +:+ "T00:00:00.000Z")
                    (default "" (ev_summary item)).
Proof.
  unfold holidays_of_page. destruct (page_items data) as [l|]; [|done].
  simpl. intros Hadd Hh.
  destruct (py_collect_Ok_elem _ _ _ _ Hadd Hh) as (item & ys & _ & Hys & Hy).
  exists item. by eapply holiday_of_item_elem.
Qed.

Lemma fetch_pages_Ok_elem server holidays hs h :
  fetch_pages server holidays = Ok hs → h ∈ hs →
  h ∈ holidays
  ∨ ∃ item d, resolve_date item = Ok d ∧ d ≠ ""
              ∧ h = mkHoliday (d +:+ "T00:00:00.000Z")
                      (default "" (ev_summary item)).
Proof.
  revert holidays. induction server as [|[|e|data] server IH]; intros holidays;
    simpl; [done..|].
  destruct (holidays_of_page data) as [added|] eqn:Hadd; [|done].
  assert (h ∈ holidays ++ added →
          h ∈ holidays
          ∨ ∃ item d, resolve_date item = Ok d ∧ d ≠ ""
                      ∧ h = mkHoliday (d +:+ "T00:00:00.000Z")
                              (default "" (ev_summary item))) as Hpage.
  { intros [Hh|Hh]%elem_of_app; [by left|]. right.
    by eapply holidays_of_page_elem. }
  destruct (truthy_opt (nextPageToken data)).
  - intros Hfetch Hh. destruct (IH _ Hfetch Hh) as [Hin|?]; [by apply Hpage|by right].
  - intros [= <-]. apply Hpage.
Qed.

Lemma row_of_item_elem cid item ys r :
  row_of_item cid item = Ok ys → r ∈ ys →
  ∃ d, resolve_date item = Ok d
       ∧ r = mkRow d (default "" (ev_summary item)) cid (default "" (ev_id item)).
Proof.
  unfold row_of_item. destruct (resolve_date item) as [d|]; [|done].
  simpl. intros [= <-] Hr%list_elem_of_singleton. by exists d.
Qed.

Lemma py_collect_rows_elem cid pages rows r :
  py_collect (rows_of_page cid) pages = Ok rows → r ∈ rows →
  ∃ item d, resolve_date item = Ok d
            ∧ r = mkRow d (default "" (ev_summary item)) cid
                    (default "" (ev_id item)).
Proof.
  intros Hrows Hr.
  destruct (py_collect_Ok_elem _ _ _ _ Hrows Hr) as (p & ys & _ & Hys & Hy).
  unfold rows_of_page in Hys. destruct (page_items p) as [l|]; [|done].
  simpl in Hys.
  destruct (py_collect_Ok_elem _ _ _ _ Hys Hy) as (item & ys' & _ & Hys' & Hy').
  exists item. by eapply row_of_item_elem.
Qed.

Lemma year_kept_true_year year_set d :
  year_kept year_set d = Ok true → ∃ Y, year_of d = Some Y ∧ year_set Y = true.
Proof.
  unfold year_kept. destruct (truthy d); [|done].
  destruct (year_of d) as [Y|]; [|done]. intros [= HY]. by exists Y.
Qed.

End fetch_more.



(** X8. The pages are read up to the first one without a token; what the
    source would answer after it is never asked for. The result is made
    of the items of all pages read, in their order: the entries of the
    items, then the year filter, then the de-duplication; a page whose
    items cannot be walked, and an item whose date cannot be read, end
    the fetch with their exception. *)
Theorem fetch_holidays_from_gcal_pages (pages : list Page) (last : Page)
    (rest : list response) (start_year end_year : Z) :
  Forall (λ p, truthy_opt (nextPageToken p) = true) pages →
  truthy_opt (nextPageToken last) = false →
  fetch_holidays_from_gcal ((HttpOk <$> pages) ++ HttpOk last :: rest)
    start_year end_year
  = (holidays ← py_collect holidays_of_page (pages ++ [last]);
     filtered ← filter_years start_year end_year holidays;
     mret (unique_holidays filtered)).
Proof.
  intros Hall Hlast. unfold fetch_holidays_from_gcal.
  rewrite fetch_pages_through by done.
  rewrite py_collect_app. csimpl.
  destruct (py_collect holidays_of_page pages) as [a|]; simpl; [|done].
  destruct (holidays_of_page last) as [b|]; simpl; [|done].
  by rewrite Hlast, app_nil_r.
Qed.

Lemma fetch_holidays_from_gcal_pages_witness :
  let page1 := mkPage (Value [mkEvent (Some "e1") (Some "New Year")
                                (Value (mkStart (Value "2025-01-01") Absent))])
                 (Some "token-2") in
  let page2 := mkPage (Value [mkEvent (Some "e2") (Some "Showa Day")
                                (Value (mkStart Absent
                                          (Value "2025-04-29T00:00:00+09:00")))])
                 None in
  fetch_holidays_from_gcal [HttpOk page1; HttpOk page2; HttpFailure] 2025 2027
  = Ok [mkHoliday "2025-01-01T00:00:00.000Z" "New Year";
        mkHoliday "2025-04-29T00:00:00.000Z" "Showa Day"].
Proof.
  intros page1 page2.
  etrans.
  - exact (fetch_holidays_from_gcal_pages [page1] page2 [HttpFailure] 2025 2027
             ltac:(by repeat constructor) eq_refl).
  - vm_compute. reflexivity.
Defined.

(** X9. Whatever the source answers, a fetch that returns gives entries
    with pairwise distinct dates, each of the form
    [<date>T00:00:00.000Z] for a non-empty [<date>], with a year from
    [start_year] to [end_year]. *)
Theorem fetch_holidays_from_gcal_result (server : list response)
    (start_year end_year : Z) (holidays : list HolidayEntry) :
  fetch_holidays_from_gcal server start_year end_year = Ok holidays →
  NoDup (date <$> holidays)
  ∧ NoDup (key_of <$> holidays)
  ∧ ∀ h, h ∈ holidays →
      (∃ d, d ≠ "" ∧ date h = d +:+ "T00:00:00.000Z")
      ∧ ∃ Y, year_of (date h) = Some Y ∧ start_year ≤ Y ≤ end_year.
Proof.
  unfold fetch_holidays_from_gcal.
  destruct (fetch_pages server []) as [hs|] eqn:Hpages; simpl; [|done].
  destruct (filter_years start_year end_year hs) as [fs|] eqn:Hfs; simpl; [|done].
  intros [= <-]. split_and!.
  - apply unique_holidays_NoDup.
  - apply NoDup_dates_keys, unique_holidays_NoDup.
  - intros h Hh%unique_holidays_incl.
    apply py_filter_Ok in Hfs. rewrite Hfs in Hh.
    apply list_elem_of_filter in Hh as [Hk Hh]. split.
    + destruct (fetch_pages_Ok_elem _ _ _ _ Hpages Hh)
        as [Hnil|(item & d & _ & Hd & ->)].
      * by apply elem_of_nil in Hnil.
      * by exists d.
    + apply year_kept_true_year in Hk as (Y & HY & Hin).
      exists Y. split; [done|]. by apply in_range_spec.
Qed.

Lemma fetch_holidays_from_gcal_result_witness :
  let page := mkPage (Value [mkEvent (Some "e1") (Some "New Year")
                        (Value (mkStart (Value "2025-01-01") Absent));
                      mkEvent (Some "e2") (Some "Ganjitsu")
                        (Value (mkStart (Value "2025-01-01") Absent));
                      mkEvent (Some "e3") (Some "New Year")
                        (Value (mkStart (Value "2028-01-01") Absent))]) None in
  fetch_holidays_from_gcal [HttpOk page] 2025 2027
  = Ok [mkHoliday "2025-01-01T00:00:00.000Z" "Ganjitsu"]
  ∧ NoDup (date <$> [mkHoliday "2025-01-01T00:00:00.000Z" "Ganjitsu"]).
Proof.
  intros page.
  assert (fetch_holidays_from_gcal [HttpOk page] 2025 2027
          = Ok [mkHoliday "2025-01-01T00:00:00.000Z" "Ganjitsu"]) as Hfetch
    by (vm_compute; reflexivity).
  split; [exact Hfetch|].
  exact (proj1 (fetch_holidays_from_gcal_result _ _ _ _ Hfetch)).
Defined.

(** X10. [fetch_calendar_holidays] reads the pages the same way and keeps
    every row whose year is one of [years], rows of one date included:
    it does not de-duplicate. Each row it returns carries the calendar id
    it was asked for. *)
Theorem fetch_calendar_holidays_pages (cid : string) (pages : list Page)
    (last : Page) (rest : list response) (y : Z) (years : list Z) :
  Forall (λ p, truthy_opt (nextPageToken p) = true) pages →
  truthy_opt (nextPageToken last) = false →
  fetch_calendar_holidays cid ((HttpOk <$> pages) ++ HttpOk last :: rest)
    (y :: years)
  = (results ← py_collect (rows_of_page cid) (pages ++ [last]);
     filter_rows (y :: years) results)
  ∧ ∀ rows r,
      fetch_calendar_holidays cid ((HttpOk <$> pages) ++ HttpOk last :: rest)
        (y :: years) = Ok rows →
      r ∈ rows →
      row_calendarId r = cid
      ∧ ∃ Y, year_of (row_date r) = Some Y ∧ Y ∈ y :: years.
Proof.
  intros Hall Hlast.
  assert (fetch_calendar_holidays cid ((HttpOk <$> pages) ++ HttpOk last :: rest)
            (y :: years)
          = (results ← py_collect (rows_of_page cid) (pages ++ [last]);
             filter_rows (y :: years) results)) as Heq.
  { unfold fetch_calendar_holidays. rewrite fetch_rows_through by done.
    rewrite py_collect_app. csimpl.
    destruct (py_collect (rows_of_page cid) pages) as [a|]; simpl; [|done].
    destruct (rows_of_page cid last) as [b|]; simpl; [|done].
    by rewrite Hlast, app_nil_r. }
  split; [exact Heq|]. rewrite Heq. intros rows r.
  destruct (py_collect (rows_of_page cid) (pages ++ [last]))
    as [results|] eqn:Hres; simpl; [|done].
  intros Hrows Hr.
  apply py_filter_Ok in Hrows. rewrite Hrows in Hr.
  apply list_elem_of_filter in Hr as [Hk Hr].
  destruct (py_collect_rows_elem _ _ _ _ Hres Hr) as (item & d & _ & ->).
  split; [done|].
  apply year_kept_true_year in Hk as (Y & HY & Hin). exists Y. split; [done|].
  unfold in_years in Hin. by apply bool_decide_eq_true in Hin.
Qed.

Lemma fetch_calendar_holidays_pages_witness :
  let page := mkPage (Value [mkEvent (Some "e1") (Some "New Year")
                               (Value (mkStart (Value "2025-01-01") Absent));
                             mkEvent (Some "e2") (Some "Ganjitsu")
                               (Value (mkStart (Value "2025-01-01") Absent))])
                None in
  fetch_calendar_holidays "jp" [HttpOk page] default_years
  = Ok [mkRow "2025-01-01" "New Year" "jp" "e1";
        mkRow "2025-01-01" "Ganjitsu" "jp" "e2"].
Proof.
  intros page.
  etrans.
  - exact (proj1 (fetch_calendar_holidays_pages "jp" [] page [] 2025 [2026; 2027]
                    (Forall_nil_2 _) eq_refl)).
  - vm_compute. reflexivity.
Defined.

(** ** More on the pipeline *)

Section pipeline_more.
Variable api : string → list response.
Implicit Types (w : world) (st : world * counters) (k c : string).

Lemma update_country_holidays_keeps_files c k sy ey recreate w :
  is_Some (disk w !! k) →
  is_Some (disk (update_country_holidays api c sy ey recreate w).2 !! k).
Proof.
  intros Hk. unfold update_country_holidays.
  destruct (PyDict.getitem c CALENDAR_MAPPING) as [info|]; [|done].
  destruct (recreate && path_exists c w); [done|].
  destruct (fetch_holidays_from_gcal _ _ _) as [[|h hs]|]; simpl; try done.
  destruct recreate; simpl.
  - by apply save_and_return_effects.
  - destruct (_ ≫= as_entries); simpl; [|done].
    by apply save_and_return_effects.
Qed.

(** Append mode on a file that the merge can read, with holidays
    fetched: the outcome of the call, by how the write of the merge
    goes. *)
Lemma update_append_cases k info sy ey w es h hs :
  PyDict.getitem k CALENDAR_MAPPING = Some info →
  fetch_holidays_from_gcal (api (calendar_id info)) sy ey = Ok (h :: hs) →
  (load_existing_holidays (disk w !! k)).1 ≫= as_entries = Ok es →
  let call := update_country_holidays api k sy ey false w in
  match dump w k (merge_holidays es (h :: hs)) with
  | Written =>
      call.1 = Ok true
      ∧ disk call.2 !! k
        = Some (Listing (StoredEntry <$> merge_holidays es (h :: hs)))
  | Torn _ => call.1 = Ok false ∧ disk call.2 !! k = Some Unparsable
  | Refused _ => call.1 = Ok false ∧ disk call.2 !! k = disk w !! k
  end.
Proof.
  intros Hk Hfetch Hload. cbn zeta. unfold update_country_holidays.
  rewrite Hk. cbn [andb]. rewrite Hfetch. cbn [disk]. rewrite Hload.
  match goal with
  | |- context [save_and_return k ?l ?w1] =>
      pose proof (save_and_return_cases k l w1) as Hsave
  end.
  cbn [dump] in Hsave.
  destruct (dump w k (merge_holidays es (h :: hs))); [done..|].
  by rewrite Hsave.
Qed.

(** Append mode on a stored list of entries: the new content, if any,
    is a merge of the old one, unless the write is torn. *)
Lemma update_append_entries k sy ey w es :
  disk w !! k = Some (Listing (StoredEntry <$> es)) →
  (∀ hs e, dump w k hs ≠ Torn e) →
  disk (update_country_holidays api k sy ey false w).2 !! k
  = Some (Listing (StoredEntry <$> es))
  ∨ ∃ new_holidays,
      disk (update_country_holidays api k sy ey false w).2 !! k
      = Some (Listing (StoredEntry <$> merge_holidays es new_holidays)).
Proof.
  intros Hfile Hsound.
  destruct (PyDict.getitem k CALENDAR_MAPPING) as [info|] eqn:Hk.
  2:{ left. unfold update_country_holidays. by rewrite Hk. }
  destruct (fetch_holidays_from_gcal (api (calendar_id info)) sy ey)
    as [[|h hs]|] eqn:Hfetch.
  1,3: left; unfold update_country_holidays; rewrite Hk; cbn [andb];
       by rewrite Hfetch.
  assert ((load_existing_holidays (disk w !! k)).1 ≫= as_entries = Ok es)
    as Hload.
  { rewrite Hfile. simpl. apply as_entries_stored. }
  pose proof (update_append_cases k info sy ey w es h hs Hk Hfetch Hload)
    as Hcall.
  cbn zeta in Hcall.
  destruct (dump w k (merge_holidays es (h :: hs))) as [|e|e] eqn:Hdump.
  - right. exists (h :: hs). apply Hcall.
  - by destruct (Hsound _ _ Hdump).
  - left. destruct Hcall as [_ ->]. done.
Qed.

(** Append mode on a file that the merge cannot read: nothing is
    written. *)
Lemma update_append_blocked k sy ey w e :
  (load_existing_holidays (disk w !! k)).1 ≫= as_entries = Raise e →
  disk (update_country_holidays api k sy ey false w).2 = disk w.
Proof.
  intros Hload. unfold update_country_holidays.
  destruct (PyDict.getitem k CALENDAR_MAPPING) as [info|]; [|done].
  cbn [andb].
  destruct (fetch_holidays_from_gcal _ _ _) as [[|h hs]|]; simpl; try done.
  by rewrite Hload.
Qed.

Variable args : Args.

Lemma process_country_total st c :
  (success_count (process_country api args st c).2
   + error_count (process_country api args st c).2
   = S (success_count st.2 + error_count st.2))%nat.
Proof.
  unfold process_country.
  destruct (update_country_holidays _ _ _ _ _ _) as [[[|]|] w1]; simpl; lia.
Qed.

Lemma process_country_no_removal st c :
  arg_recreate args && arg_force args = false →
  extends_by (λ e, ∀ c', e ≠ FsRemove c') st.1 (process_country api args st c).1
  ∧ ∀ k, is_Some (disk st.1 !! k) →
         is_Some (disk (process_country api args st c).1 !! k).
Proof.
  intros Hmode. unfold process_country. rewrite Hmode.
  pose proof (update_country_holidays_effects api c (arg_start_year args)
                (arg_end_year args) (arg_recreate args) st.1) as Ht.
  apply (extends_by_impl _ (λ e, ∀ c', e ≠ FsRemove c')) in Ht.
  2:{ intros e [[id ->]| ->] c'; congruence. }
  pose proof (λ k, update_country_holidays_keeps_files c k (arg_start_year args)
                (arg_end_year args) (arg_recreate args) st.1) as Hk.
  destruct (update_country_holidays _ _ _ _ _ _) as [[[|]|] w1]; simpl in *;
    by split.
Qed.

Lemma process_country_world st c :
  (process_country api args st c).1
  = (update_country_holidays api c (arg_start_year args) (arg_end_year args)
       (arg_recreate args)
       (if arg_recreate args && arg_force args
        then if path_exists c st.1 then os_remove c st.1 else st.1
        else st.1)).2.
Proof.
  unfold process_country.
  by destruct (update_country_holidays _ _ _ _ _ _) as [[[|]|] w1].
Qed.

Lemma process_country_dump st c :
  dump (process_country api args st c).1 = dump st.1.
Proof.
  unfold process_country.
  set (w0 := if arg_recreate args && arg_force args
             then if path_exists c st.1 then os_remove c st.1 else st.1
             else st.1).
  assert (dump w0 = dump st.1) as <-.
  { unfold w0. destruct (_ && _); [|done]. by destruct (path_exists c st.1). }
  pose proof (update_country_holidays_dump api c (arg_start_year args)
                (arg_end_year args) (arg_recreate args) w0) as Hd.
  by destruct (update_country_holidays _ _ _ _ _ _) as [[[|]|] w1].
Qed.

Lemma process_country_append_entries st c k (es : list HolidayEntry) :
  arg_recreate args = false →
  (∀ hs e, dump st.1 k hs ≠ Torn e) →
  (∃ es' : list HolidayEntry,
     disk st.1 !! k = Some (Listing (StoredEntry <$> es'))
     ∧ ∀ e, e ∈ es → e ∈ es') →
  ∃ es' : list HolidayEntry,
    disk (process_country api args st c).1 !! k
    = Some (Listing (StoredEntry <$> es'))
    ∧ ∀ e, e ∈ es → e ∈ es'.
Proof.
  intros Hr Hsound (es' & Hk & Hsub).
  destruct (decide (c = k)) as [->|Hne].
  - unfold process_country. rewrite Hr. cbn [andb].
    pose proof (update_append_entries k (arg_start_year args)
                  (arg_end_year args) st.1 es' Hk Hsound) as Hcall.
    destruct (update_country_holidays _ _ _ _ _ _) as [[[|]|] w1]; simpl in *;
      (destruct Hcall as [Hsame|[new_holidays Hnew]];
       [by exists es'|]; exists (merge_holidays es' new_holidays);
       (split; [done|]); intros e' He';
       destruct (merge_holidays_perm es' new_holidays) as [added Hp];
       rewrite Hp; apply elem_of_app; left; by apply Hsub).
  - destruct (process_country_frame api args st c k) as [Hd _]; [done|].
    exists es'. by rewrite Hd.
Qed.

Lemma process_country_append_blocked st c k e :
  arg_recreate args = false →
  (load_existing_holidays (disk st.1 !! k)).1 ≫= as_entries = Raise e →
  disk (process_country api args st c).1 !! k = disk st.1 !! k.
Proof.
  intros Hr Hload. destruct (decide (c = k)) as [->|Hne].
  - unfold process_country. rewrite Hr. cbn [andb].
    pose proof (update_append_blocked k (arg_start_year args)
                  (arg_end_year args) st.1 e Hload) as Hcall.
    destruct (update_country_holidays _ _ _ _ _ _) as [[[|]|] w1]; simpl in *;
      by rewrite Hcall.
  - by destruct (process_country_frame api args st c k) as [Hd _].
Qed.

(** Recreate mode when nothing stands in the way: the file holds the
    fetch result, or a torn text, or there is no file. *)
Lemma process_country_recreate st k :
  arg_recreate args = true →
  arg_force args = true ∨ disk st.1 !! k = None →
  disk (process_country api args st k).1 !! k
  = match PyDict.getitem k CALENDAR_MAPPING with
    | Some info =>
        match fetch_holidays_from_gcal (api (calendar_id info))
                (arg_start_year args) (arg_end_year args) with
        | Ok (h :: hs) =>
            match dump st.1 k (h :: hs) with
            | Written => Some (Listing (StoredEntry <$> h :: hs))
            | Torn _ => Some Unparsable
            | Refused _ => None
            end
        | _ => None
        end
    | None => None
    end.
Proof.
  intros Hr Hfree. rewrite process_country_world, Hr.
  set (w0 := if true && arg_force args
             then if path_exists k st.1 then os_remove k st.1 else st.1
             else st.1).
  assert (disk w0 !! k = None) as Hnone.
  { unfold w0, path_exists. cbn [andb]. destruct (arg_force args).
    - destruct (bool_decide_reflect (is_Some (disk st.1 !! k))) as [Hs|Hn].
      + simpl. by rewrite lookup_delete_eq.
      + by apply eq_None_not_Some.
    - by destruct Hfree. }
  assert (path_exists k w0 = false) as Hpath.
  { unfold path_exists. apply bool_decide_eq_false. rewrite Hnone.
    by intros [? ?]. }
  assert (dump w0 = dump st.1) as Hdump.
  { unfold w0. cbn [andb]. destruct (arg_force args); [|done].
    by destruct (path_exists k st.1). }
  clearbody w0. unfold update_country_holidays. rewrite Hpath.
  destruct (PyDict.getitem k CALENDAR_MAPPING) as [info|]; [|done].
  cbn [andb].
  destruct (fetch_holidays_from_gcal _ _ _) as [[|h hs]|]; simpl; try done.
  match goal with
  | |- context [save_and_return k ?l ?w1] =>
      pose proof (save_and_return_cases k l w1) as Hsave
  end.
  cbn [dump] in Hsave. rewrite <- Hdump.
  destruct (dump w0 k (h :: hs)); [exact (proj2 Hsave)..|].
  by rewrite Hsave.
Qed.

End pipeline_more.

Section run_more.
Variable api : string → list response.
Variable args : Args.
Implicit Types (w : world) (k : string) (country_codes : list string).

Lemma run_countries_snoc country_codes c w :
  run_countries api args (country_codes ++ [c]) w
  = process_country api args (run_countries api args country_codes w) c.
Proof. unfold run_countries. by rewrite foldl_app. Qed.

Lemma run_countries_frame country_codes k w :
  k ∉ country_codes →
  disk (run_countries api args country_codes w).1 !! k = disk w !! k
  ∧ extends_by (spares k) w (run_countries api args country_codes w).1.
Proof.
  induction country_codes as [|c l IH] using rev_ind; intros Hk.
  - split; [done | apply extends_by_refl].
  - rewrite run_countries_snoc.
    apply not_elem_of_app in Hk as [Hl Hc%not_elem_of_cons].
    destruct Hc as [Hc _]. destruct (IH Hl) as [Hd Ht].
    destruct (process_country_frame api args
                (run_countries api args l w) c k Hc) as [Hd' Ht'].
    split; [by rewrite Hd' | by eapply extends_by_trans].
Qed.

End run_more.

(** X11. A run touches the files of the listed country codes only: the
    file of any other code is after the run what it was before, and is
    neither written nor removed. *)
Theorem run_countries_other_files (api : string → list response)
    (args : Args) (country_codes : list string) (w : world) (k : string) :
  k ∉ country_codes →
  disk (run_countries api args country_codes w).1 !! k = disk w !! k
  ∧ extends_by (spares k) w (run_countries api args country_codes w).1.
Proof. apply run_countries_frame. Qed.

Lemma run_countries_other_files_witness :
  let stored := Listing [StoredEntry (mkHoliday "2024-07-04T00:00:00.000Z" "Independence Day")] in
  let w := mkWorld {[ "US" := stored ]} [] in
  let api := λ _ : string, [HttpOk (mkPage
               (Value [mkEvent (Some "e1") (Some "New Year")
                  (Value (mkStart (Value "2025-01-01") Absent))]) None)] in
  disk (run_countries api (mkArgs 2025 2027 false false) ["JP"] w).1 !! "US"
  = Some stored.
Proof.
  intros stored w api.
  rewrite (proj1 (run_countries_other_files api (mkArgs 2025 2027 false false)
                    ["JP"] w "US" ltac:(apply (bool_decide_unpack _);
                                        vm_compute; exact I))).
  vm_compute. reflexivity.
Defined.

(** X12. Every country of the list is counted once, as a success or as
    an error. *)
Theorem run_countries_counts_all (api : string → list response)
    (args : Args) (country_codes : list string) (w : world) :
  (success_count (run_countries api args country_codes w).2
   + error_count (run_countries api args country_codes w).2
   = length country_codes)%nat.
Proof.
  induction country_codes as [|c l IH] using rev_ind; [done|].
  rewrite run_countries_snoc, length_app. simpl.
  rewrite process_country_total. lia.
Qed.

(** X13. Append mode does not lose a stored entry, unless a write of
    the file fails midway: where no write of the file is torn, a file
    that holds a list of holiday entries holds, after the whole run, a
    list of holiday entries with every one of them in it. *)
Theorem append_run_keeps_entries (api : string → list response)
    (args : Args) (country_codes : list string) (w : world) (k : string)
    (es : list HolidayEntry) :
  arg_recreate args = false →
  disk w !! k = Some (Listing (StoredEntry <$> es)) →
  (∀ hs e, dump w k hs ≠ Torn e) →
  ∃ es' : list HolidayEntry,
    disk (run_countries api args country_codes w).1 !! k
    = Some (Listing (StoredEntry <$> es'))
    ∧ ∀ e, e ∈ es → e ∈ es'.
Proof.
  intros Hr Hk Hsound.
  assert (dump (run_countries api args country_codes w).1 = dump w
          ∧ ∃ es' : list HolidayEntry,
              disk (run_countries api args country_codes w).1 !! k
              = Some (Listing (StoredEntry <$> es'))
              ∧ ∀ e, e ∈ es → e ∈ es') as [_ ?]; [|done].
  induction country_codes as [|c l [Hd IH]] using rev_ind.
  - split; [done | by exists es].
  - rewrite run_countries_snoc. split.
    + by rewrite process_country_dump.
    + apply process_country_append_entries; [done| |done].
      by rewrite Hd.
Qed.

Lemma append_run_keeps_entries_witness :
  let old := mkHoliday "2024-01-01T00:00:00.000Z" "New Year" in
  let w := mkWorld {[ "JP" := Listing [StoredEntry old] ]} [] in
  let api := λ _ : string, [HttpOk (mkPage
               (Value [mkEvent (Some "e1") (Some "Coming of Age Day")
                  (Value (mkStart (Value "2025-01-13") Absent))]) None)] in
  let args := mkArgs 2025 2027 false false in
  disk (run_countries api args ["JP"] w).1 !! "JP"
  = Some (Listing [StoredEntry old;
                   StoredEntry (mkHoliday "2025-01-13T00:00:00.000Z"
                                  "Coming of Age Day")])
  ∧ ∃ es' : list HolidayEntry,
      disk (run_countries api args ["JP"] w).1 !! "JP"
      = Some (Listing (StoredEntry <$> es'))
      ∧ ∀ e, e ∈ [old] → e ∈ es'.
Proof.
  intros old w api args. split; [vm_compute; reflexivity|].
  apply (append_run_keeps_entries api args ["JP"] w "JP" [old] eq_refl).
  - vm_compute. reflexivity.
  - intros hs e. discriminate.
Defined.

(** X14. Unless both the recreate and the overwrite directive are given,
    a run removes no file: every file that exists before the run exists
    after it, and no removal is among the effects of the run. *)
Theorem run_without_force_removes_nothing (api : string → list response)
    (args : Args) (country_codes : list string) (w : world) :
  arg_recreate args && arg_force args = false →
  extends_by (λ e, ∀ c, e ≠ FsRemove c) w
    (run_countries api args country_codes w).1
  ∧ ∀ k, is_Some (disk w !! k) →
         is_Some (disk (run_countries api args country_codes w).1 !! k).
Proof.
  intros Hmode. induction country_codes as [|c l [Ht Hk]] using rev_ind.
  - split; [apply extends_by_refl | done].
  - rewrite run_countries_snoc.
    destruct (process_country_no_removal api args
                (run_countries api args l w) c Hmode) as [Ht' Hk'].
    split; [by eapply extends_by_trans | intros k Hs; by apply Hk', Hk].
Qed.

Lemma run_without_force_removes_nothing_witness :
  let w := mkWorld {[ "JP" := Unparsable; "XX" := NotAList ]} [] in
  let api := λ _ : string, [HttpFailure] in
  is_Some (disk (run_countries api (mkArgs 2025 2027 true false) ["JP"; "XX"] w).1
             !! "XX").
Proof.
  intros w api.
  apply (run_without_force_removes_nothing api (mkArgs 2025 2027 true false)
           ["JP"; "XX"] w eq_refl).
  vm_compute. eauto.
Defined.

(** X15. Append mode does not overwrite what the merge cannot read: a
    file that is not UTF-8 text, or a stored array with an element that
    is not a holiday entry, is after the run what it was before. *)
Theorem append_run_spares_unreadable (api : string → list response)
    (args : Args) (country_codes : list string) (w : world) (k : string)
    (e : exn) :
  arg_recreate args = false →
  (load_existing_holidays (disk w !! k)).1 ≫= as_entries = Raise e →
  disk (run_countries api args country_codes w).1 !! k = disk w !! k.
Proof.
  intros Hr Hload. induction country_codes as [|c l IH] using rev_ind; [done|].
  rewrite run_countries_snoc.
  rewrite (process_country_append_blocked api args _ c k e Hr); [done|].
  by rewrite IH.
Qed.

Lemma append_run_spares_unreadable_witness :
  let w := mkWorld {[ "JP" := Listing [StoredOther "1"] ]} [] in
  let api := λ _ : string, [HttpOk (mkPage
               (Value [mkEvent (Some "e1") (Some "New Year")
                  (Value (mkStart (Value "2025-01-01") Absent))]) None)] in
  run_countries api (mkArgs 2025 2027 false false) ["JP"] w
  = (mkWorld {[ "JP" := Listing [StoredOther "1"] ]}
       [HttpFetch "ja.japanese.official#holiday@group.v.calendar.google.com"],
     mkCounters 0 1)
  ∧ disk (run_countries api (mkArgs 2025 2027 false false) ["JP"] w).1 !! "JP"
    = disk w !! "JP".
Proof.
  intros w api. split; [vm_compute; reflexivity|].
  apply (append_run_spares_unreadable api (mkArgs 2025 2027 false false)
           ["JP"] w "JP" LookupError eq_refl).
  vm_compute. reflexivity.
Defined.




(** X28. An append-mode call on a file that the merge can read, with
    holidays fetched, ends in one of three ways. The merge of what the
    file held with the fetched holidays is written in full and the call
    succeeds; or the write fails midway, the call fails, and the file is
    left with a torn text in place of what it held; or the file cannot
    be opened, the call fails, and the file is what it was. *)
Theorem update_append_outcome (api : string → list response)
    (k : string) (info : CalendarInfo) (start_year end_year : Z) (w : world)
    (existing_holidays : list HolidayEntry)
    (h : HolidayEntry) (hs : list HolidayEntry) :
  PyDict.getitem k CALENDAR_MAPPING = Some info →
  fetch_holidays_from_gcal (api (calendar_id info)) start_year end_year
  = Ok (h :: hs) →
  (load_existing_holidays (disk w !! k)).1 ≫= as_entries
  = Ok existing_holidays →
  let call := update_country_holidays api k start_year end_year false w in
  match dump w k (merge_holidays existing_holidays (h :: hs)) with
  | Written =>
      call.1 = Ok true
      ∧ disk call.2 !! k
        = Some (Listing (StoredEntry
                           <$> merge_holidays existing_holidays (h :: hs)))
  | Torn _ => call.1 = Ok false ∧ disk call.2 !! k = Some Unparsable
  | Refused _ => call.1 = Ok false ∧ disk call.2 !! k = disk w !! k
  end.
Proof. apply update_append_cases. Qed.

Lemma update_append_outcome_witness :
  let old := mkHoliday "2024-01-01T00:00:00.000Z" "New Year" in
  let w := World {[ "JP" := Listing [StoredEntry old] ]} []
             (λ _ _, Torn UnicodeEncodeError) in
  let api := λ _ : string, [HttpOk (mkPage
               (Value [mkEvent (Some "e1") (Some "Coming of Age Day")
                  (Value (mkStart (Value "2025-01-13") Absent))]) None)] in
  let call := update_country_holidays api "JP" 2025 2027 false w in
  call.1 = Ok false
  ∧ disk call.2 !! "JP" = Some Unparsable
  ∧ load_existing_holidays (disk call.2 !! "JP") = (Ok [], [ParseWarning]).
Proof.
  intros old w api call.
  assert (call.1 = Ok false ∧ disk call.2 !! "JP" = Some Unparsable) as [H1 H2].
  { exact (update_append_outcome api "JP"
             (mkInfo "ja.japanese.official#holiday@group.v.calendar.google.com" "ja")
             2025 2027 w [old]
             (mkHoliday "2025-01-13T00:00:00.000Z" "Coming of Age Day") []
             eq_refl eq_refl eq_refl). }
  split_and!; [exact H1 | exact H2 |]. rewrite H2. reflexivity.
Defined.

(** X17. Recreate mode, when the overwrite directive is given or the
    country has no file: after its turn the country has a file only if
    it is in [CALENDAR_MAPPING] and the fetch returned at least one
    holiday. The file then holds the fetch result as it came, unmerged
    and unsorted, when the write went through, and a torn text when the
    write failed midway; there is no file when it could not be opened.
    In particular the overwrite directive removes the file of a country
    that is not in [CALENDAR_MAPPING], or whose fetch fails or finds
    nothing. With the overwrite directive the same holds after the whole
    run for every country of the list. *)
Theorem recreate_outcome (api : string → list response) (args : Args)
    (k : string) :
  arg_recreate args = true →
  let outcome (how : string → list HolidayEntry → write) :=
    match PyDict.getitem k CALENDAR_MAPPING with
    | Some info =>
        match fetch_holidays_from_gcal (api (calendar_id info))
                (arg_start_year args) (arg_end_year args) with
        | Ok (h :: hs) =>
            match how k (h :: hs) with
            | Written => Some (Listing (StoredEntry <$> h :: hs))
            | Torn _ => Some Unparsable
            | Refused _ => None
            end
        | _ => None
        end
    | None => None
    end in
  (∀ st, arg_force args = true ∨ disk st.1 !! k = None →
         disk (process_country api args st k).1 !! k = outcome (dump st.1))
  ∧ (∀ country_codes w,
       arg_force args = true → k ∈ country_codes →
       disk (run_countries api args country_codes w).1 !! k = outcome (dump w)).
Proof.
  intros Hr. cbn zeta. split.
  - intros st Hfree. by apply process_country_recreate.
  - intros country_codes w Hf.
    assert (∀ l, dump (run_countries api args l w).1 = dump w) as Hdump.
    { induction l as [|c l IH] using rev_ind; [done|].
      by rewrite run_countries_snoc, process_country_dump. }
    induction country_codes as [|c l IH] using rev_ind;
      [by intros ?%elem_of_nil|].
    rewrite run_countries_snoc. destruct (decide (c = k)) as [->|Hne].
    + intros _. rewrite <- (Hdump l).
      apply process_country_recreate; [done | by left].
    + intros [Hin|Hin%list_elem_of_singleton]%elem_of_app; [|done].
      destruct (process_country_frame api args
                  (run_countries api args l w) c k) as [Hd _]; [done|].
      rewrite Hd. by apply IH.
Qed.

Lemma recreate_outcome_witness :
  let w := mkWorld {[ "XX" := Listing [StoredEntry (mkHoliday "2024-01-01" "Old")] ]} [] in
  let api := λ _ : string, [HttpOk (mkPage (Value []) None)] in
  disk (run_countries api (mkArgs 2025 2027 true true) ["XX"] w).1 !! "XX" = None.
Proof.
  intros w api.
  exact (proj2 (recreate_outcome api (mkArgs 2025 2027 true true) "XX" eq_refl)
           ["XX"] w eq_refl (list_elem_of_here _ _)).
Defined.

(** ** More on the snapshot comparison *)

Section compare_more.
Implicit Types (acc : list error * Stats) (errs : list error).
Implicit Types (before after : list (string * list HolidayEntry)).
Implicit Types (hb ha : list HolidayEntry).

Lemma check_entry_errors c ha acc b :
  (check_entry c ha acc b).1 = acc.1 ++ entry_errors c ha b.
Proof.
  destruct acc as [errs st]. unfold check_entry, entry_errors.
  destruct (after_match _ _) as [a|]; simpl; [|by rewrite app_nil_r].
  destruct (decide (b = a)); simpl; [by rewrite app_nil_r | done].
Qed.

Lemma check_entries_errors c ha hb acc :
  (foldl (check_entry c ha) acc hb).1 = acc.1 ++ (hb ≫= entry_errors c ha).
Proof.
  revert acc. induction hb as [|b hb IH]; intros acc; csimpl.
  - by rewrite app_nil_r.
  - by rewrite IH, check_entry_errors, <- app_assoc.
Qed.

Lemma check_country_errors after acc item :
  (check_country after acc item).1 = acc.1 ++ country_errors after item.
Proof.
  destruct acc as [errs st], item as [c hb].
  unfold check_country, country_errors. cbn [fst snd].
  destruct (PyDict.getitem c after) as [ha|]; [|done].
  match goal with
  | |- context [foldl (check_entry c ha) ?a hb] =>
      pose proof (check_entries_errors c ha hb a) as He;
      destruct (foldl (check_entry c ha) a hb) as [errs3 st3]
  end.
  cbn [fst snd] in *. by rewrite He, <- app_assoc.
Qed.

Lemma check_countries_errors after before acc :
  (foldl (check_country after) acc before).1
  = acc.1 ++ (before ≫= country_errors after).
Proof.
  revert acc. induction before as [|item before IH]; intros acc; csimpl.
  - by rewrite app_nil_r.
  - by rewrite IH, check_country_errors, <- app_assoc.
Qed.

(** The errors of the comparison, country by country. *)
Lemma compare_snapshots_errors_by_country before after :
  errors (compare_snapshots before after) = before ≫= country_errors after.
Proof. by rewrite compare_snapshots_errors, check_countries_errors. Qed.

Lemma bind_nil_inv {A B : Type} (f : A → list B) (l : list A) x :
  l ≫= f = [] → x ∈ l → f x = [].
Proof.
  induction l as [|y l IH]; csimpl; [by intros _ ?%elem_of_nil|].
  intros [Hy Hl]%app_eq_nil [->|Hx]%elem_of_cons; [done | by apply IH].
Qed.

Lemma bind_nil_intro {A B : Type} (f : A → list B) (l : list A) :
  (∀ x, x ∈ l → f x = []) → l ≫= f = [].
Proof.
  induction l as [|y l IH]; intros Hall; csimpl; [done|].
  rewrite (Hall y) by by left. rewrite IH; [done|].
  intros x Hx. apply Hall. by right.
Qed.

Lemma after_match_is_Some ha b a :
  a ∈ ha → create_holiday_key a = create_holiday_key b →
  ∃ a', after_match (create_holiday_key b) ha = Some a'.
Proof.
  intros Ha Hk. unfold after_match.
  destruct (list_find_elem_of
              (λ x, create_holiday_key x = create_holiday_key b) ha a Ha Hk)
    as [[i a'] ->].
  by exists a'.
Qed.

(** A country without errors has kept all its entries. *)
Lemma country_errors_nil after c hb :
  country_errors after (c, hb) = [] →
  ∃ ha, PyDict.getitem c after = Some ha ∧ ∀ b, b ∈ hb → b ∈ ha.
Proof.
  unfold country_errors. cbn [fst snd].
  destruct (PyDict.getitem c after) as [ha|]; [|done].
  intros [Hdel Hmod]%app_eq_nil. exists ha. split; [done|]. intros b Hb.
  apply fmap_nil_inv, elements_empty_inv, leibniz_equiv in Hdel.
  assert (create_holiday_key b ∈ holiday_keys ha) as Hkey.
  { destruct (decide (create_holiday_key b ∈ holiday_keys ha)) as [|Hn]; [done|].
    exfalso. apply (not_elem_of_empty (C:=gset string) (create_holiday_key b)).
    rewrite <- Hdel. apply elem_of_difference. split; [|done].
    unfold holiday_keys. apply elem_of_list_to_set. by apply list_elem_of_fmap_2. }
  unfold holiday_keys in Hkey.
  apply elem_of_list_to_set, list_elem_of_fmap in Hkey as (a & Hk & Ha).
  destruct (after_match_is_Some ha b a Ha (eq_sym Hk)) as [a' Hm].
  pose proof (bind_nil_inv _ _ b Hmod Hb) as Hb'.
  unfold entry_errors in Hb'. rewrite Hm in Hb'.
  destruct (decide (b = a')) as [->|]; [|done].
  by apply after_match_Some in Hm as [? _].
Qed.

(** A country that kept all its entries, with keys that tell them
    apart, has no errors. *)
Lemma country_errors_kept after c hb ha :
  PyDict.getitem c after = Some ha →
  (∀ b, b ∈ hb → b ∈ ha) →
  (∀ b a, b ∈ hb → a ∈ ha →
          create_holiday_key a = create_holiday_key b → a = b) →
  country_errors after (c, hb) = [].
Proof.
  intros Hget Hkept Hkeys. unfold country_errors. cbn [fst snd]. rewrite Hget.
  assert (holiday_keys hb ∖ holiday_keys ha = ∅) as ->.
  { apply set_eq. intros x. unfold holiday_keys.
    rewrite elem_of_difference, !elem_of_list_to_set, !list_elem_of_fmap.
    split; [|by intros ?%not_elem_of_empty].
    intros [(b & -> & Hb) Hn]. destruct Hn. exists b. split; [done|].
    by apply Hkept. }
  rewrite elements_empty. simpl. apply bind_nil_intro. intros b Hb.
  unfold entry_errors.
  destruct (after_match _ ha) as [a|] eqn:Hm; [|done].
  apply after_match_Some in Hm as [Ha Hk].
  rewrite decide_True; [done|]. symmetry. by apply Hkeys.
Qed.

Lemma getitem_fmap_value {V W : Type} (g : string * V → W)
    (d : list (string * V)) c v :
  NoDup d.*1 → (c, v) ∈ d →
  PyDict.getitem c ((λ item, (item.1, g item)) <$> d) = Some (g (c, v)).
Proof.
  intros Hnd Hin. apply elem_of_getitem.
  - rewrite <- list_fmap_compose. exact Hnd.
  - apply list_elem_of_fmap. by exists (c, v).
Qed.

End compare_more.

(** X18. A comparison that passes vouches for every entry: each country
    of the before snapshot is in the after snapshot, and each of its
    entries is there, with the same date and name. *)
Theorem compare_snapshots_passed_sound
    (before after : list (string * list HolidayEntry)) :
  passed (compare_snapshots before after) = true →
  ∀ c hb, (c, hb) ∈ before →
    ∃ ha, PyDict.getitem c after = Some ha ∧ ∀ b, b ∈ hb → b ∈ ha.
Proof.
  rewrite compare_snapshots_passed, bool_decide_eq_true, length_zero_iff_nil.
  rewrite compare_snapshots_errors_by_country. intros Herrs c hb Hin.
  apply country_errors_nil. by apply (bind_nil_inv _ before).
Qed.

Lemma compare_snapshots_passed_sound_witness :
  let a := mkHoliday "2025-01-01T00:00:00.000Z" "New Year" in
  let b := mkHoliday "2025-01-13T00:00:00.000Z" "Coming of Age Day" in
  ∃ ha, PyDict.getitem "JP" [("JP", [a; b])] = Some ha ∧ ∀ h, h ∈ [a] → h ∈ ha.
Proof.
  intros a b.
  apply (compare_snapshots_passed_sound [("JP", [a])] [("JP", [a; b])]).
  - vm_compute. reflexivity.
  - apply list_elem_of_here.
Defined.

(** X19. Conversely, when every country is still there with all its
    entries, and within each country the key strings tell the entries
    apart, the comparison records no error and passes; entries that are
    only in the after snapshot are no error. *)
Theorem compare_snapshots_passes
    (before after : list (string * list HolidayEntry)) :
  (∀ c hb, (c, hb) ∈ before →
     ∃ ha, PyDict.getitem c after = Some ha
           ∧ (∀ b, b ∈ hb → b ∈ ha)
           ∧ ∀ b a, b ∈ hb → a ∈ ha →
                    create_holiday_key a = create_holiday_key b → a = b) →
  errors (compare_snapshots before after) = []
  ∧ passed (compare_snapshots before after) = true.
Proof.
  intros Hall.
  assert (errors (compare_snapshots before after) = []) as Herrs.
  { rewrite compare_snapshots_errors_by_country. apply bind_nil_intro.
    intros [c hb] Hin. destruct (Hall c hb Hin) as (ha & Hget & Hkept & Hkeys).
    by eapply country_errors_kept. }
  split; [done|].
  by rewrite compare_snapshots_passed, Herrs.
Qed.

Lemma compare_snapshots_passes_witness :
  let a := mkHoliday "2025-01-01T00:00:00.000Z" "New Year" in
  let b := mkHoliday "2025-01-13T00:00:00.000Z" "Coming of Age Day" in
  passed (compare_snapshots [("JP", [a])] [("JP", [a; b])]) = true.
Proof.
  intros a b.
  apply (compare_snapshots_passes [("JP", [a])] [("JP", [a; b])]).
  intros c hb [= -> ->]%list_elem_of_singleton.
  exists [a; b]. split_and!; [reflexivity | |].
  - intros h ->%list_elem_of_singleton. apply list_elem_of_here.
  - intros h h' ->%list_elem_of_singleton Hh' Hk.
    apply create_holiday_key_inj_width; [|done].
    apply elem_of_cons in Hh' as [->|Hh']; [reflexivity|].
    apply list_elem_of_singleton in Hh' as ->. reflexivity.
Defined.

(** X20. A country of the before snapshot that the after snapshot does
    not have is reported, and the comparison fails. *)
Theorem compare_snapshots_missing_country
    (before after : list (string * list HolidayEntry)) (c : string)
    (hb : list HolidayEntry) :
  (c, hb) ∈ before →
  PyDict.getitem c after = None →
  CountryMissing c ∈ errors (compare_snapshots before after)
  ∧ passed (compare_snapshots before after) = false.
Proof.
  intros Hin Hget.
  assert (CountryMissing c ∈ errors (compare_snapshots before after)) as Herr.
  { rewrite compare_snapshots_errors_by_country.
    apply list_elem_of_bind. exists (c, hb). split; [|done].
    unfold country_errors. cbn [fst]. rewrite Hget. apply list_elem_of_here. }
  split; [done|].
  rewrite compare_snapshots_passed. apply bool_decide_eq_false.
  intros Hlen%length_zero_iff_nil. rewrite Hlen in Herr.
  by apply elem_of_nil in Herr.
Qed.

Lemma compare_snapshots_missing_country_witness :
  passed (compare_snapshots [("JP", []); ("US", [])] [("JP", [])]) = false.
Proof.
  apply (compare_snapshots_missing_country [("JP", []); ("US", [])] [("JP", [])]
           "US" []).
  - apply list_elem_of_further, list_elem_of_here.
  - reflexivity.
Defined.

(** X21. The comparison passes on every merge. When each country of the
    after snapshot is [merge_holidays] of its before list with some
    incoming list, the comparison records no missing country and no
    deleted entry; and when all dates involved have one width, so that
    the key strings tell entries apart, it records no error at all. *)
Theorem compare_snapshots_after_merge
    (before : list (string * list HolidayEntry))
    (incoming : string → list HolidayEntry) :
  NoDup before.*1 →
  let after :=
    (λ item, (item.1, merge_holidays item.2 (incoming item.1))) <$> before in
  Forall (λ e, ∃ c b a, e = EntryModified c b a)
    (errors (compare_snapshots before after))
  ∧ ∀ width,
      (∀ c hb, (c, hb) ∈ before →
         Forall (λ h, String.length (date h) = width) (hb ++ incoming c)) →
      passed (compare_snapshots before after) = true.
Proof.
  intros Hnd after.
  assert (∀ c hb, (c, hb) ∈ before →
            PyDict.getitem c after = Some (merge_holidays hb (incoming c)))
    as Hget.
  { intros c hb Hin.
    apply (getitem_fmap_value
             (λ item, merge_holidays item.2 (incoming item.1)) before c hb);
      done. }
  assert (∀ hb new_holidays b, b ∈ hb → b ∈ merge_holidays hb new_holidays)
    as Hkept.
  { intros hb new_holidays b Hb.
    destruct (merge_holidays_perm hb new_holidays) as [added Hp].
    rewrite Hp. apply elem_of_app. by left. }
  split.
  - rewrite compare_snapshots_errors_by_country.
    apply Forall_forall. intros e He.
    apply list_elem_of_bind in He as ([c hb] & He & Hin).
    unfold country_errors in He. cbn [fst snd] in He.
    rewrite (Hget c hb Hin) in He.
    assert (holiday_keys hb ∖ holiday_keys (merge_holidays hb (incoming c)) = ∅)
      as Hdel.
    { apply set_eq. intros x. unfold holiday_keys.
      rewrite elem_of_difference, !elem_of_list_to_set, !list_elem_of_fmap.
      split; [|by intros ?%not_elem_of_empty].
      intros [(b & -> & Hb) Hn]. destruct Hn. exists b. split; [done|].
      by apply Hkept. }
    rewrite Hdel, elements_empty in He. simpl in He.
    apply list_elem_of_bind in He as (b & He & Hb).
    unfold entry_errors in He. destruct (after_match _ _) as [a|]; [|by apply elem_of_nil in He].
    destruct (decide (b = a)); [by apply elem_of_nil in He|].
    apply list_elem_of_singleton in He. eauto.
  - intros width Hwidth.
    rewrite compare_snapshots_passed, bool_decide_eq_true, length_zero_iff_nil.
    rewrite compare_snapshots_errors_by_country. apply bind_nil_intro.
    intros [c hb] Hin.
    apply (country_errors_kept after c hb (merge_holidays hb (incoming c)));
      [by apply Hget | intros b Hb; by apply Hkept |].
    intros b a Hb Ha Hk. apply create_holiday_key_inj_width; [|done].
    pose proof (Hwidth c hb Hin) as Hw.
    rewrite Forall_forall in Hw. rewrite (Hw b) by (apply elem_of_app; by left).
    apply Hw.
    destruct (merge_holidays_perm hb (incoming c)) as [added Hp].
    unfold merge_holidays in Ha. rewrite sort_by_date_perm in Ha.
    apply merge_fold_from in Ha as [Ha|Ha]; apply elem_of_app; [by left|by right].
Qed.

Lemma compare_snapshots_after_merge_witness :
  let a := mkHoliday "2025-01-01T00:00:00.000Z" "New Year" in
  let b := mkHoliday "2025-01-13T00:00:00.000Z" "Coming of Age Day" in
  passed (compare_snapshots [("JP", [a])]
            [("JP", merge_holidays [a] [b; a])]) = true.
Proof.
  intros a b.
  apply (proj2 (compare_snapshots_after_merge [("JP", [a])] (λ _, [b; a])
                  ltac:(apply (bool_decide_unpack _); vm_compute; exact I)) 24%nat).
  intros c hb [= -> ->]%list_elem_of_singleton.
  repeat (apply Forall_cons; split; [reflexivity|]). apply Forall_nil_2.
Defined.

(** X22. Among entries whose dates have the same length, as the stored
    dates [YYYY-MM-DDTHH:MM:SS.000Z] have, the key string determines the
    entry. *)
Theorem create_holiday_key_unique (x y : HolidayEntry) :
  String.length (date x) = String.length (date y) →
  create_holiday_key x = create_holiday_key y → x = y.
Proof. apply create_holiday_key_inj_width. Qed.

Lemma create_holiday_key_unique_witness :
  String.length "2025-01-01T00:00:00.000Z" = 24%nat
  ∧ mkHoliday "2025-01-01T00:00:00.000Z" "New Year"
    = mkHoliday ("2025-01-01" +:+ "T00:00:00.000Z") ("New" +:+ " Year").
Proof.
  split; [reflexivity|].
  apply (create_holiday_key_unique
           (mkHoliday "2025-01-01T00:00:00.000Z" "New Year")
           (mkHoliday ("2025-01-01" +:+ "T00:00:00.000Z") ("New" +:+ " Year")));
    vm_compute; reflexivity.
Defined.

(** ** The counters of the comparison *)

Section stats_facts.
Implicit Types (acc : list error * Stats) (errs : list error).
Implicit Types (before after : list (string * list HolidayEntry)).

Lemma in_step_refl acc : in_step acc acc.
Proof. by split. Qed.

Lemma in_step_trans acc1 acc2 acc3 :
  in_step acc1 acc2 → in_step acc2 acc3 → in_step acc1 acc3.
Proof. unfold in_step. intros [? ?] [? ?]. split; lia. Qed.

Lemma check_entry_in_step c ha acc b :
  in_step acc (check_entry c ha acc b)
  ∧ countries_checked (check_entry c ha acc b).2 = countries_checked acc.2.
Proof.
  destruct acc as [errs st]. unfold check_entry, in_step.
  destruct (after_match _ _) as [a|]; [|done].
  destruct (decide (b = a)); cbn [fst snd deleted_entries modified_entries
                                   countries_checked]; [done|].
  rewrite !filter_app, !length_app. cbn.
  repeat case_decide; try done; cbn; lia.
Qed.

Lemma check_entries_in_step c ha hb acc :
  in_step acc (foldl (check_entry c ha) acc hb)
  ∧ countries_checked (foldl (check_entry c ha) acc hb).2
    = countries_checked acc.2.
Proof.
  revert acc. induction hb as [|b hb IH]; intros acc; simpl.
  - split; [apply in_step_refl | done].
  - destruct (IH (check_entry c ha acc b)) as [Hs ->].
    destruct (check_entry_in_step c ha acc b) as [Hs' ->].
    split; [by eapply in_step_trans | done].
Qed.

Lemma filter_deleted_length c (keys : list string) :
  length (filter is_deleted (EntryDeleted c <$> keys)) = length keys
  ∧ length (filter is_modified (EntryDeleted c <$> keys)) = 0%nat.
Proof.
  induction keys as [|k keys [IH1 IH2]]; [done|].
  rewrite fmap_cons, filter_cons_True, filter_cons_False by (cbn; auto).
  cbn. by rewrite IH1, IH2.
Qed.

Lemma check_country_in_step after acc item :
  in_step acc (check_country after acc item)
  ∧ countries_checked (check_country after acc item).2
    = S (countries_checked acc.2).
Proof.
  destruct acc as [errs st], item as [c hb]. unfold check_country.
  destruct (PyDict.getitem c after) as [ha|].
  - match goal with
    | |- context [foldl (check_entry c ha) ?a hb] =>
        destruct (check_entries_in_step c ha hb a) as [[Hd Hm] Hc];
        destruct (foldl (check_entry c ha) a hb) as [errs3 st3]
    end.
    cbn [fst snd deleted_entries modified_entries countries_checked] in *.
    rewrite !filter_app, !length_app in Hd, Hm.
    destruct (filter_deleted_length c
                (elements (holiday_keys hb ∖ holiday_keys ha))) as [Hl1 Hl2].
    rewrite Hl1 in Hd. rewrite Hl2 in Hm.
    change (size (holiday_keys hb ∖ holiday_keys ha))
      with (length (elements (holiday_keys hb ∖ holiday_keys ha))) in Hd.
    unfold in_step. cbn [fst snd deleted_entries modified_entries].
    split; [split; lia | done].
  - unfold in_step.
    cbn [fst snd deleted_entries modified_entries countries_checked].
    rewrite !filter_app, !length_app. cbn.
    repeat case_decide; try done; cbn; split; [split; lia | done].
Qed.

Lemma check_countries_in_step after before acc :
  in_step acc (foldl (check_country after) acc before)
  ∧ countries_checked (foldl (check_country after) acc before).2
    = (countries_checked acc.2 + length before)%nat.
Proof.
  revert acc. induction before as [|item before IH]; intros acc; simpl.
  - split; [apply in_step_refl | lia].
  - destruct (IH (check_country after acc item)) as [Hs ->].
    destruct (check_country_in_step after acc item) as [Hs' ->].
    split; [by eapply in_step_trans | lia].
Qed.

End stats_facts.

(** X23. The counters agree with the list of errors: every country of
    the before snapshot is counted, [deleted_entries] is the number of
    deleted-entry errors and [modified_entries] the number of
    modified-entry errors. *)
Theorem compare_snapshots_counters
    (before after : list (string * list HolidayEntry)) :
  let report := compare_snapshots before after in
  countries_checked (stats report) = length before
  ∧ deleted_entries (stats report) = length (filter is_deleted (errors report))
  ∧ modified_entries (stats report)
    = length (filter is_modified (errors report)).
Proof.
  cbn zeta. rewrite compare_snapshots_errors, compare_snapshots_stats.
  destruct (check_countries_in_step after before ([], mkStats 0 0 0 0 0 0 0))
    as [[Hd Hm] Hc].
  cbn [fst snd deleted_entries modified_entries countries_checked] in *.
  rewrite filter_nil in Hd, Hm. cbn in Hd, Hm. split_and!; lia.
Qed.

(** ** The country codes and the whole of [main] *)

Section codes_facts.
Implicit Types (s k suffix : string) (cs : list ascii) (l names : list string).

Lemma insert_str_perm s l : insert_str s l ≡ₚ s :: l.
Proof.
  induction l as [|s' l IH]; simpl; [done|].
  destruct (String.leb s s'); [done|]. rewrite IH. apply Permutation_swap.
Qed.

Lemma py_sorted_perm l : py_sorted l ≡ₚ l.
Proof.
  induction l as [|s l IH]; simpl; [done|]. by rewrite insert_str_perm, IH.
Qed.

Lemma insert_str_sorted s l :
  Sorted (λ a b, String.leb a b = true) l →
  Sorted (λ a b, String.leb a b = true) (insert_str s l).
Proof.
  induction 1 as [|s' l Hs IH Hhd]; simpl.
  - repeat constructor.
  - destruct (String.leb s s') eqn:Hle.
    + constructor; [by constructor|]. by constructor.
    + constructor; [done|].
      assert (String.leb s' s = true) as Hs'.
      { destruct (String.leb_total s s'); [congruence|done]. }
      destruct Hhd as [|s'' l' Hs'']; simpl.
      * by constructor.
      * destruct (String.leb s s''); by constructor.
Qed.

Lemma py_sorted_sorted l : Sorted (λ a b, String.leb a b = true) (py_sorted l).
Proof.
  induction l as [|s l IH]; simpl; [constructor|]. by apply insert_str_sorted.
Qed.

Lemma ends_with_spec suffix s :
  ends_with suffix s = true ↔ ∃ k, s = k +:+ suffix.
Proof.
  induction s as [|c s IH].
  - change (ends_with suffix "") with (String.eqb "" suffix || false).
    rewrite orb_false_r, String.eqb_eq. split.
    + intros <-. by exists "".
    + intros [[|? ?] Hk]; simpl in Hk; [done|discriminate].
  - change (ends_with suffix (String c s))
      with (String.eqb (String c s) suffix || ends_with suffix s).
    rewrite orb_true_iff, String.eqb_eq, IH. split.
    + intros [<-|[k ->]]; [by exists "" | by exists (String c k)].
    + intros [[|c' k] Hk]; simpl in Hk; [by left|].
      injection Hk as -> ->. right. by exists k.
Qed.

Lemma list_ascii_of_string_app s1 s2 :
  list_ascii_of_string (s1 +:+ s2)
  = list_ascii_of_string s1 ++ list_ascii_of_string s2.
Proof. induction s1 as [|c s1 IH]; simpl; [done|]. by rewrite IH. Qed.

Lemma rfind_dot_json cs :
  rfind_dot (cs ++ list_ascii_of_string ".json") = Some (length cs).
Proof.
  induction cs as [|c cs IH]; [reflexivity|].
  cbn [app rfind_dot length]. by rewrite IH.
Qed.

Lemma prefix_dot_cons c k :
  String.prefix "." (String c k) = bool_decide (c = "."%char).
Proof.
  cbn [String.prefix]. destruct (Ascii.ascii_dec "." c) as [<-|Hne].
  - rewrite bool_decide_eq_true_2 by done. by destruct k.
  - by rewrite bool_decide_eq_false_2 by congruence.
Qed.

Lemma prefix_dot_app k suffix :
  k ≠ "" → String.prefix "." (k +:+ suffix) = String.prefix "." k.
Proof.
  destruct k as [|c k]; [done|]. intros _.
  change (String c k +:+ suffix) with (String c (k +:+ suffix)).
  by rewrite !prefix_dot_cons.
Qed.

(** A name [k.json] that [glob] does not hide has root [k]. *)
Lemma splitext_root_json k :
  String.prefix "." (k +:+ ".json") = false →
  splitext_root (k +:+ ".json") = k ∧ String.prefix "." k = false.
Proof.
  intros Hvisible. destruct k as [|c k]; [done|].
  rewrite prefix_dot_app in Hvisible by done.
  split; [|done]. rewrite prefix_dot_cons in Hvisible.
  apply bool_decide_eq_false in Hvisible.
  assert (is_dot c = false) as Hc by (by apply Ascii.eqb_neq).
  unfold splitext_root. rewrite list_ascii_of_string_app, rfind_dot_json.
  rewrite take_app_length. cbn [list_ascii_of_string forallb]. rewrite Hc.
  cbn [andb string_of_list_ascii]. by rewrite string_of_list_ascii_of_string.
Qed.

Lemma string_length_app s1 s2 :
  String.length (s1 +:+ s2) = (String.length s1 + String.length s2)%nat.
Proof.
  induction s1 as [|c s1 IH]; [done|].
  change (String c s1 +:+ s2) with (String c (s1 +:+ s2)).
  cbn [String.length]. by rewrite IH.
Qed.

Lemma append_inj_r k1 k2 suffix : k1 +:+ suffix = k2 +:+ suffix → k1 = k2.
Proof.
  intros Heq.
  assert (String.length k1 = String.length k2) as Hlen.
  { apply (f_equal String.length) in Heq.
    rewrite !string_length_app in Heq. lia. }
  by destruct (append_inj_width k1 k2 suffix suffix Hlen Heq).
Qed.

Lemma string_app_assoc s1 s2 s3 : (s1 +:+ s2) +:+ s3 = s1 +:+ s2 +:+ s3.
Proof.
  induction s1 as [|c s1 IH]; [done|].
  change (String c s1 +:+ s2) with (String c (s1 +:+ s2)).
  change (String c (s1 +:+ s2) +:+ s3) with (String c ((s1 +:+ s2) +:+ s3)).
  change (String c s1 +:+ s2 +:+ s3) with (String c (s1 +:+ s2 +:+ s3)).
  by rewrite IH.
Qed.

Lemma has_sep_cons c s : has_sep (String c s) = is_sep c || has_sep s.
Proof. reflexivity. Qed.

Lemma has_sep_app s1 s2 : has_sep (s1 +:+ s2) = has_sep s1 || has_sep s2.
Proof.
  unfold has_sep. by rewrite list_ascii_of_string_app, existsb_app.
Qed.

(** A base name holds no separator. *)
Lemma os_path_basename_no_sep s : has_sep (os_path_basename s) = false.
Proof.
  induction s as [|c s IH]; [done|]. cbn [os_path_basename].
  destruct (has_sep s) eqn:Hs; [done|].
  destruct (is_sep c) eqn:Hc; [done|].
  by rewrite has_sep_cons, Hc, Hs.
Qed.

Lemma os_path_basename_plain s : has_sep s = false → os_path_basename s = s.
Proof.
  destruct s as [|c s]; [done|]. rewrite has_sep_cons.
  intros [Hc Hs]%orb_false_iff. cbn [os_path_basename]. by rewrite Hs, Hc.
Qed.

Lemma os_path_basename_after_sep s1 s2 :
  has_sep s2 = false → os_path_basename (s1 +:+ "/" +:+ s2) = s2.
Proof.
  intros Hs2. induction s1 as [|c s1 IH].
  - change ("" +:+ "/" +:+ s2) with (String "/" s2).
    cbn [os_path_basename]. by rewrite Hs2.
  - change (String c s1 +:+ "/" +:+ s2) with (String c (s1 +:+ "/" +:+ s2)).
    cbn [os_path_basename]. rewrite has_sep_app.
    change (has_sep ("/" +:+ s2)) with true. by rewrite orb_true_r.
Qed.

(** [glob] joins the directory and a name of its listing: the base name
    of the path is the name. *)
Lemma os_path_basename_join s1 s2 :
  has_sep s2 = false → os_path_basename (os_path_join s1 s2) = s2.
Proof.
  intros Hs2. unfold os_path_join.
  destruct (String.eqb s1 "") eqn:Hempty.
  - apply String.eqb_eq in Hempty as ->. by apply os_path_basename_plain.
  - cbn [orb]. destruct (ends_with "/" s1) eqn:Hend.
    + apply ends_with_spec in Hend as [k ->].
      rewrite string_app_assoc. by apply os_path_basename_after_sep.
    + by apply os_path_basename_after_sep.
Qed.

Lemma splitext_root_no_sep s : has_sep s = false → has_sep (splitext_root s) = false.
Proof.
  unfold splitext_root, has_sep. intros Hs.
  destruct (rfind_dot _) as [i|]; [|done].
  destruct (forallb is_dot _); [done|].
  rewrite list_ascii_of_string_of_list_ascii.
  apply not_true_iff_false. intros (c & Hc & Hsep)%existsb_exists.
  apply not_true_iff_false in Hs. apply Hs, existsb_exists. exists c.
  split; [|done]. apply list_elem_of_In.
  apply list_elem_of_In in Hc. by eapply subseteq_take.
Qed.

(** The country codes: the two-character upper-case roots of the base
    names of the paths. *)
Lemma get_country_codes_elem_of json_files code :
  code ∈ get_country_codes_from_json_dir json_files ↔
  (∃ file_path, file_path ∈ json_files
                ∧ splitext_root (os_path_basename file_path) = code)
  ∧ String.length code = 2%nat ∧ str_isupper code = true.
Proof.
  unfold get_country_codes_from_json_dir.
  rewrite py_sorted_perm, list_elem_of_filter, list_elem_of_fmap. split.
  - intros [[Hlen Hup] (file_path & -> & Hin)]. split; [|done]. by exists file_path.
  - intros [(file_path & Hin & <-) [Hlen Hup]]. split; [done|]. by exists file_path.
Qed.

(** The codes found in a directory: the names matched by [*.json],
    reached through paths that keep them as base names. *)
Lemma get_country_codes_of_names (path_of : string → string) names code :
  (∀ n, has_sep n = false → os_path_basename (path_of n) = n) →
  (∀ n, n ∈ names → has_sep n = false) →
  code ∈ get_country_codes_from_json_dir (path_of <$> glob_json names) ↔
  (code +:+ ".json") ∈ names
  ∧ String.prefix "." code = false
  ∧ String.length code = 2%nat ∧ str_isupper code = true.
Proof.
  intros Hbase Hplain. rewrite get_country_codes_elem_of. unfold glob_json.
  split.
  - intros [(file_path & Hin & <-) [Hlen Hup]].
    apply list_elem_of_fmap in Hin as (n & -> & [Hglob Hn]%list_elem_of_filter).
    rewrite Hbase in * by by apply Hplain.
    apply andb_true_iff in Hglob as [Hvis%negb_true_iff [k ->]%ends_with_spec].
    destruct (splitext_root_json k Hvis) as [Hroot Hk].
    rewrite Hroot in *. done.
  - intros (Hn & Hvis & Hlen & Hup). split; [|done].
    assert (String.prefix "." (code +:+ ".json") = false) as Hvis'.
    { rewrite prefix_dot_app; [done|]. by intros ->. }
    exists (path_of (code +:+ ".json")). split.
    + apply list_elem_of_fmap. exists (code +:+ ".json"). split; [done|].
      apply list_elem_of_filter. split; [|done].
      apply andb_true_iff. split; [by rewrite Hvis'|].
      apply ends_with_spec. by exists code.
    + rewrite Hbase by by apply Hplain. by apply splitext_root_json.
Qed.

Lemma directory_names_elem_of w k :
  (k +:+ ".json") ∈ directory_names w ↔ is_Some (disk w !! k) ∧ has_sep k = false.
Proof.
  unfold directory_names. rewrite list_elem_of_fmap. split.
  - intros (k' & Heq%append_inj_r & [Hsep Hk']%list_elem_of_filter). subst k'.
    split; [|done]. by apply elem_of_dom, elem_of_elements.
  - intros [Hk Hsep]. exists k. split; [done|].
    apply list_elem_of_filter. split; [done|].
    by apply elem_of_elements, elem_of_dom.
Qed.

Lemma directory_names_plain w n : n ∈ directory_names w → has_sep n = false.
Proof.
  unfold directory_names.
  intros (k & -> & [Hsep _]%list_elem_of_filter)%list_elem_of_fmap.
  by rewrite has_sep_app, Hsep.
Qed.

(** The country codes of [main]: the two-character upper-case codes
    that have a file. *)
Lemma main_country_codes_elem_of w code :
  code ∈ get_country_codes_from_json_dir (glob_json (directory_names w)) →
  is_Some (disk w !! code)
  ∧ String.length code = 2%nat ∧ str_isupper code = true.
Proof.
  rewrite <- (list_fmap_id (glob_json (directory_names w))).
  intros (Hn & _ & Hlen & Hup)%get_country_codes_of_names.
  - split; [|done]. by apply directory_names_elem_of in Hn as [? _].
  - apply os_path_basename_plain.
  - apply directory_names_plain.
Qed.

End codes_facts.

Section main_facts.
Variable api : string → list response.
Variable args : Args.

(** Recreate without the overwrite directive over files that all exist:
    nothing happens, and every country is an error. *)
Lemma run_countries_all_conflicts country_codes w :
  arg_recreate args = true → arg_force args = false →
  (∀ c, c ∈ country_codes → is_Some (disk w !! c)) →
  run_countries api args country_codes w
  = (w, mkCounters 0 (length country_codes)).
Proof.
  intros Hr Hf. induction country_codes as [|c l IH] using rev_ind; intros Hall.
  - done.
  - rewrite run_countries_snoc, IH by (intros c' Hc'; apply Hall, elem_of_app; by left).
    rewrite process_country_conflict; [|done|done|].
    + simpl. rewrite length_app. simpl. do 2 f_equal. lia.
    + simpl. apply Hall, elem_of_app. right. apply list_elem_of_here.
Qed.

End main_facts.

(** X24. [get_country_codes_from_json_dir] returns its codes in
    ascending order. They are the two-character upper-case roots of the
    base names of the paths that [glob.glob] found, and none holds a
    separator. When [json_dir] has no pattern character, these are
    exactly the codes [c] of two characters, upper case, for which
    [c.json] is a name of the directory that [glob] does not hide; names
    such as [jp.json], [JPN.json] or [US.txt] give no code. *)
Theorem get_country_codes_from_json_dir_spec (json_files : list string) :
  Sorted (λ a b, String.leb a b = true)
    (get_country_codes_from_json_dir json_files)
  ∧ (∀ code,
       code ∈ get_country_codes_from_json_dir json_files ↔
       (∃ file_path, file_path ∈ json_files
                     ∧ splitext_root (os_path_basename file_path) = code)
       ∧ String.length code = 2%nat ∧ str_isupper code = true)
  ∧ (∀ code, code ∈ get_country_codes_from_json_dir json_files →
             has_sep code = false)
  ∧ (∀ json_dir names,
       glob_glob json_dir names = Some json_files →
       (∀ n, n ∈ names → has_sep n = false) →
       ∀ code,
         code ∈ get_country_codes_from_json_dir json_files ↔
         (code +:+ ".json") ∈ names
         ∧ String.prefix "." code = false
         ∧ String.length code = 2%nat ∧ str_isupper code = true).
Proof.
  split_and!.
  - apply py_sorted_sorted.
  - apply get_country_codes_elem_of.
  - intros code [(file_path & _ & <-) _]%get_country_codes_elem_of.
    apply splitext_root_no_sep, os_path_basename_no_sep.
  - intros json_dir names Hglob Hplain code. unfold glob_glob in Hglob.
    destruct (has_magic json_dir); [done|]. injection Hglob as <-.
    apply get_country_codes_of_names; [|done].
    intros n Hn. by apply os_path_basename_join.
Qed.

Lemma get_country_codes_from_json_dir_spec_witness :
  let names := ["US.json"; "jp.json"; "JP.json"; ".GB.json"; "JPN.json"; "FR.txt"] in
  glob_glob "data/json/" names = Some ["data/json/US.json"; "data/json/jp.json";
                                        "data/json/JP.json"; "data/json/JPN.json"]
  ∧ glob_glob "json[2025]" names = None
  ∧ get_country_codes_from_json_dir
      ["data/json/US.json"; "data/json/jp.json"; "data/json/JP.json";
       "data/json/JPN.json"]
    = ["JP"; "US"]
  ∧ ("JP" ∈ get_country_codes_from_json_dir
              ["data/json/US.json"; "data/json/jp.json"; "data/json/JP.json";
               "data/json/JPN.json"]
     ↔ "JP.json" ∈ names
       ∧ String.prefix "." "JP" = false
       ∧ String.length "JP" = 2%nat ∧ str_isupper "JP" = true).
Proof.
  intros names. split_and!; [vm_compute; reflexivity..|].
  apply (proj2 (proj2 (proj2 (get_country_codes_from_json_dir_spec
                                ["data/json/US.json"; "data/json/jp.json";
                                 "data/json/JP.json"; "data/json/JPN.json"])))
           "data/json/" names).
  - vm_compute. reflexivity.
  - apply (proj1 (Forall_forall _ _)).
    repeat (apply Forall_cons; split; [reflexivity|]). apply Forall_nil_2.
Defined.

(** X25. [main] stops with status 1 and without any effect when the API
    key is missing or the start year is after the end year. Whatever the
    arguments, it leaves alone every file whose name is not a
    two-character upper-case code followed by [.json]. Status 0 means
    that the arguments were accepted, that there was at least one
    country, and that no country was counted as an error. *)
Theorem main_outcome (api_key : option string) (api : string → list response)
    (args : Args) (w : world) :
  (truthy_opt api_key = false ∨ arg_end_year args < arg_start_year args →
   main api_key api args w = (ExitFailure, w))
  ∧ (∀ k, ¬ (String.length k = 2%nat ∧ str_isupper k = true) →
          disk (main api_key api args w).2 !! k = disk w !! k
          ∧ extends_by (spares k) w (main api_key api args w).2)
  ∧ ((main api_key api args w).1 = ExitSuccess →
     truthy_opt api_key = true
     ∧ arg_start_year args ≤ arg_end_year args
     ∧ get_country_codes_from_json_dir (glob_json (directory_names w)) ≠ []
     ∧ error_count
         (run_countries api args
            (get_country_codes_from_json_dir (glob_json (directory_names w)))
            w).2 = 0%nat).
Proof.
  unfold main. split_and!.
  - intros [->| Hyears]; [done|].
    destruct (negb (truthy_opt api_key)); [done|].
    by rewrite bool_decide_eq_true_2.
  - intros k Hk.
    destruct (negb (truthy_opt api_key)); [split; [done|apply extends_by_refl]|].
    destruct (bool_decide _); [split; [done|apply extends_by_refl]|].
    assert (k ∉ get_country_codes_from_json_dir (glob_json (directory_names w)))
      as Hout.
    { intros (_ & Hlen & Hup)%get_country_codes_elem_of. by apply Hk. }
    destruct (get_country_codes_from_json_dir (glob_json (directory_names w)))
      as [|c l]; [split; [done|apply extends_by_refl]|].
    cbn [fst snd]. by apply run_countries_frame.
  - destruct (truthy_opt api_key); [|done]. cbn [negb].
    destruct (bool_decide_reflect (arg_end_year args < arg_start_year args))
      as [|Hyears]; [done|].
    destruct (get_country_codes_from_json_dir (glob_json (directory_names w)))
      as [|c l]; [done|].
    cbn [fst]. destruct (bool_decide_reflect
                  (0 < error_count (run_countries api args (c :: l) w).2)%nat)
      as [|Herr]; [done|].
    intros _. split_and!; [done | lia | done | lia].
Qed.

Lemma main_outcome_witness :
  let w := mkWorld {[ "JP" := Listing []; "readme" := NotAList ]} [] in
  let api := λ _ : string, [HttpOk (mkPage
               (Value [mkEvent (Some "e1") (Some "New Year")
                  (Value (mkStart (Value "2025-01-01") Absent))]) None)] in
  main None api (mkArgs 2025 2027 false false) w = (ExitFailure, w)
  ∧ disk (main (Some "key") api (mkArgs 2025 2027 false false) w).2 !! "readme"
    = Some NotAList.
Proof.
  intros w api. split.
  - apply (proj1 (main_outcome None api (mkArgs 2025 2027 false false) w)).
    by left.
  - rewrite (proj1 (proj1 (proj2 (main_outcome (Some "key") api
                                    (mkArgs 2025 2027 false false) w))
                      "readme" ltac:(by intros [? _]))).
    vm_compute. reflexivity.
Defined.

(** X26. The list of countries is read off the files that exist, so with
    the recreate directive and without the overwrite directive every
    country is a conflict: [main] ends with status 1 and has no effect at
    all, whatever the directory holds and whatever the source answers. *)
Theorem main_recreate_without_force (api_key : option string)
    (api : string → list response) (args : Args) (w : world) :
  arg_recreate args = true → arg_force args = false →
  main api_key api args w = (ExitFailure, w).
Proof.
  intros Hr Hf. unfold main.
  destruct (negb (truthy_opt api_key)); [done|].
  destruct (bool_decide _); [done|].
  pose proof (run_countries_all_conflicts api args
                (get_country_codes_from_json_dir (glob_json (directory_names w)))
                w Hr Hf) as Hrun.
  destruct (get_country_codes_from_json_dir (glob_json (directory_names w)))
    as [|c l] eqn:Hcodes; [done|].
  rewrite Hrun.
  - cbn [fst snd error_count]. by rewrite bool_decide_eq_true_2 by (simpl; lia).
  - intros c' Hc'. rewrite <- Hcodes in Hc'.
    by apply main_country_codes_elem_of in Hc' as [? _].
Qed.

Lemma main_recreate_without_force_witness :
  let w := mkWorld {[ "JP" := Listing [] ]} [] in
  main (Some "key") (λ _, [HttpOk (mkPage (Value []) None)])
    (mkArgs 2025 2027 true false) w
  = (ExitFailure, w).
Proof.
  intros w.
  exact (main_recreate_without_force (Some "key") _ (mkArgs 2025 2027 true false)
           w eq_refl eq_refl).
Defined.

(** ** [parse_countries_arg] *)

Section parse_facts.
Implicit Types (cs field : list ascii).

Lemma lstrip_str_suffix cs : lstrip_str cs `suffix_of` cs.
Proof.
  induction cs as [|c cs IH]; simpl; [done|].
  destruct (is_strip_space c); [by apply suffix_cons_r | done].
Qed.

Lemma lstrip_str_head cs c rest :
  lstrip_str cs = c :: rest → is_strip_space c = false.
Proof.
  induction cs as [|c' cs IH]; simpl; [done|].
  destruct (is_strip_space c') eqn:Hc'; [done|]. by intros [= <- _].
Qed.

Lemma str_strip_prefix cs : str_strip cs `prefix_of` lstrip_str cs.
Proof.
  unfold str_strip.
  destruct (lstrip_str_suffix (reverse (lstrip_str cs))) as [pre Hpre].
  exists (reverse pre).
  rewrite <- reverse_app, <- Hpre. by rewrite reverse_involutive.
Qed.

Lemma str_strip_elem_of cs c : c ∈ str_strip cs → c ∈ cs.
Proof.
  intros Hc. destruct (str_strip_prefix cs) as [post Hpost].
  destruct (lstrip_str_suffix cs) as [pre Hpre].
  rewrite Hpre, Hpost. apply elem_of_app. right. apply elem_of_app. by left.
Qed.

Lemma str_strip_head cs c rest :
  str_strip cs = c :: rest → is_strip_space c = false.
Proof.
  intros Hs. destruct (str_strip_prefix cs) as [post Hpost].
  rewrite Hs in Hpost. by eapply lstrip_str_head.
Qed.

Lemma str_strip_last cs c rest :
  str_strip cs = rest ++ [c] → is_strip_space c = false.
Proof.
  unfold str_strip. intros Hs.
  apply (f_equal reverse) in Hs.
  rewrite reverse_involutive, reverse_app in Hs. simpl in Hs.
  by eapply lstrip_str_head.
Qed.

Lemma split_commas_no_comma cs :
  Forall (λ field, ","%char ∉ field) (split_commas cs).
Proof.
  induction cs as [|c cs IH]; simpl.
  - apply Forall_singleton, not_elem_of_nil.
  - destruct (Ascii.eqb c ",") eqn:Hc.
    + apply Forall_cons. split; [apply not_elem_of_nil | done].
    + apply Ascii.eqb_neq in Hc.
      destruct (split_commas cs) as [|field fields].
      * apply Forall_singleton. intros Heq%list_elem_of_singleton. congruence.
      * apply Forall_cons in IH as [Hf Hfs]. apply Forall_cons. split; [|done].
        intros [Heq|?]%elem_of_cons; [congruence|done].
Qed.

End parse_facts.

(** X27. The keys that [parse_countries_arg] returns are clean: none is
    empty, none contains a comma, none begins or ends with white
    space. *)
Theorem parse_countries_arg_clean (arg : string) (key : string) :
  key ∈ parse_countries_arg arg →
  key ≠ ""
  ∧ (","%char ∉ list_ascii_of_string key)
  ∧ (∀ c rest, list_ascii_of_string key = c :: rest → is_strip_space c = false)
  ∧ (∀ c rest, list_ascii_of_string key = rest ++ [c] →
               is_strip_space c = false).
Proof.
  unfold parse_countries_arg.
  intros (stripped & -> & [Hne Hin]%list_elem_of_filter)%list_elem_of_fmap.
  apply list_elem_of_fmap in Hin as (field & -> & Hfield).
  rewrite list_ascii_of_string_of_list_ascii. split_and!.
  - intros Hempty. apply Hne.
    apply (f_equal list_ascii_of_string) in Hempty.
    by rewrite list_ascii_of_string_of_list_ascii in Hempty.
  - intros Hc%str_strip_elem_of.
    by apply (proj1 (Forall_forall _ _)
                (split_commas_no_comma (list_ascii_of_string arg)) field Hfield).
  - apply str_strip_head.
  - apply str_strip_last.
Qed.

Lemma parse_countries_arg_clean_witness :
  parse_countries_arg " JP_ja , ,US,,GB " = ["JP_ja"; "US"; "GB"]
  ∧ "US" ≠ "".
Proof.
  split; [vm_compute; reflexivity|].
  apply (parse_countries_arg_clean " JP_ja , ,US,,GB " "US").
  apply (bool_decide_unpack _). vm_compute. exact I.
Defined.
